(** * vector-kg-llm: the claim pipeline of the agent gateway and the KG-API

    A shallow embedding of the services that decide and record claims:

    - [services/agent-gateway/gateway/app.py]: trust scoring, conflict
      detection, the policy gate, and the tool-dispatch agent loop;
    - [services/kg-api/app.py]: the claim ledger over the graph store;
    - [services/agent-gateway/gateway/auth.py] and [scripts/kgctrl.py]: the
      API key of the gateway and the headers the command line tool sends;
    - [services/scheduler/app.py]: the background scan for gaps.

    Python floats are IEEE binary64 values, so they are modelled by Rocq's
    primitive floats; Python strings by [string]; JSON values by an inductive
    type; the graph store by a record of finite maps, sets and an edge list. *)

From Stdlib Require Import Floats ZArith Ascii String List Bool Lia DecimalString.
From stdpp Require Import base option list gmap strings.

#[local] Set Warnings "-inexact-float,-register-all".
#[local] Open Scope string_scope.

(** ** Python values *)
Module Py.

(** *** Floats: comparison, truth value, [max] and [min] *)

(** [bool(x)] for a float: every value but the two zeros is true (NaN too). *)
Definition truthy (x : float) : bool := negb (x =? 0)%float.

(** [x or 0.0] for an [Optional[float]]. *)
Definition or_zero (x : option float) : float :=
  match x with
  | Some v => if truthy v then v else 0%float
  | None => 0%float
  end.

(** The IEEE comparison of two floats: nothing when one of them is NaN. *)
Definition cmp (x y : float) : option comparison :=
  SFcompare (Prim2SF x) (Prim2SF y).

(** [a >= b] and [a > b]. *)
Definition ge (a b : float) : bool := (b <=? a)%float.
Definition gt (a b : float) : bool := (b <? a)%float.

(** [max(a, b)] keeps [a] unless [b > a]; [min(a, b)] keeps [a] unless
    [b < a]. *)
Definition max2 (a b : float) : float := if gt b a then b else a.
Definition min2 (a b : float) : float := if (b <? a)%float then b else a.

(** [max(iterable)] over a non-empty iterable [x, xs...]: the running
    maximum is replaced by an item only when the item is greater. *)
Definition max_iter (x : float) (xs : list float) : float := fold_left max2 xs x.

(** *** Strings *)

(** [str.isspace] on one character (code points below 256). [\s] of [re]
    on a [str] pattern is the same class. *)
Definition isspace (c : ascii) : bool :=
  let n := N_of_ascii c in
  ((9 <=? n) && (n <=? 13) || (28 <=? n) && (n <=? 32)
   || (n =? 133) || (n =? 160))%N.

Fixpoint lstrip (s : string) : string :=
  match s with
  | EmptyString => EmptyString
  | String c s' => if isspace c then lstrip s' else s
  end.

Fixpoint rstrip (s : string) : string :=
  match s with
  | EmptyString => EmptyString
  | String c s' =>
      match rstrip s' with
      | EmptyString => if isspace c then EmptyString else String c EmptyString
      | r => String c r
      end
  end.

(** [s.strip()] *)
Definition strip (s : string) : string := rstrip (lstrip s).

(** [s[n:]] and [s[:n]] *)
Fixpoint drop (n : nat) (s : string) : string :=
  match n, s with
  | O, _ => s
  | S _, EmptyString => EmptyString
  | S n', String _ s' => drop n' s'
  end.

Fixpoint take (n : nat) (s : string) : string :=
  match n, s with
  | O, _ => EmptyString
  | S _, EmptyString => EmptyString
  | S n', String c s' => String c (take n' s')
  end.

(** [s.startswith(p)], [s.endswith(p)] and [b in s] *)
Definition startswith (p s : string) : bool := String.prefix p s.

Definition endswith (p s : string) : bool :=
  (String.length p <=? String.length s)%nat
  && String.eqb (drop (String.length s - String.length p) s) p.

Fixpoint contains (b s : string) : bool :=
  startswith b s ||
  match s with
  | EmptyString => false
  | String _ s' => contains b s'
  end.

(** [s.upper()] on ASCII letters. *)
Definition upper_char (c : ascii) : ascii :=
  let n := N_of_ascii c in
  if ((97 <=? n) && (n <=? 122))%N then ascii_of_N (n - 32) else c.

Fixpoint upper (s : string) : string :=
  match s with
  | EmptyString => EmptyString
  | String c s' => String (upper_char c) (upper s')
  end.

(** *** JSON values, as [json.loads] and [r.json()] return them *)
Inductive json : Type :=
| JNull
| JBool (b : bool)
| JInt (n : Z)
| JFloat (x : float)
| JStr (s : string)
| JArr (items : list json)
| JObj (fields : list (string * json)).

(** A [dict] with string keys, in insertion order. *)
Definition dict : Type := list (string * json).

Fixpoint dict_lookup (k : string) (d : dict) : option json :=
  match d with
  | [] => None
  | (k', v) :: d' => if String.eqb k k' then Some v else dict_lookup k d'
  end.

(** [k in d] and [d.get(k, default)]; [d.get(k)] has default [None]. *)
Definition dict_has (k : string) (d : dict) : bool :=
  match dict_lookup k d with Some _ => true | None => false end.

Definition dict_get (k : string) (default : json) (d : dict) : json :=
  match dict_lookup k d with Some v => v | None => default end.

(** [d[k] = v]: replace in place or append. *)
Fixpoint dict_set (k : string) (v : json) (d : dict) : dict :=
  match d with
  | [] => [(k, v)]
  | (k', v') :: d' =>
      if String.eqb k k' then (k, v) :: d' else (k', v') :: dict_set k v d'
  end.

(** [bool(v)] *)
Definition json_truthy (v : json) : bool :=
  match v with
  | JNull => false
  | JBool b => b
  | JInt n => negb (n =? 0)%Z
  | JFloat x => truthy x
  | JStr s => negb (String.eqb s "")
  | JArr l => match l with [] => false | _ => true end
  | JObj d => match d with [] => false | _ => true end
  end.

(** [v == s] for a string [s] *)
Definition json_eq_str (v : json) (s : string) : bool :=
  match v with
  | JStr t => String.eqb t s
  | _ => false
  end.

(** [bool(l)] for a list *)
Definition nonempty {A} (l : list A) : bool :=
  match l with [] => false | _ => true end.

(** *** Exceptions and results *)
Inductive exn : Type :=
| HTTPException (status_code : Z) (detail : string)
| TransportError      (* httpx: the request could not be completed *)
| JSONDecodeError     (* the response body is not JSON *)
| AttributeError
| TypeError
| IndexError
| KeyError
| ValueError
| Neo4jError.         (* the graph store refuses a statement *)

Inductive result (A : Type) : Type :=
| Return (a : A)
| Raise (e : exn).
Arguments Return {A} a.
Arguments Raise {A} e.

Definition is_raise {A} (r : result A) : bool :=
  match r with Raise _ => true | Return _ => false end.

(** *** Dynamic operations on JSON values *)

(** [v.get(k, default)]: only a dict has [get]. *)
Definition attr_get (v : json) (k : string) (default : json) : result json :=
  match v with
  | JObj d => Return (dict_get k default d)
  | _ => Raise AttributeError
  end.

(** [v[0]] *)
Definition index0 (v : json) : result json :=
  match v with
  | JArr (x :: _) => Return x
  | JArr [] => Raise IndexError
  | JStr (String c _) => Return (JStr (String c EmptyString))
  | JStr EmptyString => Raise IndexError
  | JObj _ => Raise KeyError
  | _ => Raise TypeError
  end.

(** [v[k]] for a string key [k] *)
Definition subscript (v : json) (k : string) : result json :=
  match v with
  | JObj d =>
      match dict_lookup k d with
      | Some x => Return x
      | None => Raise KeyError
      end
  | _ => Raise TypeError
  end.

(** [v or default] *)
Definition or_else (v default : json) : json :=
  if json_truthy v then v else default.

(** [iter(v)]: the items of a list, the characters of a string, the keys
    of a dict; nothing else is iterable. *)
Definition iter (v : json) : result (list json) :=
  match v with
  | JArr l => Return l
  | JStr s => Return (map (fun c => JStr (String c EmptyString)) (list_ascii_of_string s))
  | JObj d => Return (map (fun kv => JStr (fst kv)) d)
  | _ => Raise TypeError
  end.

(** [b in v] for a string [b]: substring of a string, item of a list, key
    of a dict. *)
Definition str_in (b : string) (v : json) : result bool :=
  match v with
  | JStr s => Return (contains b s)
  | JArr l => Return (existsb (fun x => json_eq_str x b) l)
  | JObj d => Return (dict_has b d)
  | _ => Raise TypeError
  end.

(** [v[:n]] *)
Definition slice_to (n : nat) (v : json) : result json :=
  match v with
  | JStr s => Return (JStr (take n s))
  | JArr l => Return (JArr (firstn n l))
  | _ => Raise TypeError
  end.

End Py.

(** ** The pydantic models shared by the two services *)
Module Models.

(** [class Evidence(BaseModel)] (gateway) and [class EvidenceModel] (KG-API). *)
Record Evidence : Type := {
  uri_or_blob_ref : string;
  snippet : option string;
  hash : option string;
  source_type : string;
  quality_score : option float;
  timestamp : option float
}.

(** [class Provenance(BaseModel)] and [class ProvenanceModel]. *)
Record Provenance : Type := {
  who : option string;
  when_ : option float;
  prompt_hash : option string;
  model_version : option string;
  git_sha : option string;
  image_digest : option string;
  run_id : option string;
  dataset_uri : option string;
  sensor_id : option string;
  frame_ts : option float
}.

(** [class ClaimIn(BaseModel)] of the gateway. *)
Record ClaimIn : Type := {
  subject_id : string;
  predicate : string;
  object_kind : string;
  object_value : string;
  model_conf : option float;
  human_conf : option float;
  context_hash : option string;
  evidence : list Evidence;
  provenance : option Provenance
}.

End Models.

(** ** services/agent-gateway/gateway *)
Module Gateway.
Import Py Models.

(** *** [gateway/__init__.py]: constants *)
Definition AUTO_MERGE_PREDICATES : gset string :=
  {[ "USES"; "INGESTS"; "PRODUCES" ]}.
Definition FIRST_PARTY : gset string :=
  {[ "first_party_log"; "config"; "run_artifact" ]}.

(** The defaults of [TIER_AUTO_TRUST_THRESHOLD] and
    [TIER_MIN_EVIDENCE_QUALITY]. *)
Definition AUTO_TRUST_default : float := 0.85.
Definition MIN_QUAL_default : float := 0.70.

(** *** What the gateway sends to and receives from the KG-API *)

(** The JSON body of a POST: a dict the gateway builds or forwards, or
    [claim.model_dump()] with the key ["status"] set. *)
Inductive kg_body : Type :=
| Body_json (j : json)
| Body_claim (claim : ClaimIn) (status : string).

(** What [client.post] yields: no response at all, or a response with its
    status code, its text and, when the text is JSON, the decoded value. *)
Inductive http_reply : Type :=
| ConnectError
| Response (status_code : Z) (text : string) (body : option json).

Definition message : Type := string * string. (* role, content *)

(** Calls that leave the gateway, in the order they are made. *)
Inductive call : Type :=
| KgPost (path : string) (body : kg_body)
| LlmChat (messages : list message).

(** The collaborators of the gateway: the KG-API behind [KG_API_URL], the
    language model, and the library functions the agent loop relies on. *)
Record Env : Type := {
  World : Type;
  kg_reply : string -> kg_body -> World -> http_reply * World;
  llm_reply : list message -> World -> result string * World;
  time_time : World -> float;
  (** [json.loads] on a text that starts with an opening brace: a dict, or
      nothing when the text is not JSON *)
  json_loads : string -> option dict;
  json_dumps : json -> string;
  (** [_ADD_RE.search(q)] and [_NEI_RE.search(q)], with the groups *)
  _ADD_RE : string -> option (string * string * string * string);
  _NEI_RE : string -> option (string * string);
  (** [float(s)] and [int(s)]: a number, or nothing for [ValueError] *)
  py_float : string -> option float;
  py_int : string -> option Z;
  (** how an f-string shows a value that is not a string *)
  py_repr : json -> string;
  SYSTEM_PROMPT : string
}.

(** State of a request: the world outside and the calls made so far. *)
Record state (env : Env) : Type := {
  world : World env;
  calls : list call
}.
Arguments world {env} _.
Arguments calls {env} _.

(** Handlers are computations that may raise and that change the state. *)
Definition M (env : Env) (A : Type) : Type := state env -> result A * state env.

Definition ret {env A} (a : A) : M env A := fun st => (Return a, st).
Definition raise {env A} (e : exn) : M env A := fun st => (Raise e, st).
Definition bind {env A B} (m : M env A) (k : A -> M env B) : M env B :=
  fun st =>
    match m st with
    | (Return a, st') => k a st'
    | (Raise e, st') => (Raise e, st')
    end.
(** [try: m  except Exception: h] *)
Definition try_except {env A} (m : M env A) (h : M env A) : M env A :=
  fun st =>
    match m st with
    | (Return a, st') => (Return a, st')
    | (Raise _, st') => h st'
    end.
Definition lift {env A} (r : result A) : M env A := fun st => (r, st).

Notation "x <- m ;; k" := (bind m (fun x => k))
  (at level 100, m at next level, right associativity).

(** *** Requests and responses of the endpoints *)

(** The dict [propose_claim] returns. *)
Record GateOut : Type := {
  gate_ok : bool;
  decision : string;
  trust : float;
  min_quality_ok : bool;
  no_conflict : bool;
  kg : json
}.

(** [class QueryIn(BaseModel)] *)
Record QueryIn : Type := {
  question : string;
  max_steps : Z
}.

(** One entry of the trace: [{"assistant": text}] or [{"tool_result": r}]. *)
Inductive trace_entry : Type :=
| Assistant (text : string)
| ToolResult (r : json).

(** The dict [query] returns; ["data"] is present on one path only. *)
Record QueryOut : Type := {
  query_ok : bool;
  answer : json;
  trace : list trace_entry;
  data : option json
}.

Section Handlers.
Variable env : Env.
(** [AUTO_TRUST] and [MIN_QUAL] are read from the environment at import. *)
Variables AUTO_TRUST MIN_QUAL : float.

(** *** Helpers *)

Definition _kg_post (path : string) (body : kg_body) : M env json :=
  fun st =>
    let '(rep, w) := kg_reply env path body (world st) in
    let st' := {| world := w; calls := calls st ++ [KgPost path body] |} in
    match rep with
    | ConnectError => (Raise TransportError, st')
    | Response code text j =>
        if (400 <=? code)%Z then (Raise (HTTPException code text), st')
        else match j with
             | Some v => (Return v, st')
             | None => (Raise JSONDecodeError, st')
             end
    end.

(** [e.quality_score or 0.0] *)
Definition score (e : Evidence) : float := or_zero (quality_score e).

Definition is_first_party (e : Evidence) : bool :=
  bool_decide (source_type e ∈ FIRST_PARTY).

Definition _trust_score (claim : ClaimIn) : float :=
  let qual :=
    match evidence claim with
    | [] => 0
    | e :: es => max_iter (score e) (map score es)
    end%float in
  let first_party_bonus :=
    (if forallb is_first_party (evidence claim) && nonempty (evidence claim)
     then 0.15 else 0)%float in
  let model_conf := or_zero (model_conf claim) in
  let raw := (0.5 * qual + 0.4 * model_conf + first_party_bonus)%float in
  max2 0 (min2 1 raw).

(** The query of [_has_conflicts]. *)
Definition conflict_query : string := "
    MATCH (s:Entity {id:$sid})-[r]->(o)
    WHERE type(r) = $pred
    RETURN collect(distinct o.id) AS objs
    ".

Definition conflict_body (claim : ClaimIn) : kg_body :=
  Body_json (JObj [("query", JStr conflict_query);
                   ("params", JObj [("sid", JStr (subject_id claim));
                                    ("pred", JStr (predicate claim))])]).

(** The body of the [try] of [_has_conflicts] after the POST: read [objs]
    out of the response and compare. *)
Definition conflicts_in (claim : ClaimIn) (res : json) : M env bool :=
  records <- lift (attr_get res "records" (JArr [JObj []])) ;;
  first <- lift (index0 records) ;;
  objs <- lift (attr_get (or_else first (JObj [])) "objs" (JArr [])) ;;
  if String.eqb (object_kind claim) "entity" then
    os <- lift (iter objs) ;;
    ret (existsb (fun o => negb (json_eq_str o (object_value claim))) os)
  else ret false.

Definition _has_conflicts (claim : ClaimIn) : M env bool :=
  try_except
    (res <- _kg_post "/cypher" (conflict_body claim) ;;
     conflicts_in claim res)
    (ret true).

Definition _call_llm (messages : list message) : M env string :=
  fun st =>
    let '(r, w) := llm_reply env messages (world st) in
    (r, {| world := w; calls := calls st ++ [LlmChat messages] |}).

(** [re.sub(r'^\s*\[TOOL_RESULT\]\s*', '', s)] *)
Definition sub_tool_result (s : string) : string :=
  let t := lstrip s in
  if startswith "[TOOL_RESULT]" t then lstrip (drop 13 t) else s.

(** [re.sub(r'\s*\[END_TOOL_RESULT\]\s*$', '', s)] *)
Definition sub_end_tool_result (s : string) : string :=
  let r := rstrip s in
  if endswith "[END_TOOL_RESULT]" r
  then rstrip (take (String.length r - 17) r) else s.

(** The longest prefix of [s] that ends with a closing brace. *)
Fixpoint upto_last_close (s : string) : option string :=
  match s with
  | EmptyString => None
  | String c s' =>
      match upto_last_close s' with
      | Some r => Some (String c r)
      | None => if Ascii.eqb c "}" then Some (String c EmptyString) else None
      end
  end.

(** [re.search(r"\{.*\}", s, flags=re.DOTALL)]: from the first opening
    brace to the last closing brace after it. *)
Fixpoint search_object (s : string) : option string :=
  match s with
  | EmptyString => None
  | String c s' =>
      if Ascii.eqb c "{" then
        match upto_last_close s' with
        | Some r => Some (String c r)
        | None => None
        end
      else search_object s'
  end.

Definition _extract_json (s : string) : dict :=
  let s := sub_tool_result s in
  let s := sub_end_tool_result s in
  let coerced := [("final", JObj [("answer", JStr (strip s))])] in
  match search_object s with
  | Some m =>
      match json_loads env m with
      | Some d => d
      | None => coerced
      end
  | None => coerced
  end.

Definition bad : list string :=
  ["name:"; "HAS_KNOWLEDGE"; "CREATE "; "MERGE "; "DELETE "; "SET "].

Definition _cypher_safe (query : string) : bool :=
  negb (existsb (fun b => contains b query) bad).

(** [_cypher_safe(q)] when [q] is whatever the model put under ["query"]. *)
Fixpoint any_in (bs : list string) (q : json) : result bool :=
  match bs with
  | [] => Return false
  | b :: bs' =>
      match str_in b q with
      | Return true => Return true
      | Return false => any_in bs' q
      | Raise e => Raise e
      end
  end.

(** A value inside an f-string. *)
Definition fmt (v : json) : string :=
  match v with
  | JStr s => s
  | JNull => "None"
  | _ => py_repr env v
  end.

Definition _dispatch_tool (req : dict) : M env json :=
  let tool := dict_get "tool" JNull req in
  let args := dict_get "args" (JObj []) req in
  _ <- (if json_eq_str tool "cypher" then
          q <- lift (attr_get args "query" (JStr "")) ;;
          unsafe <- lift (any_in bad q) ;;
          if unsafe then
            shown <- lift (slice_to 120 q) ;;
            raise (HTTPException 400
                     ("Rejected unsafe/unknown Cypher: " ++ fmt shown))
          else ret tt
        else ret tt) ;;
  if json_eq_str tool "neighbors" then _kg_post "/neighbors" (Body_json args)
  else if json_eq_str tool "propose_claim" then
    _kg_post "/propose_claim" (Body_json args)
  else if json_eq_str tool "cypher" then _kg_post "/cypher" (Body_json args)
  else raise (HTTPException 400 ("Unknown tool: " ++ fmt tool)).

Definition _maybe_route_neighbors (q : string) : M env (option dict) :=
  match _NEI_RE env q with
  | None => ret None
  | Some (ent, d) =>
      match py_int env d with
      | None => raise ValueError
      | Some n =>
          let depth := Z.max 1 (Z.min 2 n) in
          ret (Some [("tool", JStr "neighbors");
                     ("args", JObj [("id", JStr ent); ("depth", JInt depth);
                                    ("limit", JInt 50)])])
      end
  end.

Definition _maybe_route_add_claim (q : string) : M env (option dict) :=
  match _ADD_RE env q with
  | None => ret None
  | Some (subj, pred, obj, qual) =>
      match py_float env qual with
      | None => raise ValueError
      | Some quality =>
          fun st =>
            (Return (Some
               [("tool", JStr "propose_claim");
                ("args", JObj
                   [("subject_id", JStr subj);
                    ("predicate", JStr (upper pred));
                    ("object_kind", JStr "entity");
                    ("object_value", JStr obj);
                    ("model_conf", JFloat 0.9);
                    ("evidence", JArr [JObj
                       [("uri_or_blob_ref", JStr ("log://" ++ subj));
                        ("source_type", JStr "first_party_log");
                        ("quality_score", JFloat quality)]]);
                    ("provenance", JObj
                       [("who", JStr "gateway");
                        ("when", JFloat (time_time env (world st)))])])]),
             st)
      end
  end.

(** *** Endpoints *)

(** [POST /propose_claim]: the policy gate. *)
Definition propose_claim (claim : ClaimIn) : M env GateOut :=
  let trust := _trust_score claim in
  let min_qual_ok :=
    if nonempty (evidence claim)
    then forallb (fun e => ge (score e) MIN_QUAL) (evidence claim)
    else false in
  conflict <- _has_conflicts claim ;;
  let no_conflict := negb conflict in
  let auto_merge :=
    bool_decide (predicate claim ∈ AUTO_MERGE_PREDICATES)
    && String.eqb (object_kind claim) "entity"
    && ge trust AUTO_TRUST
    && min_qual_ok
    && no_conflict in
  let status := if auto_merge then "approved" else "pending" in
  created <- _kg_post "/propose_claim" (Body_claim claim status) ;;
  _ <- (if String.eqb status "approved" then
          try_except
            (claim_node <- lift (subscript created "claim") ;;
             cid <- lift (subscript claim_node "id") ;;
             _ <- _kg_post "/approve" (Body_json (JObj [("claim_id", cid)])) ;;
             ret tt)
            (ret tt)
        else ret tt) ;;
  ret {| gate_ok := true;
         decision := if auto_merge then "T1-auto-merge" else "T2-review";
         trust := trust;
         min_quality_ok := min_qual_ok;
         no_conflict := no_conflict;
         kg := created |}.

(** [obj["final"].get("answer", "")] *)
Definition final_answer (obj : dict) : M env json :=
  final <- lift (subscript (JObj obj) "final") ;;
  lift (attr_get final "answer" (JStr "")).

(** The [for] loop of [query]: [n] iterations are left. *)
Fixpoint query_loop (n : nat) (messages : list message)
    (trace : list trace_entry) : M env QueryOut :=
  match n with
  | O => ret {| query_ok := true; answer := JStr "(stopped: max_steps)";
                trace := trace; data := None |}
  | S n' =>
      assistant_text <- _call_llm messages ;;
      let trace := (trace ++ [Assistant assistant_text])%list in
      let obj := _extract_json assistant_text in
      if dict_has "final" obj then
        a <- final_answer obj ;;
        ret {| query_ok := true; answer := a; trace := trace; data := None |}
      else
        result <- _dispatch_tool obj ;;
        query_loop n'
          (messages ++ [("assistant", assistant_text);
                        ("tool", json_dumps env result)])%list
          (trace ++ [ToolResult result])%list
  end.

(** [POST /query] *)
Definition query (body : QueryIn) : M env QueryOut :=
  let messages := [("system", SYSTEM_PROMPT env); ("user", question body)] in
  routed_add <- _maybe_route_add_claim (question body) ;;
  match routed_add with
  | Some routed =>
      result <- _dispatch_tool routed ;;
      ret {| query_ok := true; answer := JStr "";
             trace := [Assistant (json_dumps env (JObj routed));
                       ToolResult result];
             data := None |}
  | None =>
      routed <- _maybe_route_neighbors (question body) ;;
      match routed with
      | Some routed =>
          result <- _dispatch_tool routed ;;
          let trace := [Assistant (json_dumps env (JObj routed));
                        ToolResult result] in
          let messages :=
            (messages ++ [("assistant", json_dumps env (JObj routed));
                          ("tool", json_dumps env result)])%list in
          assistant_text <- _call_llm messages ;;
          let trace := (trace ++ [Assistant assistant_text])%list in
          let obj := _extract_json assistant_text in
          if dict_has "final" obj then
            a <- final_answer obj ;;
            ret {| query_ok := true; answer := a; trace := trace;
                   data := None |}
          else
            ret {| query_ok := true; answer := JStr ""; trace := trace;
                   data := Some result |}
      | None =>
          query_loop (Z.to_nat (Z.max 1 (max_steps body))) messages []
      end
  end.

End Handlers.

End Gateway.

(** ** services/kg-api *)
Module KgApi.
Import Py Models.

(** *** Models *)

(** [class ClaimProposal(BaseModel)]: the fields of [ClaimIn] and
    [status], whose default is ["pending"]. *)
Record ClaimProposal : Type := {
  claim :> ClaimIn;
  status : option string
}.

Record CypherBody : Type := { query : string; params : dict }.
Record NeighborsBody : Type := { id : string; depth : Z; limit : Z }.
Record ClaimIdBody : Type := { claim_id : string }.

(** *** The two stores *)

(** A [Claim] node with its properties. The properties [who], [when], ...
    are kept as the proposal's provenance; the time stamps the store adds
    ([created_at], and [when] of a claim without provenance) are left out. *)
Record ClaimNode : Type := {
  c_id : string;
  c_subject_id : string;
  c_predicate : string;
  c_object_kind : string;
  c_object_value : string;
  c_status : option string;
  c_model_conf : option float;
  c_human_conf : option float;
  c_context_hash : option string;
  c_provenance : option Provenance
}.

Record EvidenceNode : Type := {
  ev_id : string;
  ev_props : Evidence
}.

(** A relationship between two [Entity] nodes, named by their ids. *)
Record Edge : Type := {
  src : string;
  rel_type : string;
  dst : string
}.

#[global] Instance Edge_eq_dec : EqDecision Edge.
Proof. solve_decision. Defined.

(** The process state of the service and the content of Neo4j and Postgres.
    The unique-id constraints of [_on_start] make [Entity], [Claim] and
    [Evidence] nodes maps from ids; relationships are a list, since the same
    pair of nodes can be related more than once. [drawn] counts the values
    [apoc.create.uuid()] has produced. *)
Record State : Type := {
  driver : bool;
  pg_conn : bool;
  entities : gset string;
  claims : gmap string ClaimNode;
  evidences : gmap string EvidenceNode;
  supports : list (string * string);
  edges : list Edge;
  pg_evidence : list Evidence;
  drawn : nat
}.

Definition set_entities (f : gset string -> gset string) (st : State) : State :=
  {| driver := driver st; pg_conn := pg_conn st; entities := f (entities st);
     claims := claims st; evidences := evidences st; supports := supports st;
     edges := edges st; pg_evidence := pg_evidence st; drawn := drawn st |}.

Definition set_claims (f : gmap string ClaimNode -> gmap string ClaimNode)
    (st : State) : State :=
  {| driver := driver st; pg_conn := pg_conn st; entities := entities st;
     claims := f (claims st); evidences := evidences st; supports := supports st;
     edges := edges st; pg_evidence := pg_evidence st; drawn := drawn st |}.

Definition set_evidences
    (f : gmap string EvidenceNode -> gmap string EvidenceNode)
    (st : State) : State :=
  {| driver := driver st; pg_conn := pg_conn st; entities := entities st;
     claims := claims st; evidences := f (evidences st); supports := supports st;
     edges := edges st; pg_evidence := pg_evidence st; drawn := drawn st |}.

Definition set_supports (f : list (string * string) -> list (string * string))
    (st : State) : State :=
  {| driver := driver st; pg_conn := pg_conn st; entities := entities st;
     claims := claims st; evidences := evidences st; supports := f (supports st);
     edges := edges st; pg_evidence := pg_evidence st; drawn := drawn st |}.

Definition set_edges (f : list Edge -> list Edge) (st : State) : State :=
  {| driver := driver st; pg_conn := pg_conn st; entities := entities st;
     claims := claims st; evidences := evidences st; supports := supports st;
     edges := f (edges st); pg_evidence := pg_evidence st; drawn := drawn st |}.

Definition set_pg_evidence (f : list Evidence -> list Evidence)
    (st : State) : State :=
  {| driver := driver st; pg_conn := pg_conn st; entities := entities st;
     claims := claims st; evidences := evidences st; supports := supports st;
     edges := edges st; pg_evidence := f (pg_evidence st); drawn := drawn st |}.

Definition set_drawn (n : nat) (st : State) : State :=
  {| driver := driver st; pg_conn := pg_conn st; entities := entities st;
     claims := claims st; evidences := evidences st; supports := supports st;
     edges := edges st; pg_evidence := pg_evidence st; drawn := n |}.

(** The nodes and relationships the claims are about are the same in two
    states. *)
Definition unchanged_graph (st st' : State) : Prop :=
  claims st' = claims st ∧ edges st' = edges st ∧ entities st' = entities st.

(** The service after [_on_start], with both stores empty. *)
Definition started : State :=
  {| driver := true; pg_conn := true; entities := ∅; claims := ∅;
     evidences := ∅; supports := []; edges := []; pg_evidence := [];
     drawn := 0 |}.

(** A statement or a transaction function: it changes the stores and may
    raise. *)
Definition Tx (A : Type) : Type := State -> result A * State.

Definition tx_bind {A B} (m : Tx A) (k : A -> Tx B) : Tx B :=
  fun st =>
    match m st with
    | (Return a, st') => k a st'
    | (Raise e, st') => (Raise e, st')
    end.

Notation "x <~ m ;; k" := (tx_bind m (fun x => k))
  (at level 100, m at next level, right associativity).

Definition tx_ret {A} (a : A) : Tx A := fun st => (Return a, st).
Definition tx_raise {A} (e : exn) : Tx A := fun st => (Raise e, st).
Definition tx_do (f : State -> State) : Tx unit := fun st => (Return tt, f st).

(** [session.execute_write(_tx)]: when [_tx] raises, what it did to the
    graph is undone; rows already written to Postgres and the ids drawn
    stay. *)
Definition execute_write {A} (tx : Tx A) : Tx A :=
  fun st =>
    match tx st with
    | (Return a, st') => (Return a, st')
    | (Raise e, st') =>
        (Raise e, set_drawn (drawn st')
                    (set_pg_evidence (fun _ => pg_evidence st') st))
    end.

Section Endpoints.
(** The values of [apoc.create.uuid()], in the order they are drawn. *)
Variable uuid : nat -> string.
(** [Session.run(query, **params).data()] for every statement other than
    the one of the gateway's conflict check. *)
Variable other_cypher : string -> dict -> Tx (list dict).

Definition apoc_create_uuid : Tx string :=
  fun st => (Return (uuid (drawn st)), set_drawn (S (drawn st)) st).

Definition not_initialized {A} : Tx A :=
  tx_raise (HTTPException 500 "Neo4j driver not initialized").

(** *** Helpers *)

Definition opt_field (k : string) (v : option json) : dict :=
  match v with Some j => [(k, j)] | None => [] end.

Definition prov_field {A} (f : Provenance -> option A) (c : ClaimNode)
    : option A :=
  c_provenance c ≫= f.

(** [_serialize_neo4j] on a [Claim] node: the properties that are set, the
    property [id] taking the place of the element id. *)
Definition _serialize_neo4j (c : ClaimNode) : json :=
  let prov {A} (f : Provenance -> option A) := prov_field f c in
  JObj ([("_type", JStr "node"); ("labels", JArr [JStr "Claim"]);
         ("id", JStr (c_id c));
         ("subject_id", JStr (c_subject_id c));
         ("predicate", JStr (c_predicate c));
         ("object_kind", JStr (c_object_kind c));
         ("object_value", JStr (c_object_value c))]
        ++ opt_field "status" (JStr <$> c_status c)
        ++ opt_field "model_conf" (JFloat <$> c_model_conf c)
        ++ opt_field "human_conf" (JFloat <$> c_human_conf c)
        ++ opt_field "context_hash" (JStr <$> c_context_hash c)
        ++ opt_field "who" (JStr <$> prov who)
        ++ opt_field "when" (JFloat <$> prov when_)
        ++ opt_field "prompt_hash" (JStr <$> prov prompt_hash)
        ++ opt_field "model_version" (JStr <$> prov model_version)
        ++ opt_field "git_sha" (JStr <$> prov git_sha)
        ++ opt_field "image_digest" (JStr <$> prov image_digest)
        ++ opt_field "run_id" (JStr <$> prov run_id)
        ++ opt_field "dataset_uri" (JStr <$> prov dataset_uri)
        ++ opt_field "sensor_id" (JStr <$> prov sensor_id)
        ++ opt_field "frame_ts" (JFloat <$> prov frame_ts))%list.

(** [MERGE (e:Entity {id:$id})] *)
Definition _ensure_entity (entity_id : string) : Tx unit :=
  tx_do (set_entities (fun es => {[ entity_id ]} ∪ es)).

Definition _write_evidence_pg (e : Evidence) : Tx unit :=
  fun st =>
    if pg_conn st
    then (Return tt, set_pg_evidence (fun rows => rows ++ [e])%list st)
    else (Return tt, st).

(** [CREATE (c:Claim {id: apoc.create.uuid(), ...}) RETURN c]; the
    constraint on [Claim] ids refuses an id that is in use. *)
Definition create_claim (p : ClaimProposal) : Tx ClaimNode :=
  cid <~ apoc_create_uuid ;;
  fun st =>
    match claims st !! cid with
    | Some _ => (Raise Neo4jError, st)
    | None =>
        let c := {| c_id := cid;
                    c_subject_id := subject_id p;
                    c_predicate := predicate p;
                    c_object_kind := object_kind p;
                    c_object_value := object_value p;
                    c_status := status p;
                    c_model_conf := model_conf p;
                    c_human_conf := human_conf p;
                    c_context_hash := context_hash p;
                    c_provenance := provenance p |} in
        (Return c, set_claims (insert cid c) st)
    end.

(** [CREATE (ev:Evidence {id: apoc.create.uuid(), ...}) WITH ev
     MATCH (c:Claim {id:$cid}) CREATE (c)-[:SUPPORTS]->(ev)] *)
Definition create_evidence (cid : string) (e : Evidence) : Tx unit :=
  eid <~ apoc_create_uuid ;;
  fun st =>
    match evidences st !! eid with
    | Some _ => (Raise Neo4jError, st)
    | None =>
        let st1 :=
          set_evidences (insert eid {| ev_id := eid; ev_props := e |}) st in
        (Return tt,
         match claims st !! cid with
         | Some _ => set_supports (fun l => l ++ [(cid, eid)])%list st1
         | None => st1
         end)
    end.

(** [for e in claim.evidence: ...] *)
Fixpoint link_evidence (cid : string) (es : list Evidence) : Tx unit :=
  match es with
  | [] => tx_ret tt
  | e :: es' =>
      _ <~ create_evidence cid e ;;
      _ <~ _write_evidence_pg e ;;
      link_evidence cid es'
  end.

Definition approved (c : ClaimNode) : ClaimNode :=
  {| c_id := c_id c; c_subject_id := c_subject_id c;
     c_predicate := c_predicate c; c_object_kind := c_object_kind c;
     c_object_value := c_object_value c; c_status := Some "approved";
     c_model_conf := c_model_conf c; c_human_conf := c_human_conf c;
     c_context_hash := c_context_hash c; c_provenance := c_provenance c |}.

Definition rejected (c : ClaimNode) : ClaimNode :=
  {| c_id := c_id c; c_subject_id := c_subject_id c;
     c_predicate := c_predicate c; c_object_kind := c_object_kind c;
     c_object_value := c_object_value c; c_status := Some "rejected";
     c_model_conf := c_model_conf c; c_human_conf := c_human_conf c;
     c_context_hash := c_context_hash c; c_provenance := c_provenance c |}.

(** [MATCH (c:Claim {id:$cid}) MATCH (s:Entity {id:$s}) MATCH (o:Entity {id:$o})
     CALL apoc.create.relationship(s, $pred, {}, o) YIELD rel
     SET c.status='approved']: when the three nodes are there, one more
    relationship is created and the claim is marked. *)
Definition materialize (cid s pred o : string) : Tx unit :=
  fun st =>
    match claims st !! cid with
    | Some c =>
        if bool_decide (s ∈ entities st) && bool_decide (o ∈ entities st)
        then (Return tt,
              set_claims (insert cid (approved c))
                (set_edges
                   (fun l => l ++ [{| src := s; rel_type := pred; dst := o |}])%list
                   st))
        else (Return tt, st)
    | None => (Return tt, st)
    end.

(** [MATCH (c:Claim {id:$id}) SET c.status = ...] *)
Definition set_status (cid : string) (f : ClaimNode -> ClaimNode) : Tx unit :=
  tx_do (set_claims (fun cs =>
           match cs !! cid with
           | Some c => <[cid := f c]> cs
           | None => cs
           end)).

Definition is_str (o : option string) (s : string) : bool :=
  match o with Some t => String.eqb t s | None => false end.

(** The answer of Neo4j to the query of the conflict check:
    [MATCH (s:Entity {id:$sid})-[r]->(o) WHERE type(r) = $pred
     RETURN collect(distinct o.id) AS objs], always one row. *)
Definition targets (sid pred : string) (st : State) : list string :=
  if bool_decide (sid ∈ entities st)
  then remove_dups
         (dst <$> filter (fun e => src e = sid ∧ rel_type e = pred) (edges st))
  else [].

Definition conflict_rows (ps : dict) : Tx (list dict) :=
  fun st =>
    match dict_lookup "sid" ps, dict_lookup "pred" ps with
    | Some sid, Some pred =>
        let objs :=
          match sid, pred with
          | JStr s, JStr p => targets s p st
          | _, _ => []
          end in
        (Return [[("objs", JArr (JStr <$> objs))]], st)
    | _, _ => (Raise Neo4jError, st)
    end.

(** [s.run(body.query, **body.params).data()] *)
Definition session_run (q : string) (ps : dict) : Tx (list dict) :=
  if String.eqb q Gateway.conflict_query then conflict_rows ps
  else other_cypher q ps.

(** *** Endpoints *)

Definition cypher (body : CypherBody) : Tx json :=
  fun st =>
    if negb (driver st) then not_initialized st
    else (data <~ session_run (query body) (params body) ;;
          tx_ret (JObj [("records", JArr (JObj <$> data))])) st.

Definition neighbors (body : NeighborsBody) : Tx json :=
  if negb (bool_decide (depth body = 1%Z ∨ depth body = 2%Z))
  then tx_raise (HTTPException 400 "depth must be 1 or 2")
  else
    let q := "
    MATCH (n:Entity {id:$id})
    CALL {
      WITH n
      MATCH p=(n)-[r*1.." ++ (if bool_decide (depth body = 1%Z) then "1" else "2")
      ++ "]-(m)
      RETURN p LIMIT $limit
    }
    RETURN p
    " in
    cypher {| query := q;
              params := [("id", JStr (id body)); ("limit", JInt (limit body))] |}.

Definition propose_claim (claim : ClaimProposal) : Tx json :=
  fun st =>
    if negb (driver st) then not_initialized st
    else
      (created <~ execute_write
         (_ <~ _ensure_entity (subject_id claim) ;;
          _ <~ (if String.eqb (object_kind claim) "entity"
                then _ensure_entity (object_value claim) else tx_ret tt) ;;
          c <~ create_claim claim ;;
          _ <~ link_evidence (c_id c) (evidence claim) ;;
          _ <~ (if is_str (status claim) "approved"
                   && String.eqb (object_kind claim) "entity"
                then materialize (c_id c) (subject_id claim) (predicate claim)
                       (object_value claim)
                else tx_ret tt) ;;
          tx_ret c) ;;
       tx_ret (JObj [("ok", JBool true); ("claim", _serialize_neo4j created)]))
        st.

Definition approve (body : ClaimIdBody) : Tx json :=
  fun st =>
    if negb (driver st) then not_initialized st
    else
      (_ <~ execute_write
         (fun st =>
            match claims st !! claim_id body with
            | None => (Raise (HTTPException 404 "Claim not found"), st)
            | Some c =>
                if String.eqb (c_object_kind c) "entity"
                then materialize (claim_id body) (c_subject_id c)
                       (c_predicate c) (c_object_value c) st
                else set_status (claim_id body) approved st
            end) ;;
       tx_ret (JObj [("ok", JBool true)])) st.

Definition reject (body : ClaimIdBody) : Tx json :=
  fun st =>
    if negb (driver st) then not_initialized st
    else
      (_ <~ set_status (claim_id body) rejected ;;
       tx_ret (JObj [("ok", JBool true)])) st.

Definition gaps (limit : Z) : Tx json :=
  cypher {| query := "
    MATCH (e:Entity)
    WHERE NOT (e)--()
    RETURN e LIMIT $limit
    ";
            params := [("limit", JInt limit)] |}.

(** *** Sequences of ledger operations *)
Inductive op : Type :=
| Propose (claim : ClaimProposal)
| Approve (body : ClaimIdBody)
| Reject (body : ClaimIdBody).

Definition handle (o : op) : Tx json :=
  match o with
  | Propose claim => propose_claim claim
  | Approve body => approve body
  | Reject body => reject body
  end.

Definition step (st : State) (o : op) : State := snd (handle o st).

Definition run (ops : list op) (st : State) : State := fold_left step ops st.

End Endpoints.

End KgApi.

(** ** The gateway in front of the KG-API *)
Module Deployment.
Import Py Models.

Section Wiring.
Variable uuid : nat -> string.
Variable other_cypher : string -> dict -> KgApi.Tx (list dict).
(** The text of a JSON response body. *)
Variable dumps : json -> string.

(** What FastAPI answers for a handler's outcome. *)
Definition respond (r : result json) : Gateway.http_reply :=
  match r with
  | Return j => Gateway.Response 200 (dumps j) (Some j)
  | Raise (HTTPException code detail) =>
      let j := JObj [("detail", JStr detail)] in
      Gateway.Response code (dumps j) (Some j)
  | Raise _ => Gateway.Response 500 "Internal Server Error" None
  end.

Definition unprocessable : Gateway.http_reply :=
  Gateway.Response 422 "Unprocessable Entity" None.

(** Request bodies as the pydantic models of the KG-API read them. The
    gate's claim payload has the fields of [ClaimProposal]; a raw dict on
    [/propose_claim] is not read here. *)
Definition as_cypher_body (b : Gateway.kg_body) : option KgApi.CypherBody :=
  match b with
  | Gateway.Body_json (JObj d) =>
      match dict_lookup "query" d, dict_lookup "params" d with
      | Some (JStr q), Some (JObj ps) =>
          Some {| KgApi.query := q; KgApi.params := ps |}
      | Some (JStr q), None => Some {| KgApi.query := q; KgApi.params := [] |}
      | _, _ => None
      end
  | _ => None
  end.

Definition as_claim_proposal (b : Gateway.kg_body)
    : option KgApi.ClaimProposal :=
  match b with
  | Gateway.Body_claim c st =>
      Some {| KgApi.claim := c; KgApi.status := Some st |}
  | _ => None
  end.

Definition as_claim_id (b : Gateway.kg_body) : option KgApi.ClaimIdBody :=
  match b with
  | Gateway.Body_json (JObj d) =>
      match dict_lookup "claim_id" d with
      | Some (JStr cid) => Some {| KgApi.claim_id := cid |}
      | _ => None
      end
  | _ => None
  end.

Definition as_neighbors_body (b : Gateway.kg_body)
    : option KgApi.NeighborsBody :=
  match b with
  | Gateway.Body_json (JObj d) =>
      match dict_lookup "id" d, dict_get "depth" (JInt 1) d,
            dict_get "limit" (JInt 50) d with
      | Some (JStr i), JInt dp, JInt l =>
          Some {| KgApi.id := i; KgApi.depth := dp; KgApi.limit := l |}
      | _, _, _ => None
      end
  | _ => None
  end.

Definition serve {B} (body : option B) (handler : B -> KgApi.Tx json)
    (st : KgApi.State) : Gateway.http_reply * KgApi.State :=
  match body with
  | Some b => let '(r, st') := handler b st in (respond r, st')
  | None => (unprocessable, st)
  end.

(** [POST KG_API_URL + path] over a link that always delivers. *)
Definition kg_api (path : string) (body : Gateway.kg_body)
    (st : KgApi.State) : Gateway.http_reply * KgApi.State :=
  if String.eqb path "/cypher" then
    serve (as_cypher_body body) (KgApi.cypher other_cypher) st
  else if String.eqb path "/propose_claim" then
    serve (as_claim_proposal body) (KgApi.propose_claim uuid) st
  else if String.eqb path "/approve" then
    serve (as_claim_id body) KgApi.approve st
  else if String.eqb path "/neighbors" then
    serve (as_neighbors_body body) (KgApi.neighbors other_cypher) st
  else (Gateway.Response 404 "Not Found" None, st).

(** The gateway's collaborators in this deployment. Only the policy gate is
    exercised: no language model is attached. *)
Definition env : Gateway.Env :=
  {| Gateway.World := KgApi.State;
     Gateway.kg_reply := kg_api;
     Gateway.llm_reply := fun _ st => (Raise TransportError, st);
     Gateway.time_time := fun _ => 0%float;
     Gateway.json_loads := fun _ => None;
     Gateway.json_dumps := dumps;
     Gateway._ADD_RE := fun _ => None;
     Gateway._NEI_RE := fun _ => None;
     Gateway.py_float := fun _ => None;
     Gateway.py_int := fun _ => None;
     Gateway.py_repr := dumps;
     Gateway.SYSTEM_PROMPT := "" |}.

(** A request to the gateway arriving when the stores are in state [st]. *)
Definition arriving (st : KgApi.State) : Gateway.state env :=
  Gateway.Build_state env st [].

End Wiring.

End Deployment.

(** ** The properties as the specification words them *)
Module Spec.
Import Py Models.
Local Open Scope float_scope.

(** Two floats that are the same number: the same value, or equal under
    [==] (which identifies the two zeros). *)
Definition same_number (a b : float) : Prop := a = b ∨ (a =? b) = true.

(** [x] is a number (not NaN). *)
Definition is_number (x : float) : Prop := (x =? x) = true.

(** A score, "defaulting to 0 when absent". *)
Definition quality (e : Evidence) : float := default 0 (quality_score e).

(** "qual is the maximum quality_score over the evidence list (0 for an
    empty list)": [q] is the quality of an item and no item has a greater
    one; when all qualities are numbers, every one is at most [q]. *)
Definition max_quality (ev : list Evidence) (q : float) : Prop :=
  match ev with
  | [] => q = 0
  | _ =>
      (∃ e, e ∈ ev ∧ same_number q (quality e))
      ∧ (∀ e, e ∈ ev → (q <? quality e) = false)
      ∧ ((∀ e, e ∈ ev → is_number (quality e)) →
         ∀ e, e ∈ ev → (quality e <=? q) = true)
  end.

(** "the evidence list is non-empty and every item's source_type is in the
    first-party provenance class" *)
Definition all_first_party (ev : list Evidence) : Prop :=
  ev ≠ [] ∧ ∀ e, e ∈ ev → source_type e ∈ Gateway.FIRST_PARTY.

(** [clamp(x, lo, hi)] *)
Definition clamp (x lo hi : float) : float :=
  if x <? lo then lo else if hi <? x then hi else x.

(** "evidence is non-empty and every item's quality_score (default 0 if
    absent) meets a configured minimum" *)
Definition min_qual_ok (MIN_QUAL : float) (ev : list Evidence) : Prop :=
  ev ≠ [] ∧ ∀ e, e ∈ ev → (MIN_QUAL <=? quality e) = true.

(** "predicate ∈ configured auto-merge predicate set AND object_kind =
    entity AND trust ≥ configured trust threshold AND min_qual_ok AND
    no_conflict" *)
Definition auto_merge (AUTO_TRUST MIN_QUAL : float) (claim : ClaimIn)
    (trust : float) (conflict : bool) : Prop :=
  predicate claim ∈ Gateway.AUTO_MERGE_PREDICATES
  ∧ object_kind claim = "entity"
  ∧ (AUTO_TRUST <=? trust) = true
  ∧ min_qual_ok MIN_QUAL (evidence claim)
  ∧ conflict = false.

(** The graph-store query failed: the store gave no response, answered with
    an error status (as it does for a query it cannot run), or sent a body
    that is not JSON. *)
Definition query_failed (rep : Gateway.http_reply) : Prop :=
  match rep with
  | Gateway.ConnectError => True
  | Gateway.Response code _ body => (400 <= code)%Z ∨ body = None
  end.

(** What a [for] loop can run over: a list, a string or a dict. *)
Definition iterable (v : json) : Prop :=
  match v with
  | JArr _ | JStr _ | JObj _ => True
  | _ => False
  end.

(** A decoded answer from which the detector cannot read the objects: it is
    not an object; its ["records"] are there but are not a non-empty list;
    the first record is a non-empty value that is not an object; or, for an
    entity claim, the ["objs"] of the first record cannot be iterated. An
    answer without ["records"], or with an empty or null first record, or
    with a first record without ["objs"], is read as "no objects". *)
Definition unreadable_answer (claim : ClaimIn) (res : json) : Prop :=
  match res with
  | JObj d =>
      match dict_lookup "records" d with
      | None => False
      | Some (JArr (first :: _)) =>
          match first with
          | JObj r =>
              match dict_lookup "objs" r with
              | Some objs => object_kind claim = "entity" ∧ ¬ iterable objs
              | None => False
              end
          | _ => json_truthy first = true
          end
      | Some _ => True
      end
  | _ => True
  end.

(** The conflict check failed: the query failed, or its answer cannot be
    read. *)
Definition check_failed (claim : ClaimIn) (rep : Gateway.http_reply) : Prop :=
  query_failed rep
  ∨ ∃ code text res,
      rep = Gateway.Response code text (Some res) ∧ unreadable_answer claim res.

(** "an object currently reachable from the subject via an edge whose type
    equals the predicate" *)
Definition reachable (st : KgApi.State) (subject pred obj : string) : Prop :=
  subject ∈ KgApi.entities st
  ∧ ∃ e, e ∈ KgApi.edges st
         ∧ KgApi.src e = subject ∧ KgApi.rel_type e = pred ∧ KgApi.dst e = obj.

(** A claim of the ledger for the edge [e]. *)
Definition claim_of_edge (e : KgApi.Edge) (c : KgApi.ClaimNode) : Prop :=
  KgApi.c_subject_id c = KgApi.src e
  ∧ KgApi.c_predicate c = KgApi.rel_type e
  ∧ KgApi.c_object_value c = KgApi.dst e
  ∧ KgApi.c_object_kind c = "entity".

(** "every materialized edge has a corresponding Claim with status
    'approved'" *)
Definition edges_have_approved_claims (st : KgApi.State) : Prop :=
  ∀ e, e ∈ KgApi.edges st →
    ∃ cid c, KgApi.claims st !! cid = Some c
             ∧ claim_of_edge e c ∧ KgApi.c_status c = Some "approved".

(** The same with the rejections of the history [ops] taken into account:
    the claim of an edge is approved, or it was rejected by an operation of
    [ops]. *)
Definition edges_have_claims (ops : list KgApi.op) (st : KgApi.State) : Prop :=
  ∀ e, e ∈ KgApi.edges st →
    ∃ cid c, KgApi.claims st !! cid = Some c
             ∧ claim_of_edge e c
             ∧ (KgApi.c_status c = Some "approved"
                ∨ KgApi.c_status c = Some "rejected"
                  ∧ KgApi.Reject {| KgApi.claim_id := cid |} ∈ ops).

(** The number of edges (subject)-[predicate]->(object). *)
Definition edge_count (st : KgApi.State) (subject pred obj : string) : nat :=
  length (filter (fun e => e = {| KgApi.src := subject; KgApi.rel_type := pred;
                                  KgApi.dst := obj |})
            (KgApi.edges st)).

(** [b] occurs in [q]. *)
Definition occurs_in (b q : string) : Prop :=
  ∃ pre post, q = (pre ++ b ++ post)%string.





(** What [re.search(r"\{.*\}", s, re.DOTALL)] matches: [m] runs from the
    first opening brace of [s] to the last closing brace after it. *)
Definition brace_span (s m : string) : Prop :=
  ∃ pre mid post,
    s = (pre ++ "{" ++ mid ++ "}" ++ post)%string
    ∧ m = ("{" ++ mid ++ "}")%string
    ∧ ¬ occurs_in "{" pre ∧ ¬ occurs_in "}" post.







(** The POSTs to [path] among [cs]. *)
Definition posts_to (path : string) (cs : list Gateway.call)
    : list Gateway.kg_body :=
  omap (fun c => match c with
                 | Gateway.KgPost p b => if String.eqb p path then Some b else None
                 | _ => None
                 end) cs.

End Spec.

(** ** Concrete requests and collaborators, for the examples *)
Module Examples.
Import Py Models.

(** Ids ["id-0"], ["id-1"], ... *)
Definition uuid (n : nat) : string :=
  "id-" ++ NilEmpty.string_of_uint (Nat.to_uint n).

(** A store that runs no statement but the ones modelled. *)
Definition no_cypher : string -> dict -> KgApi.Tx (list dict) :=
  fun _ _ st => (Raise Neo4jError, st).

Definition dumps : json -> string := fun _ => "<json>".

Definition log_evidence (q : float) : Evidence :=
  {| uri_or_blob_ref := "log://Run:demo"; snippet := None; hash := None;
     source_type := "first_party_log"; quality_score := Some q;
     timestamp := None |}.

(** The end-to-end proposal of the specification. *)
Definition demo_claim : ClaimIn :=
  {| subject_id := "Run:demo"; predicate := "USES"; object_kind := "entity";
     object_value := "Model:v2"; model_conf := Some 0.9%float;
     human_conf := None; context_hash := None;
     evidence := [log_evidence 0.95]; provenance := None |}.

Definition literal_claim : ClaimIn :=
  {| subject_id := "Run:demo"; predicate := "USES"; object_kind := "literal";
     object_value := "some text"; model_conf := None;
     human_conf := None; context_hash := None;
     evidence := []; provenance := None |}.

Definition demo_edge : KgApi.Edge :=
  {| KgApi.src := "Run:demo"; KgApi.rel_type := "USES";
     KgApi.dst := "Model:v2" |}.

Definition proposal (status : string) : KgApi.ClaimProposal :=
  {| KgApi.claim := demo_claim; KgApi.status := Some status |}.

(** The gateway in front of the KG-API of the examples. *)
Definition deployed : Gateway.Env := Deployment.env uuid no_cypher dumps.

(** A gateway with a model that always answers [text], a [json.loads] given
    by a table, and a KG-API that answers every POST with [reply]. *)
Definition scripted (text : string) (loads : list (string * dict))
    (reply : Gateway.http_reply) : Gateway.Env :=
  {| Gateway.World := unit;
     Gateway.kg_reply := fun _ _ w => (reply, w);
     Gateway.llm_reply := fun _ w => (Return text, w);
     Gateway.time_time := fun _ => 0%float;
     Gateway.json_loads := fun s =>
       snd <$> List.find (fun kv => String.eqb (fst kv) s) loads;
     Gateway.json_dumps := dumps;
     Gateway._ADD_RE := fun _ => None;
     Gateway._NEI_RE := fun _ => None;
     Gateway.py_float := fun _ => None;
     Gateway.py_int := fun _ => None;
     Gateway.py_repr := dumps;
     Gateway.SYSTEM_PROMPT := "You are a tool-using assistant." |}.

(** The KG-API cannot be reached. *)
Definition unreachable : Gateway.Env :=
  scripted "" [] Gateway.ConnectError.

(** JSON texts need the double quote character. *)
Definition dq : string := String (ascii_of_nat 34) EmptyString.
Definition quoted (s : string) : string := dq ++ s ++ dq.

(** The text [{"tool": "cypher", "args": {"query": "MATCH (n) DETACH DELETE n"}}]
    and what [json.loads] makes of it. *)
Definition delete_call_text : string :=
  "{" ++ quoted "tool" ++ ": " ++ quoted "cypher" ++ ", " ++ quoted "args"
  ++ ": {" ++ quoted "query" ++ ": " ++ quoted "MATCH (n) DETACH DELETE n"
  ++ "}}".
Definition delete_call : dict :=
  [("tool", JStr "cypher");
   ("args", JObj [("query", JStr "MATCH (n) DETACH DELETE n")])].

(** The same call with the keywords in lower case. *)
Definition lower_delete_call_text : string :=
  "{" ++ quoted "tool" ++ ": " ++ quoted "cypher" ++ ", " ++ quoted "args"
  ++ ": {" ++ quoted "query" ++ ": " ++ quoted "match (n) detach delete n"
  ++ "}}".
Definition lower_delete_call : dict :=
  [("tool", JStr "cypher");
   ("args", JObj [("query", JStr "match (n) detach delete n")])].



(** A KG-API that answers every POST with an empty list of records. *)
Definition no_records : Gateway.http_reply :=
  Gateway.Response 200 "<json>" (Some (JObj [("records", JArr [])])).

Definition fresh (env : Gateway.Env) (w : Gateway.World env)
    : Gateway.state env :=
  Gateway.Build_state env w [].

(** A proposal whose evidence has an infinite quality score and whose model
    confidence is minus infinity. *)
Definition opposite_infinities : ClaimIn :=
  {| subject_id := "Run:demo"; predicate := "USES"; object_kind := "entity";
     object_value := "Model:v2"; model_conf := Some neg_infinity;
     human_conf := None; context_hash := None;
     evidence := [log_evidence infinity]; provenance := None |}.

(** A KG-API that answers every POST with [{}], and one that answers with
    [{"records": [null]}]. *)
Definition empty_object : Gateway.http_reply :=
  Gateway.Response 200 "<json>" (Some (JObj [])).
Definition null_record : Gateway.http_reply :=
  Gateway.Response 200 "<json>" (Some (JObj [("records", JArr [JNull])])).

End Examples.

(** ** Invariants of the claim ledger *)
Module Invariants.
Import Py Models.
Import KgApi.
(** Two claim nodes that differ in their status at most. *)
Definition same_claim (c c' : ClaimNode) : Prop :=
  c_id c' = c_id c
  ∧ c_subject_id c' = c_subject_id c
  ∧ c_predicate c' = c_predicate c
  ∧ c_object_kind c' = c_object_kind c
  ∧ c_object_value c' = c_object_value c
  ∧ c_model_conf c' = c_model_conf c
  ∧ c_human_conf c' = c_human_conf c
  ∧ c_context_hash c' = c_context_hash c
  ∧ c_provenance c' = c_provenance c.

(** The claims are filed under their ids, and the entities they name are in
    the graph. *)
Definition well_formed (st : State) : Prop :=
  driver st = true
  ∧ ∀ cid c, claims st !! cid = Some c →
      c_id c = cid
      ∧ c_subject_id c ∈ entities st
      ∧ (c_object_kind c = "entity" → c_object_value c ∈ entities st).

(** Nothing is taken away between two states of the stores: the process
    state is the same, entities, evidence nodes, support links, edges and
    Postgres rows are only added, ids are only drawn, and every claim is
    still there, changed in its status at most. *)
Definition grows (st st' : State) : Prop :=
  driver st' = driver st ∧ pg_conn st' = pg_conn st
  ∧ entities st ⊆ entities st'
  ∧ evidences st ⊆ evidences st'
  ∧ supports st `prefix_of` supports st'
  ∧ edges st `prefix_of` edges st'
  ∧ pg_evidence st `prefix_of` pg_evidence st'
  ∧ (drawn st ≤ drawn st')%nat
  ∧ ∀ cid c, claims st !! cid = Some c →
      ∃ c', claims st' !! cid = Some c' ∧ same_claim c c'.

(** A statement that takes nothing away. *)
Definition keeps {A} (m : Tx A) : Prop :=
  ∀ st r st', m st = (r, st') → grows st st'.
End Invariants.

(** ** The remaining endpoints of gateway/app.py *)
Module GatewayCypher.
Import Py Models.
Import Gateway.

(** [class CypherBody(BaseModel)] of the gateway. *)
Record CypherBody : Type := { query : string; params : dict }.

(** [body.model_dump()] *)
Definition model_dump (body : CypherBody) : json :=
  JObj [("query", JStr (query body)); ("params", JObj (params body))].

Section Handlers.
Variable env : Env.

(** [POST /cypher]: "Pass-through helper to KG for ad-hoc queries". *)
Definition cypher (body : CypherBody) : M env json :=
  _kg_post env "/cypher" (Body_json (model_dump body)).

End Handlers.
End GatewayCypher.

(** ** The requests of the fast paths of [query] *)
Module Routes.
Import Py Models.
Import Gateway.
(** The request [_maybe_route_add_claim] builds from the groups of
    [_ADD_RE], the quality read as a float and the time. *)
Definition add_claim_args (subj pred obj : string) (quality now : float) : dict :=
  [("subject_id", JStr subj);
   ("predicate", JStr (upper pred));
   ("object_kind", JStr "entity");
   ("object_value", JStr obj);
   ("model_conf", JFloat 0.9);
   ("evidence", JArr [JObj [("uri_or_blob_ref", JStr ("log://" ++ subj));
                            ("source_type", JStr "first_party_log");
                            ("quality_score", JFloat quality)]]);
   ("provenance", JObj [("who", JStr "gateway"); ("when", JFloat now)])].

(** The request [_maybe_route_neighbors] builds. *)
Definition neighbors_args (ent : string) (depth : Z) : dict :=
  [("id", JStr ent); ("depth", JInt depth); ("limit", JInt 50)].
End Routes.

(** ** services/agent-gateway/gateway/auth.py *)
Module Auth.
Import Py Models.
Import Gateway.

Section Key.
(** [_GATEWAY_KEY = os.getenv("GATEWAY_API_KEY", "")] *)
Variable _GATEWAY_KEY : string.

(** [x_api_key != _GATEWAY_KEY] for an [x_api_key] that is a [str] or
    [None]. *)
Definition differs (x_api_key : option string) : bool :=
  match x_api_key with
  | Some k => negb (String.eqb k _GATEWAY_KEY)
  | None => true
  end.

Definition require_key (x_api_key : option string) : result unit :=
  if negb (String.eqb _GATEWAY_KEY "") && differs x_api_key
  then Raise (HTTPException 401 "invalid api key")
  else Return tt.

(** An endpoint declared with [_=Depends(require_key)]: the dependency is
    resolved before the handler runs. *)
Definition depends_require_key {env A} (x_api_key : option string)
    (handler : M env A) : M env A :=
  bind (lift (require_key x_api_key)) (fun _ => handler).

End Key.
End Auth.

(** ** scripts/kgctrl.py *)
Module Kgctl.
Import Py Models.

Section Cli.
(** [API_KEY = os.getenv("GATEWAY_API_KEY", "")] *)
Variable API_KEY : string.

(** [_h()]: the headers of a request. *)
Definition _h : list (string * string) :=
  if negb (String.eqb API_KEY "") then [("X-API-Key", API_KEY)] else [].

End Cli.

(** What FastAPI's [Header(default=None, alias="X-API-Key")] reads from the
    headers of a request. *)
Definition x_api_key (headers : list (string * string)) : option string :=
  snd <$> List.find (fun h => String.eqb (fst h) "X-API-Key") headers.

End Kgctl.

(** ** The [/health] endpoint of the gateway *)
Module Health.
Import Py Models.
Import Gateway.

Section Handlers.
Variable env : Env.
(** What [client.get(KG_API_URL + path)] yields. *)
Variable kg_get_reply : string -> World env -> http_reply * World env.
(** [str(e)] *)
Variable str : exn -> string.

(** [_kg_get]; the list of calls records POSTs and model calls only. *)
Definition _kg_get (path : string) : M env json :=
  fun st =>
    let '(rep, w) := kg_get_reply path (world st) in
    let st' := {| world := w; calls := calls st |} in
    match rep with
    | ConnectError => (Raise TransportError, st')
    | Response code text j =>
        if (400 <=? code)%Z then (Raise (HTTPException code text), st')
        else match j with
             | Some v => (Return v, st')
             | None => (Raise JSONDecodeError, st')
             end
    end.

Definition health : M env json :=
  fun st =>
    match _kg_get "/health" st with
    | (Return kg, st') => (Return (JObj [("ok", JBool true); ("kg_api", kg)]), st')
    | (Raise e, st') =>
        (Return (JObj [("ok", JBool true);
                       ("kg_api", JObj [("error", JStr (str e))])]), st')
    end.

End Handlers.
End Health.

(** ** services/scheduler/app.py *)
Module Scheduler.
Import Py Models.

(** Requests that leave the scheduler, in the order they are made. *)
Inductive call : Type :=
| GetGaps (limit : Z)
| PostClaim (payload : json).

(** The collaborators of the scheduler: the KG-API, the gateway, the clock
    and the library functions it relies on. *)
Record Env : Type := {
  World : Type;
  (** [client.get(KG_API_URL + "/gaps", params={"limit": 20})] *)
  gaps_reply : World -> Gateway.http_reply * World;
  (** [client.post(GATEWAY_URL + "/propose_claim", json=payload)]: whether
      a response came back, whatever its status *)
  gateway_reply : json -> World -> bool * World;
  (** which status codes [r.raise_for_status()] raises for *)
  is_error : Z -> bool;
  (** [time.time()] *)
  time_time : World -> float * World;
  (** [int(x)] for a float, and [str(n)] for an int *)
  py_int : float -> Z;
  py_str : Z -> string
}.

Record state (env : Env) : Type := {
  world : World env;
  calls : list call
}.
Arguments world {env} _.
Arguments calls {env} _.

Definition M (env : Env) (A : Type) : Type := state env -> result A * state env.

Definition ret {env A} (a : A) : M env A := fun st => (Return a, st).
Definition raise {env A} (e : exn) : M env A := fun st => (Raise e, st).
Definition bind {env A B} (m : M env A) (k : A -> M env B) : M env B :=
  fun st =>
    match m st with
    | (Return a, st') => k a st'
    | (Raise e, st') => (Raise e, st')
    end.
Definition lift {env A} (r : result A) : M env A := fun st => (r, st).

Notation "x <- m ;; k" := (bind m (fun x => k))
  (at level 100, m at next level, right associativity).

Section Tasks.
Variable env : Env.

Definition now : M env float :=
  fun st =>
    let '(t, w) := time_time env (world st) in
    (Return t, {| world := w; calls := calls st |}).

(** An [httpx.HTTPStatusError] is shown as an [HTTPException] with the
    status of the response. *)
Definition _fetch_gaps : M env json :=
  fun st =>
    let '(rep, w) := gaps_reply env (world st) in
    let st' := {| world := w; calls := calls st ++ [GetGaps 20] |} in
    match rep with
    | Gateway.ConnectError => (Raise TransportError, st')
    | Gateway.Response code text j =>
        if is_error env code then (Raise (HTTPException code text), st')
        else match j with
             | Some v => (Return v, st')
             | None => (Raise JSONDecodeError, st')
             end
    end.

(** The payload of [_propose_placeholder], built at the times [t1] and
    [t2]. *)
Definition payload (entity_id : json) (t1 t2 : float) : json :=
  JObj [("subject_id", entity_id);
        ("predicate", JStr "MENTIONS");
        ("object_kind", JStr "literal");
        ("object_value", JStr ("gap-noted-" ++ py_str env (py_int env t1)));
        ("model_conf", JFloat 0);
        ("human_conf", JNull);
        ("context_hash", JNull);
        ("evidence", JArr []);
        ("provenance", JObj [("who", JStr "scheduler"); ("when", JFloat t2);
                             ("model_version", JStr "n/a")])].

Definition _propose_placeholder (entity_id : json) : M env unit :=
  t1 <- now ;;
  t2 <- now ;;
  fun st =>
    let p := payload entity_id t1 t2 in
    let '(delivered, w) := gateway_reply env p (world st) in
    let st' := {| world := w; calls := calls st ++ [PostClaim p] |} in
    if delivered then (Return tt, st') else (Raise TransportError, st').

(** [{k: v for k, v in node.items() if k not in {"_type", "labels", "id"}}] *)
Definition props_of (node : dict) : dict :=
  List.filter (fun kv => negb (String.eqb (fst kv) "_type"
                               || String.eqb (fst kv) "labels"
                               || String.eqb (fst kv) "id")) node.

(** [props.get("id") or node.get("id")] *)
Definition entity_id_of (node : dict) : json :=
  or_else (dict_get "id" JNull (props_of node)) (dict_get "id" JNull node).

(** The body of the [for] loop of [loop_task] for one record. *)
Definition visit (rec : json) : M env unit :=
  e <- lift (attr_get rec "e" JNull) ;;
  match or_else e (JObj []) with
  | JObj node =>
      let entity_id := entity_id_of node in
      if json_truthy entity_id then _propose_placeholder entity_id else ret tt
  | _ => raise AttributeError
  end.

Fixpoint visit_all (recs : list json) : M env unit :=
  match recs with
  | [] => ret tt
  | rec :: recs' => _ <- visit rec ;; visit_all recs'
  end.

(** One turn of the [while] loop of [loop_task], up to the sleep: the
    [try] with its [except Exception: pass]. *)
Definition scan : M env unit :=
  fun st =>
    match (data <- _fetch_gaps ;;
           records <- lift (attr_get data "records" (JArr [])) ;;
           recs <- lift (iter records) ;;
           visit_all recs) st with
    | (Return _, st') => (Return tt, st')
    | (Raise _, st') => (Return tt, st')
    end.

End Tasks.
End Scheduler.

(** ** The gaps the scheduler acts on *)
Module Gaps.
Import Py Models.
(** The ids the scheduler proposes placeholders for: the ["id"] of the node
    under ["e"] of each record, where it is there and true. *)
Definition gap_id (rec : json) : option json :=
  match rec with
  | JObj r =>
      match dict_lookup "e" r with
      | Some (JObj node) =>
          match dict_lookup "id" node with
          | Some i => if json_truthy i then Some i else None
          | None => None
          end
      | _ => None
      end
  | _ => None
  end.

Definition gap_ids (recs : list json) : list json := omap gap_id recs.

(** A record of the answer of [/gaps]: a dict with a node under ["e"], or
    with nothing there. *)
Definition gap_record (rec : json) : Prop :=
  ∃ r, rec = JObj r
       ∧ match dict_lookup "e" r with
         | Some (JObj _) | None => True
         | Some v => json_truthy v = false
         end.

(** The payloads [ps] are placeholders for the ids [ids], in order. *)
Definition placeholders (env : Scheduler.Env) (ps ids : list json) : Prop :=
  Forall2 (fun p i => ∃ t1 t2, p = Scheduler.payload env i t1 t2) ps ids.

(** The gateway answers every request of the scheduler. *)
Definition gateway_up (env : Scheduler.Env) : Prop :=
  ∀ p w, fst (Scheduler.gateway_reply env p w) = true.
End Gaps.

(** ** services/kg-api: making Neo4j values JSON-friendly *)
Module Neo4j.
Import Py Models.

(** [neo4j.graph.Node]: labels, element id and properties. *)
Record Node : Type := {
  labels : list string;
  element_id : string;
  node_properties : dict
}.

(** [neo4j.graph.Relationship] *)
Record Relationship : Type := {
  type : string;
  rel_element_id : string;
  start_node : Node;
  end_node : Node;
  rel_properties : dict
}.

(** The values a record of a result can hold. *)
Inductive value : Type :=
| VNull
| VBool (b : bool)
| VInt (n : Z)
| VFloat (x : float)
| VStr (s : string)
| VList (items : list value)
| VDict (fields : list (string * value))
| VNode (n : Node)
| VRel (r : Relationship)
| VPath (nodes : list Node) (relationships : list Relationship).

(** [{**base, **d}] at the end of a dict display: the keys of [d] replace
    the entries of [base] in place, or are added after them. *)
Definition unpack (base d : dict) : dict :=
  fold_left (fun acc kv => dict_set (fst kv) (snd kv) acc) d base.

Definition serialize_node (n : Node) : json :=
  JObj (unpack [("_type", JStr "node");
                ("labels", JArr (JStr <$> labels n));
                ("id", JStr (element_id n))]
          (node_properties n)).

Definition serialize_rel (r : Relationship) : json :=
  JObj (unpack [("_type", JStr "rel");
                ("type", JStr (type r));
                ("id", JStr (rel_element_id r));
                ("start", JStr (element_id (start_node r)));
                ("end", JStr (element_id (end_node r)))]
          (rel_properties r)).

Fixpoint _serialize_neo4j (v : value) : json :=
  match v with
  | VNode n => serialize_node n
  | VRel r => serialize_rel r
  | VPath ns rs =>
      JObj [("_type", JStr "path");
            ("nodes", JArr (List.map serialize_node ns));
            ("rels", JArr (List.map serialize_rel rs))]
  | VList l => JArr (List.map _serialize_neo4j l)
  | VDict d => JObj (List.map (fun kv => (fst kv, _serialize_neo4j (snd kv))) d)
  | VNull => JNull
  | VBool b => JBool b
  | VInt n => JInt n
  | VFloat x => JFloat x
  | VStr s => JStr s
  end.

Definition _neo4j_records_to_json (data_rows : list (list (string * value)))
    : list json :=
  List.map (fun row =>
              JObj (List.map (fun kv => (fst kv, _serialize_neo4j (snd kv))) row))
    data_rows.

(** A JSON value as a value of a record: one without nodes, relationships
    or paths. *)
Fixpoint plain (j : json) : value :=
  match j with
  | JNull => VNull
  | JBool b => VBool b
  | JInt n => VInt n
  | JFloat x => VFloat x
  | JStr s => VStr s
  | JArr l => VList (List.map plain l)
  | JObj d => VDict (List.map (fun kv => (fst kv, plain (snd kv))) d)
  end.

End Neo4j.

(** ** Scenarios of the further properties *)
Module Scenarios.
Import Py Models.

(** The service when [_on_start] could not reach either store. *)
Definition not_started : KgApi.State :=
  {| KgApi.driver := false; KgApi.pg_conn := false; KgApi.entities := ∅;
     KgApi.claims := ∅; KgApi.evidences := ∅; KgApi.supports := [];
     KgApi.edges := []; KgApi.pg_evidence := []; KgApi.drawn := 0 |}.

(** A generator that has run out of fresh ids. *)
Definition stuck_uuid : nat -> string := fun _ => "id-0".

Definition two_logs : KgApi.ClaimProposal :=
  {| KgApi.claim :=
       {| subject_id := "Run:demo"; predicate := "USES"; object_kind := "entity";
          object_value := "Model:v2"; model_conf := Some 0.9%float;
          human_conf := None; context_hash := None;
          evidence := [Examples.log_evidence 0.95; Examples.log_evidence 0.5];
          provenance := None |};
     KgApi.status := Some "pending" |}.

(** A store that carries out one write statement: it deletes every node and
    relationship. *)
Definition wipe_query : string := "MATCH (n) DETACH DELETE n".

Definition wiping : string -> dict -> KgApi.Tx (list dict) :=
  fun q _ st =>
    if String.eqb q wipe_query
    then (Return [],
          KgApi.set_edges (fun _ => [])
            (KgApi.set_supports (fun _ => [])
               (KgApi.set_evidences (fun _ => ∅)
                  (KgApi.set_claims (fun _ => ∅) (KgApi.set_entities (fun _ => ∅) st)))))
    else (Raise Neo4jError, st).

(** The end-to-end proposal with a confidence that is not a number. *)
Definition nan_claim : ClaimIn :=
  {| subject_id := "Run:demo"; predicate := "USES"; object_kind := "entity";
     object_value := "Model:v2"; model_conf := Some nan;
     human_conf := None; context_hash := None;
     evidence := []; provenance := None |}.

(** A gateway whose model answers [text], with [_ADD_RE] matching every
    question as a claim about the end-to-end example. *)
Definition adding (reply : Gateway.http_reply) : Gateway.Env :=
  {| Gateway.World := unit;
     Gateway.kg_reply := fun _ _ w => (reply, w);
     Gateway.llm_reply := fun _ w => (Raise TransportError, w);
     Gateway.time_time := fun _ => 1690000000%float;
     Gateway.json_loads := fun _ => None;
     Gateway.json_dumps := Examples.dumps;
     Gateway._ADD_RE := fun _ => Some ("Run:demo", "uses", "Model:v2", "0.95");
     Gateway._NEI_RE := fun _ => Some ("Run:demo", "7");
     Gateway.py_float := fun _ => Some 0.95%float;
     Gateway.py_int := fun _ => Some 7%Z;
     Gateway.py_repr := Examples.dumps;
     Gateway.SYSTEM_PROMPT := "" |}.

(** The same gateway without the add-claim route. *)
Definition asking (reply : Gateway.http_reply) : Gateway.Env :=
  {| Gateway.World := unit;
     Gateway.kg_reply := fun _ _ w => (reply, w);
     Gateway.llm_reply := fun _ w => (Return "not json", w);
     Gateway.time_time := fun _ => 1690000000%float;
     Gateway.json_loads := fun _ => None;
     Gateway.json_dumps := Examples.dumps;
     Gateway._ADD_RE := fun _ => None;
     Gateway._NEI_RE := fun _ => Some ("Run:demo", "7");
     Gateway.py_float := fun _ => None;
     Gateway.py_int := fun _ => Some 7%Z;
     Gateway.py_repr := Examples.dumps;
     Gateway.SYSTEM_PROMPT := "" |}.

(** The text [{"final": "done"}]. *)
Definition bare_final_text : string :=
  "{" ++ Examples.quoted "final" ++ ": " ++ Examples.quoted "done" ++ "}".
Definition bare_final : dict := [("final", JStr "done")].

(** A scheduler whose KG-API reports the gaps [recs] and whose gateway
    answers every request. *)
Definition reporting (recs : list json) : Scheduler.Env :=
  {| Scheduler.World := unit;
     Scheduler.gaps_reply := fun w =>
       (Gateway.Response 200 "<json>" (Some (JObj [("records", JArr recs)])), w);
     Scheduler.gateway_reply := fun _ w => (true, w);
     Scheduler.is_error := fun code => (400 <=? code)%Z;
     Scheduler.time_time := fun w => (1690000000%float, w);
     Scheduler.py_int := fun _ => 1690000000%Z;
     Scheduler.py_str := fun _ => "1690000000" |}.

Definition entity_node (i : string) : json :=
  JObj [("e", JObj [("_type", JStr "node"); ("labels", JArr [JStr "Entity"]);
                    ("id", JStr i)])].

End Scenarios.

(** * Verification *)
Import Py Models.

(** ** Float comparison *)
Section FloatOrder.
Local Open Scope float_scope.

Ltac split_compare :=
  repeat match goal with
    | |- context [(?a ?= ?b)%Z] =>
        let E := fresh "E" in
        destruct (a ?= b)%Z eqn:E;
        [apply Z.compare_eq_iff in E | change (a < b)%Z in E
        | apply Z.compare_gt_iff in E]
    | |- context [(?a ?= ?b)%positive] =>
        let E := fresh "E" in
        destruct (a ?= b)%positive eqn:E;
        [apply Pos.compare_eq_iff in E | change (a < b)%positive in E
        | apply Pos.compare_gt_iff in E]
    end.

Ltac by_cases_on_floats :=
  simpl; try discriminate; try congruence;
  change (PosDef.Pos.compare_cont Eq) with Pos.compare;
  repeat match goal with s : bool |- _ => destruct s end;
  simpl; try congruence;
  split_compare; simpl; intros; try congruence; try (exfalso; lia).

Lemma SFcompare_antisym a b :
  SFcompare b a = CompOpp <$> SFcompare a b.
Proof.
  destruct a as [sa|sa| |sa ma ea], b as [sb|sb| |sb mb eb]; by_cases_on_floats.
Qed.

Lemma SFcompare_trans_Lt a b c :
  SFcompare a b = Some Lt -> SFcompare b c = Some Lt -> SFcompare a c = Some Lt.
Proof.
  destruct a as [sa|sa| |sa ma ea], b as [sb|sb| |sb mb eb],
    c as [sc|sc| |sc mc ec]; by_cases_on_floats.
Qed.

Lemma SFcompare_refl a : SFcompare a a = None \/ SFcompare a a = Some Eq.
Proof. destruct a as [sa|sa| |sa ma ea]; by_cases_on_floats; auto. Qed.

Lemma SFcompare_None a b :
  SFcompare a b = None -> SFcompare a a = None \/ SFcompare b b = None.
Proof.
  destruct a as [sa|sa| |sa ma ea], b as [sb|sb| |sb mb eb]; simpl; auto; discriminate.
Qed.

Lemma SFcompare_zero_r a s s' :
  SFcompare a (S754_zero s) = SFcompare a (S754_zero s').
Proof. destruct a; reflexivity. Qed.

Lemma SFcompare_zero_l a s s' :
  SFcompare (S754_zero s) a = SFcompare (S754_zero s') a.
Proof. destruct a; reflexivity. Qed.

Lemma SFcompare_Eq_zero a s :
  SFcompare a (S754_zero s) = Some Eq -> exists s', a = S754_zero s'.
Proof. destruct a as [sa|sa| |sa ma ea]; simpl; try destruct sa; try discriminate; eauto. Qed.

Lemma ltb_cmp x y : (x <? y) = match cmp x y with Some Lt => true | _ => false end.
Proof. rewrite ltb_spec. reflexivity. Qed.
Lemma leb_cmp x y : (x <=? y) = match cmp x y with Some (Lt | Eq) => true | _ => false end.
Proof. rewrite leb_spec. reflexivity. Qed.
Lemma eqb_cmp x y : (x =? y) = match cmp x y with Some Eq => true | _ => false end.
Proof. rewrite FloatAxioms.eqb_spec. reflexivity. Qed.

Lemma ltb_leb x y : (x <? y) = true -> (x <=? y) = true.
Proof. rewrite ltb_cmp, leb_cmp. destruct (cmp x y) as [[]|]; congruence. Qed.

Lemma ltb_irrefl x : (x <? x) = false.
Proof. rewrite ltb_cmp. unfold cmp. destruct (SFcompare_refl (Prim2SF x)) as [-> | ->]; reflexivity. Qed.

Lemma ltb_trans x y z : (x <? y) = true -> (y <? z) = true -> (x <? z) = true.
Proof.
  rewrite !ltb_cmp. unfold cmp.
  destruct (SFcompare (Prim2SF x) (Prim2SF y)) as [[]|] eqn:E1; try discriminate.
  destruct (SFcompare (Prim2SF y) (Prim2SF z)) as [[]|] eqn:E2; try discriminate.
  now rewrite (SFcompare_trans_Lt _ _ _ E1 E2).
Qed.

Lemma ltb_asym x y : (x <? y) = true -> (y <? x) = false.
Proof.
  rewrite !ltb_cmp. unfold cmp. rewrite (SFcompare_antisym (Prim2SF x) (Prim2SF y)).
  destruct (SFcompare (Prim2SF x) (Prim2SF y)) as [[]|]; simpl; congruence.
Qed.

Lemma eqb_sym x y : (x =? y) = (y =? x).
Proof.
  rewrite !eqb_cmp. unfold cmp. rewrite (SFcompare_antisym (Prim2SF y) (Prim2SF x)).
  destruct (SFcompare (Prim2SF y) (Prim2SF x)) as [[]|]; reflexivity.
Qed.

(** Two numbers are ordered one way or the other, or equal. *)
Lemma not_ltb_leb x y :
  Spec.is_number x -> Spec.is_number y -> (x <? y) = false -> (y <=? x) = true.
Proof.
  unfold Spec.is_number. rewrite !eqb_cmp, ltb_cmp, leb_cmp. unfold cmp.
  rewrite (SFcompare_antisym (Prim2SF x) (Prim2SF y)).
  destruct (SFcompare (Prim2SF x) (Prim2SF y)) as [[]|] eqn:E; simpl; try congruence.
  intros Hx Hy _. destruct (SFcompare_None _ _ E) as [H|H]; rewrite H in *; discriminate.
Qed.

Lemma leb_not_ltb_eqb x y : (x <=? y) = true -> (x <? y) = false -> (x =? y) = true.
Proof. rewrite leb_cmp, ltb_cmp, eqb_cmp. destruct (cmp x y) as [[]|]; congruence. Qed.

(** A value equal to zero under [==] compares like [0.0]. *)
Lemma cmp_zero_l x y : (x =? 0) = true -> cmp x y = cmp 0 y.
Proof.
  rewrite eqb_cmp. unfold cmp. change (Prim2SF 0) with (S754_zero false).
  destruct (SFcompare (Prim2SF x) (S754_zero false)) as [[]|] eqn:E; try discriminate.
  destruct (SFcompare_Eq_zero _ _ E) as [s ->]. intros _. apply SFcompare_zero_l.
Qed.

Lemma cmp_zero_r x y : (x =? 0) = true -> cmp y x = cmp y 0.
Proof.
  rewrite eqb_cmp. unfold cmp. change (Prim2SF 0) with (S754_zero false).
  destruct (SFcompare (Prim2SF x) (S754_zero false)) as [[]|] eqn:E; try discriminate.
  destruct (SFcompare_Eq_zero _ _ E) as [s ->]. intros _. apply SFcompare_zero_r.
Qed.

End FloatOrder.

(** ** The trust scorer *)
Section TrustScorer.
Local Open Scope float_scope.
Import Gateway.

Lemma clamp_in_range x :
  (0 <=? max2 0 (min2 1 x)) = true /\ (max2 0 (min2 1 x) <=? 1) = true.
Proof.
  unfold max2, min2, gt.
  destruct (x <? 1) eqn:H1.
  - destruct (0 <? x) eqn:H0; split; auto using ltb_leb.
  - split; reflexivity.
Qed.

Lemma clamp_is_clamp x :
  Spec.is_number x -> Spec.same_number (max2 0 (min2 1 x)) (Spec.clamp x 0 1).
Proof.
  intros Hx. unfold max2, min2, gt, Spec.clamp, Spec.same_number.
  assert (H01 : (0 <? 1)%float = true) by reflexivity.
  destruct (x <? 0) eqn:Hlt0.
  - rewrite (ltb_trans x 0 1 Hlt0 H01), (ltb_asym _ _ Hlt0). now left.
  - destruct (1 <? x) eqn:Hgt1.
    + rewrite (ltb_asym _ _ Hgt1). now left.
    + destruct (x <? 1) eqn:Hlt1.
      * destruct (0 <? x) eqn:Hgt0; [now left|]. right.
        apply leb_not_ltb_eqb; [|assumption].
        apply not_ltb_leb; auto; reflexivity.
      * right. change ((1 =? x) = true).
        apply leb_not_ltb_eqb; [|assumption].
        apply not_ltb_leb; auto; reflexivity.
Qed.

Lemma max_iter_elem x xs : max_iter x xs ∈ x :: xs.
Proof.
  unfold max_iter. revert x. induction xs as [|y ys IH]; intros x; simpl.
  - apply list_elem_of_here.
  - specialize (IH (max2 x y)). apply elem_of_cons in IH as [-> | IH].
    + unfold max2. destruct (gt y x); [apply list_elem_of_further|]; apply list_elem_of_here.
    + now do 2 apply list_elem_of_further.
Qed.

Lemma max_iter_dominates xs : forall x y,
  (x <? y) = false -> (max_iter x xs <? y) = false.
Proof.
  unfold max_iter. induction xs as [|z zs IH]; intros x y Hxy; simpl; [assumption|].
  apply IH. unfold max2, gt. destruct (x <? z) eqn:Hxz; [|assumption].
  destruct (z <? y) eqn:Hzy; [|reflexivity].
  now rewrite (ltb_trans _ _ _ Hxz Hzy) in Hxy.
Qed.

Lemma max_iter_maximal x xs y :
  y ∈ x :: xs -> (max_iter x xs <? y) = false.
Proof.
  revert x. induction xs as [|z zs IH]; intros x Hy.
  - apply list_elem_of_singleton in Hy as ->. apply ltb_irrefl.
  - apply elem_of_cons in Hy as [-> | Hy].
    + apply max_iter_dominates, ltb_irrefl.
    + change (max_iter x (z :: zs)) with (max_iter (max2 x z) zs).
      apply elem_of_cons in Hy as [-> | Hy].
      * apply max_iter_dominates. unfold max2, gt.
        destruct (x <? z) eqn:E; [apply ltb_irrefl | assumption].
      * apply IH. set_solver.
Qed.

(** [e.quality_score or 0.0] against the score "defaulting to 0 when
    absent": the same value, or [0.0] for a score that is a zero. *)
Lemma score_cases e :
  score e = Spec.quality e \/ (score e = 0 /\ (Spec.quality e =? 0) = true).
Proof.
  unfold score, Spec.quality, or_zero, truthy. destruct (quality_score e) as [v|]; simpl.
  - destruct (v =? 0) eqn:E; simpl; auto.
  - now left.
Qed.

Lemma cmp_score_l e y : cmp (score e) y = cmp (Spec.quality e) y.
Proof.
  destruct (score_cases e) as [-> | [-> H]]; [reflexivity|].
  symmetry. now apply cmp_zero_l.
Qed.

Lemma cmp_score_r e y : cmp y (score e) = cmp y (Spec.quality e).
Proof.
  destruct (score_cases e) as [-> | [-> H]]; [reflexivity|].
  symmetry. now apply cmp_zero_r.
Qed.

Lemma score_same_number e : Spec.same_number (score e) (Spec.quality e).
Proof.
  destruct (score_cases e) as [-> | [-> H]]; [now left|right].
  now rewrite eqb_sym.
Qed.

Lemma score_is_number e : Spec.is_number (Spec.quality e) -> Spec.is_number (score e).
Proof.
  unfold Spec.is_number. now rewrite !eqb_cmp, cmp_score_l, cmp_score_r.
Qed.

Lemma qual_is_max e es :
  Spec.max_quality (e :: es) (max_iter (score e) (map score es)).
Proof.
  set (q := max_iter (score e) (map score es)).
  assert (Hin : exists e', e' ∈ e :: es /\ q = score e').
  { pose proof (max_iter_elem (score e) (map score es)) as H.
    change (score e :: map score es) with (score <$> (e :: es)) in H.
    apply list_elem_of_fmap in H as (e' & ? & ?). eauto. }
  assert (Hmax : forall e', e' ∈ e :: es -> (q <? score e') = false).
  { intros e' He'. apply max_iter_maximal.
    change (score e :: map score es) with (score <$> (e :: es)).
    now apply list_elem_of_fmap_2. }
  simpl. split; [|split].
  - destruct Hin as (e' & He' & ->). exists e'. split; [assumption|apply score_same_number].
  - intros e' He'. specialize (Hmax e' He'). now rewrite ltb_cmp, cmp_score_r in *.
  - intros Hnum e' He'. specialize (Hmax e' He').
    assert ((score e' <=? q) = true) as H.
    { apply not_ltb_leb; [|auto using score_is_number|assumption].
      destruct Hin as (e'' & He'' & ->). auto using score_is_number. }
    now rewrite leb_cmp, cmp_score_l in *.
Qed.

Lemma first_party_bonus_spec ev :
  forallb is_first_party ev && nonempty ev = true <-> Spec.all_first_party ev.
Proof.
  unfold Spec.all_first_party. rewrite andb_true_iff, forallb_forall.
  split.
  - intros [Hall Hne]. split; [now destruct ev|].
    intros e He. apply list_elem_of_In, Hall in He. now apply bool_decide_eq_true in He.
  - intros [Hne Hall]. split; [|now destruct ev].
    intros e He. apply bool_decide_eq_true, Hall, list_elem_of_In, He.
Qed.

Lemma or_zero_default o : Spec.same_number (or_zero o) (default 0 o).
Proof.
  destruct o as [v|]; simpl; [|now left]. unfold truthy.
  destruct (v =? 0) eqn:E; simpl; [right; now rewrite eqb_sym | now left].
Qed.

(** A float that is not equal to itself is a NaN. *)
Lemma nan_Prim2SF x : (x =? x) = false -> Prim2SF x = S754_nan.
Proof.
  rewrite eqb_cmp. unfold cmp. intros H.
  destruct (SFcompare_refl (Prim2SF x)) as [Hn | He]; [|rewrite He in H; discriminate].
  destruct (Prim2SF x) as [s|s| |s m e]; simpl in Hn; try discriminate; reflexivity.
Qed.

(** A sum that is not a number is not clamped: [min(1.0, raw)] keeps 1.0
    when [raw < 1.0] does not hold. *)
Lemma clamp_nan x : Prim2SF x = S754_nan -> max2 0 (min2 1 x) = 1.
Proof.
  intros H. unfold max2, min2, gt.
  assert (Hlt : (x <? 1) = false) by (rewrite ltb_cmp; unfold cmp; now rewrite H).
  rewrite Hlt. reflexivity.
Qed.

Lemma clamp_not_a_number x : ~ Spec.is_number x -> max2 0 (min2 1 x) = 1.
Proof.
  unfold Spec.is_number. intros H. apply clamp_nan, nan_Prim2SF.
  now destruct (x =? x).
Qed.

(** C2, as amended. The trust score is a function of the claim alone. With
    [raw = 0.5*qual + 0.4*conf + bonus], where [qual] is the maximum quality
    score of the evidence (0 for no evidence, absent scores counting as 0),
    [conf] is the model confidence (0 when absent), and [bonus] is 0.15
    exactly when the evidence is non-empty and all first-party, else 0, the
    score is [clamp(raw, 0, 1)] when [raw] is a number and 1.0 when it is
    not. Without evidence and without model confidence the score is 0.0, and
    the score always lies in [0,1]. *)
Theorem trust_score_spec (claim : ClaimIn) :
  (exists qual conf bonus raw : float,
     Spec.max_quality (evidence claim) qual
     /\ Spec.same_number conf (default 0 (model_conf claim))
     /\ (bonus = 0.15 /\ Spec.all_first_party (evidence claim)
         \/ bonus = 0 /\ ~ Spec.all_first_party (evidence claim))
     /\ raw = 0.5 * qual + 0.4 * conf + bonus
     /\ (Spec.is_number raw ->
         Spec.same_number (_trust_score claim) (Spec.clamp raw 0 1))
     /\ (~ Spec.is_number raw -> _trust_score claim = 1))
  /\ (evidence claim = [] -> model_conf claim = None -> _trust_score claim = 0)
  /\ (0 <=? _trust_score claim) = true /\ (_trust_score claim <=? 1) = true.
Proof.
  split; [|split; [|apply clamp_in_range]].
  - exists (match evidence claim with
            | [] => 0
            | e :: es => max_iter (score e) (map score es)
            end),
      (or_zero (model_conf claim)),
      (if forallb is_first_party (evidence claim) && nonempty (evidence claim)
       then 0.15 else 0).
    eexists. split; [|split; [|split; [|split; [reflexivity|split]]]].
    + destruct (evidence claim) as [|e es]; [reflexivity | apply qual_is_max].
    + apply or_zero_default.
    + destruct (forallb is_first_party (evidence claim) && nonempty (evidence claim)) eqn:E.
      * left. split; [reflexivity|]. now apply first_party_bonus_spec.
      * right. split; [reflexivity|]. rewrite <- first_party_bonus_spec. congruence.
    + apply clamp_is_clamp.
    + apply clamp_not_a_number.
  - intros Hev Hmc. unfold _trust_score. rewrite Hev, Hmc. reflexivity.
Qed.
End TrustScorer.

(** An infinite quality and an infinitely negative confidence add up to
    something that is not a number: the score is 1.0, which is not the
    [clamp] of the sum. *)
Lemma not_a_number_is_not_clamped :
  let claim := Examples.opposite_infinities in
  let raw := (0.5 * infinity + 0.4 * neg_infinity + 0.15)%float in
  Spec.max_quality (evidence claim) infinity
  /\ default 0%float (model_conf claim) = neg_infinity
  /\ Spec.all_first_party (evidence claim)
  /\ Gateway._trust_score claim = 1%float
  /\ ~ Spec.same_number (Gateway._trust_score claim) (Spec.clamp raw 0 1).
Proof.
  intros claim raw. split; [|split; [reflexivity|split; [|split; [reflexivity|]]]].
  - split; [|split].
    + exists (Examples.log_evidence infinity). split; [apply list_elem_of_here | now left].
    + intros e He. apply list_elem_of_singleton in He as ->. reflexivity.
    + intros _ e He. apply list_elem_of_singleton in He as ->. reflexivity.
  - split; [discriminate|]. intros e He. apply list_elem_of_singleton in He as ->.
    cbn. set_solver.
  - intros [H | H]; [|discriminate H].
    apply (f_equal (fun x => (x =? x)%float)) in H. discriminate H.
Qed.

(** ** The policy gate *)
Section PolicyGate.
Import Gateway.
Variable env : Env.
Variables AUTO_TRUST MIN_QUAL : float.

Lemma kg_post_calls path body (st : state env) :
  calls (snd (_kg_post env path body st)) = (calls st ++ [KgPost path body])%list.
Proof.
  unfold _kg_post. destruct (kg_reply env path body (world st)) as [rep w].
  destruct rep as [|code text [j|]]; simpl; [reflexivity| |];
    destruct (400 <=? code)%Z; reflexivity.
Qed.

Lemma kg_post_failed path body (st : state env) :
  Spec.query_failed (fst (kg_reply env path body (world st))) ->
  is_raise (fst (_kg_post env path body st)) = true.
Proof.
  unfold _kg_post. destruct (kg_reply env path body (world st)) as [rep w].
  destruct rep as [|code text j]; simpl; [reflexivity|].
  intros [H | ->].
  - apply Z.leb_le in H. now rewrite H.
  - now destruct (400 <=? code)%Z.
Qed.

Lemma conflicts_in_state claim res (st : state env) :
  snd (conflicts_in env claim res st) = st.
Proof.
  unfold conflicts_in, bind, lift, ret.
  destruct (attr_get res "records" _); [|reflexivity].
  destruct (index0 a); [|reflexivity].
  destruct (attr_get _ "objs" _); [|reflexivity].
  destruct (String.eqb _ _); [|reflexivity].
  destruct (iter _); reflexivity.
Qed.

(** The conflict check never raises, and makes one call. *)
Lemma has_conflicts_returns claim (st : state env) :
  exists conflict st1,
    _has_conflicts env claim st = (Return conflict, st1)
    /\ calls st1 = (calls st ++ [KgPost "/cypher" (conflict_body claim)])%list
    /\ (is_raise (fst (_kg_post env "/cypher" (conflict_body claim) st)) = true ->
        conflict = true).
Proof.
  unfold _has_conflicts, try_except, bind, ret.
  pose proof (kg_post_calls "/cypher" (conflict_body claim) st) as Hc.
  destruct (_kg_post env "/cypher" (conflict_body claim) st) as [[res|e] st0]; simpl in *.
  - pose proof (conflicts_in_state claim res st0) as Hs.
    destruct (conflicts_in env claim res st0) as [[b|e] st1]; simpl in Hs; subst st1;
      eexists _, _; (split; [reflexivity|split; [assumption|discriminate]]).
  - eexists _, _. split; [reflexivity|]. split; [assumption|reflexivity].
Qed.

Lemma min_qual_ok_spec ev :
  (if nonempty ev then forallb (fun e => ge (score e) MIN_QUAL) ev else false) = true
  <-> Spec.min_qual_ok MIN_QUAL ev.
Proof.
  unfold Spec.min_qual_ok. destruct ev as [|e0 es]; simpl nonempty; cbv iota.
  - split; [discriminate | now intros []].
  - rewrite forallb_forall. split.
    + intros H. split; [discriminate|]. intros e He.
      apply list_elem_of_In, H in He. unfold ge in He.
      now rewrite leb_cmp, cmp_score_r in *.
    + intros [_ H] e He. apply list_elem_of_In, H in He. unfold ge.
      now rewrite leb_cmp, cmp_score_r in *.
Qed.

Lemma auto_merge_spec claim conflict :
  bool_decide (predicate claim ∈ AUTO_MERGE_PREDICATES)
  && String.eqb (object_kind claim) "entity"
  && ge (_trust_score claim) AUTO_TRUST
  && (if nonempty (evidence claim)
      then forallb (fun e => ge (score e) MIN_QUAL) (evidence claim) else false)
  && negb conflict = true
  <-> Spec.auto_merge AUTO_TRUST MIN_QUAL claim (_trust_score claim) conflict.
Proof.
  unfold Spec.auto_merge.
  rewrite !andb_true_iff, bool_decide_eq_true, String.eqb_eq, min_qual_ok_spec,
    negb_true_iff. unfold ge. tauto.
Qed.

Lemma approve_follow_up created (st : state env) :
  exists tail st',
    try_except
      (claim_node <- lift (subscript created "claim") ;;
       cid <- lift (subscript claim_node "id") ;;
       _ <- _kg_post env "/approve" (Body_json (JObj [("claim_id", cid)])) ;;
       ret tt)
      (ret tt) st = (Return tt, st')
    /\ calls st' = (calls st ++ tail)%list
    /\ (tail = [] \/ exists cid, tail = [KgPost "/approve" (Body_json (JObj [("claim_id", cid)]))]).
Proof.
  unfold try_except, bind, lift, ret.
  destruct (subscript created "claim") as [node|]; [|exists [], st; rewrite app_nil_r; auto].
  destruct (subscript node "id") as [cid|]; [|exists [], st; rewrite app_nil_r; auto].
  pose proof (kg_post_calls "/approve" (Body_json (JObj [("claim_id", cid)])) st) as Hc.
  destruct (_kg_post env "/approve" _ st) as [[r|e] st']; simpl in Hc;
    eexists _, st'; (split; [reflexivity|split; [eassumption|eauto]]).
Qed.

Lemma gate_run (claim : ClaimIn) (st : state env) :
  exists conflict st1 status tail,
    _has_conflicts env claim st = (Return conflict, st1)
    /\ (status = "approved"
          /\ Spec.auto_merge AUTO_TRUST MIN_QUAL claim (_trust_score claim) conflict
        \/ status = "pending"
          /\ ~ Spec.auto_merge AUTO_TRUST MIN_QUAL claim (_trust_score claim) conflict)
    /\ calls (snd (propose_claim env AUTO_TRUST MIN_QUAL claim st))
       = (calls st ++ [KgPost "/cypher" (conflict_body claim);
                       KgPost "/propose_claim" (Body_claim claim status)] ++ tail)%list
    /\ (tail = [] \/ status = "approved" /\ exists cid,
          tail = [KgPost "/approve" (Body_json (JObj [("claim_id", cid)]))])
    /\ forall out st',
         propose_claim env AUTO_TRUST MIN_QUAL claim st = (Return out, st') ->
         trust out = _trust_score claim
         /\ (min_quality_ok out = true <-> Spec.min_qual_ok MIN_QUAL (evidence claim))
         /\ no_conflict out = negb conflict
         /\ (decision out = "T1-auto-merge" /\ status = "approved"
             \/ decision out = "T2-review" /\ status = "pending").
Proof.
  destruct (has_conflicts_returns claim st) as (conflict & st1 & Hconf & Hcalls & _).
  exists conflict, st1.
  destruct (propose_claim env AUTO_TRUST MIN_QUAL claim st) as [r stf] eqn:Hrun.
  unfold propose_claim in Hrun. unfold bind at 1 in Hrun. rewrite Hconf in Hrun.
  pose proof (auto_merge_spec claim conflict) as Ham.
  pose proof (min_qual_ok_spec (evidence claim)) as Hmq.
  set (mq := if nonempty (evidence claim) then _ else false) in *.
  set (am := _ && _ && _ && _ && _) in *.
  destruct am eqn:Eam; unfold bind at 1 in Hrun.
  - (* auto-merge *)
    pose proof (kg_post_calls "/propose_claim" (Body_claim claim "approved") st1) as Hp.
    destruct (_kg_post env "/propose_claim" (Body_claim claim "approved") st1)
      as [[created|e] st2]; simpl in Hp.
    + change (String.eqb "approved" "approved") with true in Hrun. cbv iota in Hrun.
      unfold bind at 1 in Hrun.
      destruct (approve_follow_up created st2) as (tail & st3 & Hf & Ht & Htail).
      rewrite Hf in Hrun. unfold ret in Hrun. injection Hrun as <- <-.
      exists "approved", tail. split; [exact Hconf|].
      split; [left; split; [reflexivity | now apply Ham]|].
      simpl. rewrite Ht, Hp, Hcalls, <- !app_assoc. split; [reflexivity|].
      split; [destruct Htail; auto|].
      intros out st' [= <- <-]. simpl. repeat split; try apply Hmq; auto.
    + injection Hrun as <- <-.
      exists "approved", []. split; [exact Hconf|].
      split; [left; split; [reflexivity | now apply Ham]|].
      simpl. rewrite Hp, Hcalls, <- !app_assoc. split; [reflexivity|].
      split; [now left|]. intros out st' [=].
  - pose proof (kg_post_calls "/propose_claim" (Body_claim claim "pending") st1) as Hp.
    destruct (_kg_post env "/propose_claim" (Body_claim claim "pending") st1)
      as [[created|e] st2]; simpl in Hp, Hrun; unfold ret, bind in Hrun;
      injection Hrun as <- <-;
      exists "pending", []; (split; [exact Hconf|]);
      (split; [right; split; [reflexivity | rewrite <- Ham; congruence]|]);
      simpl; rewrite Hp, Hcalls, <- !app_assoc; (split; [reflexivity|]);
      (split; [now left|]).
    + intros out st' [= <- <-]. simpl. repeat split; try apply Hmq; auto.
    + intros out st' [=].
Qed.

(** C1. For every proposal the gate asks the conflict detector, which always
    answers, and then sends one POST /propose_claim to the ledger whose
    status is "approved" when the predicate is auto-mergeable, the object is
    an entity, the trust reaches the threshold, the evidence is non-empty
    with every quality (0 when absent) at least the minimum, and there is no
    conflict; and "pending" otherwise. The answer it returns reports the
    same trust, [min_quality_ok], [no_conflict] and decision. *)
Theorem policy_gate_decision (claim : ClaimIn) (st : state env) :
  exists conflict st1 status tail,
    _has_conflicts env claim st = (Return conflict, st1)
    /\ (status = "approved"
          /\ Spec.auto_merge AUTO_TRUST MIN_QUAL claim (_trust_score claim) conflict
        \/ status = "pending"
          /\ ~ Spec.auto_merge AUTO_TRUST MIN_QUAL claim (_trust_score claim) conflict)
    /\ calls (snd (propose_claim env AUTO_TRUST MIN_QUAL claim st))
       = (calls st ++ [KgPost "/cypher" (conflict_body claim);
                       KgPost "/propose_claim" (Body_claim claim status)] ++ tail)%list
    /\ (tail = [] \/ status = "approved" /\ exists cid,
          tail = [KgPost "/approve" (Body_json (JObj [("claim_id", cid)]))])
    /\ forall out st',
         propose_claim env AUTO_TRUST MIN_QUAL claim st = (Return out, st') ->
         trust out = _trust_score claim
         /\ (min_quality_ok out = true <-> Spec.min_qual_ok MIN_QUAL (evidence claim))
         /\ no_conflict out = negb conflict
         /\ (decision out = "T1-auto-merge" /\ status = "approved"
             \/ decision out = "T2-review" /\ status = "pending").
Proof. apply gate_run. Qed.

(** Reading the answer raises exactly when the answer cannot be read. *)
Lemma conflicts_in_raises claim res (st : state env) :
  is_raise (fst (conflicts_in env claim res st)) = true
  <-> Spec.unreadable_answer claim res.
Proof.
  unfold Spec.unreadable_answer, conflicts_in, bind, lift, ret.
  destruct res as [ | | | | | |d]; try (split; [intros _; exact I | reflexivity]).
  cbn [attr_get]. unfold dict_get.
  destruct (dict_lookup "records" d) as [recs|].
  2:{ cbn. destruct (String.eqb (object_kind claim) "entity"); cbn;
        (split; [discriminate | intros []]). }
  destruct recs as [ | | | |s|l|r]; try (split; [intros _; exact I | reflexivity]).
  - destruct s as [|c s]; split; try (intros _; exact I); reflexivity.
  - destruct l as [|first l]; [split; [intros _; exact I | reflexivity]|].
    cbn [index0 fst]. unfold or_else.
    destruct (json_truthy first) eqn:Ht.
    + destruct first as [ |b|n|x|s|l'|r];
        try (split; [intros _; reflexivity | reflexivity]); try discriminate.
      cbn [attr_get]. unfold dict_get.
      destruct (dict_lookup "objs" r) as [objs|].
      * destruct (String.eqb_spec (object_kind claim) "entity") as [Hk | Hk].
        -- destruct objs; cbn; split; try discriminate; try tauto;
             try (intros _; split; [assumption | tauto]).
        -- cbn. split; [discriminate | intros [? _]; contradiction].
      * cbn. destruct (String.eqb (object_kind claim) "entity"); cbn;
          (split; [discriminate | intros []]).
    + cbn. destruct (String.eqb (object_kind claim) "entity"); cbn.
      * destruct first as [ |b|n|x|s|l'|r]; split; try discriminate;
          try (intros H; congruence).
        destruct r; [intros [] | discriminate].
      * destruct first as [ |b|n|x|s|l'|r]; split; try discriminate;
          try (intros H; congruence).
        destruct r; [intros [] | discriminate].
Qed.

Lemma has_conflicts_failed claim (st : state env) :
  Spec.check_failed claim (fst (kg_reply env "/cypher" (conflict_body claim) (world st))) ->
  fst (_has_conflicts env claim st) = Return true.
Proof.
  intros [Hfail | (code & text & res & Hrep & Hun)].
  - destruct (has_conflicts_returns claim st) as (c & st1 & -> & _ & Htrue).
    cbn. f_equal. apply Htrue. now apply kg_post_failed.
  - unfold _has_conflicts, try_except, bind at 1, _kg_post.
    destruct (kg_reply env "/cypher" (conflict_body claim) (world st)) as [rep w].
    cbn [fst] in Hrep. subst rep.
    destruct (400 <=? code)%Z; [reflexivity|].
    match goal with |- context [conflicts_in env claim res ?s] =>
      pose proof (proj2 (conflicts_in_raises claim res s) Hun) as Hr;
      destruct (conflicts_in env claim res s) as [[b|e] s1] end;
      [discriminate | reflexivity].
Qed.

(** C3, as amended. When the conflict check fails, that is when the
    graph-store query fails (no response, an error status, or a body that
    is not JSON) or its answer cannot be read, the detector answers
    "conflict", and the gate sends the proposal to the ledger as "pending"
    and decides for review. *)
Theorem conflict_check_fails_closed (claim : ClaimIn) (st : state env) :
  Spec.check_failed claim (fst (kg_reply env "/cypher" (conflict_body claim) (world st))) ->
  fst (_has_conflicts env claim st) = Return true
  /\ calls (snd (propose_claim env AUTO_TRUST MIN_QUAL claim st))
     = (calls st ++ [KgPost "/cypher" (conflict_body claim);
                     KgPost "/propose_claim" (Body_claim claim "pending")])%list
  /\ forall out st',
       propose_claim env AUTO_TRUST MIN_QUAL claim st = (Return out, st') ->
       decision out = "T2-review" /\ no_conflict out = false.
Proof.
  intros Hfail. apply has_conflicts_failed in Hfail.
  destruct (gate_run claim st)
    as (conflict & st1 & status & tail & Hc & Hst & Hcalls & Htail & Hout).
  rewrite Hc in Hfail. cbn in Hfail. injection Hfail as ->.
  assert (status = "pending" /\ tail = []) as [-> ->].
  { destruct Hst as [[_ (_ & _ & _ & _ & [=])] | [-> _]].
    split; [reflexivity|]. destruct Htail as [|[[=] _]]; assumption. }
  split; [now rewrite Hc|]. split; [now rewrite Hcalls|].
  intros out st' Hrun. destruct (Hout out st' Hrun) as (_ & _ & Hnc & [[_ [=]] | [Hd _]]).
  auto.
Qed.
End PolicyGate.

Lemma conflict_check_fails_closed_witness :
  let env := Examples.scripted "" [] Examples.no_records in
  let st := Examples.fresh env tt in
  fst (Gateway._has_conflicts env Examples.demo_claim st) = Return true
  /\ Gateway.calls (snd (Gateway.propose_claim env Gateway.AUTO_TRUST_default
                           Gateway.MIN_QUAL_default Examples.demo_claim st))
     = [Gateway.KgPost "/cypher" (Gateway.conflict_body Examples.demo_claim);
        Gateway.KgPost "/propose_claim" (Gateway.Body_claim Examples.demo_claim "pending")].
Proof.
  intros env st.
  destruct (conflict_check_fails_closed env Gateway.AUTO_TRUST_default
              Gateway.MIN_QUAL_default Examples.demo_claim st) as (H1 & H2 & _).
  - right. exists 200%Z, "<json>", (JObj [("records", JArr [])]).
    split; [reflexivity | exact I].
  - split; [exact H1 | exact H2].
Defined.

(** An answer without records, or with a null first record, is read as
    "no objects": the detector finds no conflict and the gate auto-merges. *)
Lemma shapeless_answer_is_no_conflict :
  let env := Examples.scripted "" [] Examples.empty_object in
  let st := Examples.fresh env tt in
  let env' := Examples.scripted "" [] Examples.null_record in
  fst (Gateway._has_conflicts env Examples.demo_claim st) = Return false
  /\ fst (Gateway._has_conflicts env' Examples.demo_claim (Examples.fresh env' tt))
     = Return false
  /\ Gateway.calls (snd (Gateway.propose_claim env Gateway.AUTO_TRUST_default
                           Gateway.MIN_QUAL_default Examples.demo_claim st))
     = [Gateway.KgPost "/cypher" (Gateway.conflict_body Examples.demo_claim);
        Gateway.KgPost "/propose_claim" (Gateway.Body_claim Examples.demo_claim "approved")]
  /\ exists out,
       fst (Gateway.propose_claim env Gateway.AUTO_TRUST_default
              Gateway.MIN_QUAL_default Examples.demo_claim st) = Return out
       /\ Gateway.decision out = "T1-auto-merge".
Proof.
  intros env st env'. split; [reflexivity|]. split; [reflexivity|].
  split; [vm_compute; reflexivity|].
  eexists. split; [vm_compute; reflexivity | reflexivity].
Qed.

(** ** The conflict detector over the graph *)
Section ConflictDetector.
Import Gateway.

(** What the detector answers when the store returns the row [objs]. *)
Lemma has_conflicts_on_answer (env : Env) claim (st : state env) code text objs w :
  kg_reply env "/cypher" (conflict_body claim) (world st)
  = (Response code text
       (Some (JObj [("records", JArr [JObj [("objs", JArr (JStr <$> objs))]])])), w) ->
  (code < 400)%Z ->
  fst (_has_conflicts env claim st)
  = Return (String.eqb (object_kind claim) "entity"
            && existsb (fun o => negb (String.eqb o (object_value claim))) objs).
Proof.
  intros Hrep Hcode.
  unfold _has_conflicts, try_except, bind at 1, _kg_post. rewrite Hrep.
  apply Z.leb_gt in Hcode. rewrite Hcode.
  unfold conflicts_in, bind, lift, ret. cbn.
  destruct (String.eqb (object_kind claim) "entity"); cbn; [|reflexivity].
  f_equal. clear Hrep. induction objs as [|o os IH]; [reflexivity|].
  cbn. now rewrite IH.
Qed.

Variable uuid : nat -> string.
Variable other_cypher : string -> dict -> KgApi.Tx (list dict).
Variable dumps : json -> string.

Lemma kg_api_conflict_query claim st :
  KgApi.driver st = true ->
  exists text,
    Deployment.kg_api uuid other_cypher dumps "/cypher" (conflict_body claim) st
    = (Response 200 text
         (Some (JObj [("records",
                       JArr [JObj [("objs",
                          JArr (JStr <$> KgApi.targets (subject_id claim)
                                           (predicate claim) st))]])])), st).
Proof.
  intros Hd. unfold Deployment.kg_api.
  change (String.eqb "/cypher" "/cypher") with true. cbv iota.
  unfold conflict_body, Deployment.as_cypher_body.
  change (dict_lookup "query" _) with (Some (JStr conflict_query)).
  change (dict_lookup "params" _)
    with (Some (JObj [("sid", JStr (subject_id claim));
                      ("pred", JStr (predicate claim))])).
  unfold Deployment.serve, KgApi.cypher. rewrite Hd.
  unfold KgApi.tx_bind, KgApi.session_run. cbn [KgApi.query KgApi.params negb].
  rewrite String.eqb_refl. unfold KgApi.conflict_rows.
  change (dict_lookup "sid" _) with (Some (JStr (subject_id claim))).
  change (dict_lookup "pred" _) with (Some (JStr (predicate claim))).
  eexists. reflexivity.
Qed.

Lemma targets_spec st s p o :
  o ∈ KgApi.targets s p st <-> Spec.reachable st s p o.
Proof.
  unfold KgApi.targets, Spec.reachable. case_bool_decide as Hs.
  - rewrite elem_of_remove_dups, list_elem_of_fmap. split.
    + intros (e & -> & He). apply list_elem_of_filter in He as [[? ?] He]. eauto 10.
    + intros (_ & e & He & <- & <- & <-). exists e. split; [reflexivity|].
      apply list_elem_of_filter. auto.
  - split; [intros H; inversion H | tauto].
Qed.

(** C4, as amended. When the KG-API answers the query, the detector reports
    a conflict exactly when the object is an entity and some object reachable
    from the subject by an edge of the predicate's type differs from the
    proposed one; a literal proposal then never conflicts. *)
Theorem conflict_detector_on_graph claim st cs :
  KgApi.driver st = true ->
  exists conflict,
    fst (_has_conflicts (Deployment.env uuid other_cypher dumps) claim
           (Build_state (Deployment.env uuid other_cypher dumps) st cs))
    = Return conflict
    /\ (conflict = true <->
        object_kind claim = "entity"
        /\ exists o, Spec.reachable st (subject_id claim) (predicate claim) o
                     /\ o ≠ object_value claim)
    /\ (object_kind claim = "literal" -> conflict = false).
Proof.
  intros Hd. destruct (kg_api_conflict_query claim st Hd) as [text Hq].
  eexists. split; [|split].
  - eapply has_conflicts_on_answer; [exact Hq | lia].
  - rewrite andb_true_iff, String.eqb_eq, existsb_exists.
    split; intros [Hk (o & Ho & Hne)]; (split; [assumption|]); exists o.
    + apply list_elem_of_In, targets_spec in Ho. apply negb_true_iff, String.eqb_neq in Hne. auto.
    + split; [apply list_elem_of_In, targets_spec, Ho | now apply negb_true_iff, String.eqb_neq].
  - intros ->. reflexivity.
Qed.
End ConflictDetector.

Lemma conflict_detector_on_graph_witness :
  exists conflict,
    fst (Gateway._has_conflicts Examples.deployed Examples.literal_claim
           (Examples.fresh Examples.deployed KgApi.started)) = Return conflict
    /\ conflict = false.
Proof.
  destruct (conflict_detector_on_graph Examples.uuid Examples.no_cypher Examples.dumps
              Examples.literal_claim KgApi.started [] eq_refl) as (c & H1 & _ & H3).
  exists c. split; [exact H1 | apply H3; reflexivity].
Defined.

Lemma literal_conflict_when_store_is_down :
  fst (Gateway._has_conflicts Examples.unreachable Examples.literal_claim
         (Examples.fresh Examples.unreachable tt)) = Return true
  /\ object_kind Examples.literal_claim ≠ "entity".
Proof. split; [reflexivity | discriminate]. Qed.

(** ** The claim ledger *)
Section Ledger.
Import KgApi.
Variable uuid : nat -> string.

Lemma create_evidence_graph cid e st r st' :
  create_evidence uuid cid e st = (r, st') -> unchanged_graph st st'.
Proof.
  unfold create_evidence, tx_bind, apoc_create_uuid, unchanged_graph. cbn.
  destruct (evidences st !! uuid (drawn st)); cbn; [now intros [= <- <-]|].
  destruct (claims st !! cid); cbn; now intros [= <- <-].
Qed.

Lemma write_evidence_pg_graph e st r st' :
  _write_evidence_pg e st = (r, st') -> unchanged_graph st st'.
Proof.
  unfold _write_evidence_pg, unchanged_graph.
  destruct (pg_conn st); cbn; now intros [= <- <-].
Qed.

Lemma unchanged_graph_trans st1 st2 st3 :
  unchanged_graph st1 st2 -> unchanged_graph st2 st3 -> unchanged_graph st1 st3.
Proof. unfold unchanged_graph. intros (-> & -> & ->) (-> & -> & ->). auto. Qed.

Lemma link_evidence_graph cid es : forall st r st',
  link_evidence uuid cid es st = (r, st') -> unchanged_graph st st'.
Proof.
  induction es as [|e es IH]; intros st r st' H.
  - injection H as <- <-. now unfold unchanged_graph.
  - cbn [link_evidence] in H. unfold tx_bind at 1 in H.
    destruct (create_evidence uuid cid e st) as [[[]|err] st1] eqn:E1;
      apply create_evidence_graph in E1; [|now injection H as <- <-].
    unfold tx_bind at 1 in H.
    destruct (_write_evidence_pg e st1) as [[[]|err] st2] eqn:E2;
      apply write_evidence_pg_graph in E2.
    + eauto using unchanged_graph_trans.
    + injection H as <- <-. eauto using unchanged_graph_trans.
Qed.

(** What one more relationship and the mark on the claim look like. *)
Lemma materialize_effect cid s p o st :
  let st' := snd (materialize cid s p o st) in
  fst (materialize cid s p o st) = Return tt
  /\ (st' = st
      \/ exists c, claims st !! cid = Some c
           /\ claims st' = <[cid := approved c]> (claims st)
           /\ edges st' = (edges st ++ [{| src := s; rel_type := p; dst := o |}])%list
           /\ s ∈ entities st /\ o ∈ entities st).
Proof.
  unfold materialize. destruct (claims st !! cid) as [c|] eqn:Hc; [|cbn; auto].
  case_bool_decide as Hs; cbn; [|auto]. case_bool_decide as Ho; cbn; [|auto].
  split; [reflexivity|]. right. exists c. auto.
Qed.

(** The node [create_claim] makes for a proposal. *)
Lemma create_claim_effect p st r st' :
  create_claim uuid p st = (r, st') ->
  (is_raise r = true /\ unchanged_graph st st')
  \/ exists c, r = Return c
       /\ claims st !! c_id c = None
       /\ claims st' = <[c_id c := c]> (claims st)
       /\ edges st' = edges st /\ entities st' = entities st
       /\ c_subject_id c = subject_id p /\ c_predicate c = predicate p
       /\ c_object_value c = object_value p /\ c_object_kind c = object_kind p
       /\ c_status c = status p.
Proof.
  unfold create_claim, tx_bind, apoc_create_uuid. cbn.
  destruct (claims st !! uuid (drawn st)) eqn:E; cbn; intros [= <- <-].
  - left. now unfold unchanged_graph.
  - right. eexists. split; [reflexivity|]. cbn. auto 10.
Qed.

Lemma set_status_effect cid f st :
  let st' := snd (set_status cid f st) in
  fst (set_status cid f st) = Return tt
  /\ edges st' = edges st /\ entities st' = entities st
  /\ (claims st' = claims st /\ claims st !! cid = None
      \/ exists c, claims st !! cid = Some c /\ claims st' = <[cid := f c]> (claims st)).
Proof.
  unfold set_status, tx_do. cbn. split; [reflexivity|]. split; [reflexivity|].
  split; [reflexivity|]. destruct (claims st !! cid) eqn:E; eauto.
Qed.

Lemma rollback_graph st st' :
  unchanged_graph st (set_drawn (drawn st') (set_pg_evidence (fun _ => pg_evidence st') st)).
Proof. now unfold unchanged_graph. Qed.

Lemma is_str_eq o s : is_str o s = true <-> o = Some s.
Proof.
  destruct o as [t|]; cbn; [|split; discriminate].
  rewrite String.eqb_eq. split; congruence.
Qed.

(** What a proposal does: it fails and leaves the graph as it was, or it
    adds one claim with the status it was given, and one edge when that
    status is "approved" and the object is an entity. *)
Lemma propose_claim_effect p st r st' :
  propose_claim uuid p st = (r, st') ->
  (is_raise r = true /\ unchanged_graph st st')
  \/ exists c0 c,
       r = Return (JObj [("ok", JBool true); ("claim", _serialize_neo4j c0)])
       /\ c_id c0 = c_id c
       /\ claims st !! c_id c = None
       /\ claims st' = <[c_id c := c]> (claims st)
       /\ c_subject_id c = subject_id p /\ c_predicate c = predicate p
       /\ c_object_value c = object_value p /\ c_object_kind c = object_kind p
       /\ c_status c = status p
       /\ edges st'
          = (edges st
             ++ if is_str (status p) "approved" && String.eqb (object_kind p) "entity"
                then [{| src := subject_id p; rel_type := predicate p;
                         dst := object_value p |}]
                else [])%list.
Proof.
  intros Hrun. unfold propose_claim in Hrun.
  destruct (driver st); cbn [negb] in Hrun;
    [|injection Hrun as <- <-; left; now unfold unchanged_graph].
  unfold tx_bind at 1, execute_write in Hrun.
  destruct ((_ <~ _ensure_entity (subject_id p) ;; _) st) as [rt stf] eqn:Htx.
  unfold tx_bind at 1 in Htx. unfold _ensure_entity at 1, tx_do in Htx.
  set (st1 := set_entities _ st) in Htx.
  unfold tx_bind at 1 in Htx.
  set (m2 := if String.eqb (object_kind p) "entity" then _ else _) in Htx.
  assert (exists st2, m2 st1 = (Return tt, st2)
            /\ claims st2 = claims st /\ edges st2 = edges st
            /\ subject_id p ∈ entities st2
            /\ (object_kind p = "entity" -> object_value p ∈ entities st2))
    as (st2 & Hm2 & Hc2 & He2 & Hsub & Hobj).
  { subst m2 st1. destruct (String.eqb_spec (object_kind p) "entity") as [Hk | Hk];
      eexists; (split; [reflexivity|]); cbn; repeat split; auto; set_solver. }
  rewrite Hm2 in Htx. clear Hm2 m2.
  unfold tx_bind at 1 in Htx.
  destruct (create_claim uuid p st2) as [rc st3] eqn:Hcreate.
  apply create_claim_effect in Hcreate
    as [[Hr (Hc3 & He3 & _)] | (c & -> & Hfresh & Hc3 & He3 & Hn3 & Hs & Hp & Ho & Hk & Hst)].
  { destruct rc; [discriminate|]. injection Htx as <- <-. injection Hrun as <- <-.
    left. split; [reflexivity | apply rollback_graph]. }
  unfold tx_bind at 1 in Htx.
  destruct (link_evidence uuid (c_id c) (evidence p) st3) as [rl st4] eqn:Hlink.
  apply link_evidence_graph in Hlink as (Hc4 & He4 & Hn4).
  destruct rl as [[]|err];
    [|injection Htx as <- <-; injection Hrun as <- <-; left;
      split; [reflexivity | apply rollback_graph]].
  unfold tx_bind at 1 in Htx.
  rewrite Hc2 in Hfresh, Hc3. rewrite He2 in He3. rewrite Hc3 in Hc4. rewrite He3 in He4.
  rewrite Hn3 in Hn4.
  destruct (is_str (status p) "approved" && String.eqb (object_kind p) "entity") eqn:Hcond.
  - apply andb_true_iff in Hcond as [Hap Hent]. apply String.eqb_eq in Hent.
    apply is_str_eq in Hap.
    unfold materialize in Htx.
    rewrite Hc4, lookup_insert_eq, Hn4 in Htx.
    rewrite !bool_decide_eq_true_2 in Htx by auto. cbn [andb] in Htx.
    unfold tx_ret in Htx. injection Htx as <- <-. cbn in Hrun. injection Hrun as <- <-.
    right. exists c, (approved c).
    cbn [approved c_id c_subject_id c_predicate c_object_value c_object_kind c_status
           claims edges set_claims set_edges].
    rewrite Hc4, insert_insert_eq, He4. auto 12.
  - unfold tx_ret in Htx. injection Htx as <- <-.
    cbn in Hrun. injection Hrun as <- <-.
    right. exists c, c. rewrite Hc4, He4, app_nil_r. auto 12.
Qed.

(** A proposal that succeeds is stored with the status it came with. *)
Lemma ledger_stores_given_status p st j st' :
  propose_claim uuid p st = (Return j, st') ->
  exists c node,
    claims st' !! c_id c = Some c
    /\ c_status c = status p
    /\ subscript j "claim" = Return node
    /\ subscript node "id" = Return (JStr (c_id c)).
Proof.
  intros Hrun. apply propose_claim_effect in Hrun
    as [[[=] _] | (c0 & c & [= ->] & Hid & _ & Hc & _ & _ & _ & _ & Hst & _)].
  exists c, (_serialize_neo4j c0). rewrite Hc, lookup_insert_eq.
  split; [reflexivity|]. split; [assumption|]. split; [reflexivity|].
  cbn. now rewrite Hid.
Qed.

Lemma propose_effect p st :
  let st' := step uuid st (Propose p) in
  unchanged_graph st st'
  \/ exists c,
       claims st !! c_id c = None
       /\ claims st' = <[c_id c := c]> (claims st)
       /\ c_subject_id c = subject_id p /\ c_predicate c = predicate p
       /\ c_object_value c = object_value p /\ c_object_kind c = object_kind p
       /\ (edges st' = edges st /\ c_status c = status p
           \/ edges st'
              = (edges st ++ [{| src := subject_id p; rel_type := predicate p;
                                 dst := object_value p |}])%list
              /\ c_status c = Some "approved" /\ object_kind p = "entity").
Proof.
  unfold step, handle. destruct (propose_claim uuid p st) as [r st'] eqn:Hrun.
  apply propose_claim_effect in Hrun
    as [[_ H] | (c0 & c & _ & _ & Hfresh & Hc & Hs & Hp & Ho & Hk & Hst & He)];
    cbn; [now left | right].
  exists c. repeat (split; [assumption|]).
  destruct (is_str (status p) "approved" && String.eqb (object_kind p) "entity") eqn:Hcond.
  - right. apply andb_true_iff in Hcond as [Hap Hent].
    apply is_str_eq in Hap. apply String.eqb_eq in Hent.
    split; [assumption|]. split; [congruence | assumption].
  - left. rewrite app_nil_r in He. auto.
Qed.

(** Approving an entity claim whose nodes are there adds one more edge,
    whatever the status of the claim was. *)
Lemma approve_adds_an_edge body c st :
  driver st = true ->
  claims st !! claim_id body = Some c ->
  c_object_kind c = "entity" ->
  c_subject_id c ∈ entities st -> c_object_value c ∈ entities st ->
  edges (step uuid st (Approve body))
  = (edges st ++ [{| src := c_subject_id c; rel_type := c_predicate c;
                     dst := c_object_value c |}])%list.
Proof.
  intros Hd Hc Hk Hs Ho. unfold step, handle, approve. rewrite Hd. cbn [negb].
  unfold tx_bind at 1, execute_write. rewrite Hc, Hk.
  change (String.eqb "entity" "entity") with true. cbv iota.
  unfold materialize. rewrite Hc, !bool_decide_eq_true_2 by assumption.
  reflexivity.
Qed.

Lemma approve_effect body st :
  let st' := step uuid st (Approve body) in
  unchanged_graph st st'
  \/ exists c, claims st !! claim_id body = Some c
       /\ claims st' = <[claim_id body := approved c]> (claims st)
       /\ (edges st' = edges st
           \/ edges st'
              = (edges st ++ [{| src := c_subject_id c; rel_type := c_predicate c;
                                 dst := c_object_value c |}])%list
              /\ c_object_kind c = "entity").
Proof.
  intros st'. assert (Hst' : step uuid st (Approve body) = st') by reflexivity.
  clearbody st'. unfold step, handle, approve in Hst'.
  destruct (driver st); cbn [negb] in Hst';
    [|subst st'; left; now unfold unchanged_graph].
  unfold tx_bind at 1, execute_write in Hst'.
  destruct (claims st !! claim_id body) as [c|] eqn:Hc;
    [|subst st'; left; apply rollback_graph].
  destruct (String.eqb (c_object_kind c) "entity") eqn:Hk.
  - apply String.eqb_eq in Hk.
    pose proof (materialize_effect (claim_id body) (c_subject_id c) (c_predicate c)
                  (c_object_value c) st) as [Hret Hm].
    destruct (materialize _ _ _ _ st) as [rm st1]. cbn in Hret, Hm. subst rm.
    cbn in Hst'. subst st'.
    destruct Hm as [Heq | (c' & Hc' & Hcl & Hed & _)];
      [left; rewrite Heq; now unfold unchanged_graph|].
    rewrite Hc in Hc'. injection Hc' as <-. right. exists c. auto.
  - pose proof (set_status_effect (claim_id body) approved st) as (Hret & He & _ & Hcl).
    destruct (set_status _ _ st) as [rs st1]. cbn in Hret, He, Hcl. subst rs.
    cbn in Hst'. subst st'.
    destruct Hcl as [[Hcl Hnone] | (c' & Hc' & Hcl)]; [congruence|].
    rewrite Hc in Hc'. injection Hc' as <-. right. exists c. auto.
Qed.

Lemma reject_effect body st :
  let st' := step uuid st (Reject body) in
  edges st' = edges st
  /\ (claims st' = claims st
      \/ exists c, claims st !! claim_id body = Some c
           /\ claims st' = <[claim_id body := rejected c]> (claims st)).
Proof.
  intros st'. assert (Hst' : step uuid st (Reject body) = st') by reflexivity.
  clearbody st'. unfold step, handle, reject in Hst'.
  destruct (driver st); cbn [negb] in Hst'; [|subst st'; cbn; auto].
  unfold tx_bind at 1 in Hst'.
  pose proof (set_status_effect (claim_id body) rejected st) as (Hret & He & _ & Hcl).
  destruct (set_status _ _ st) as [rs st1]. cbn in Hret, He, Hcl. subst rs.
  cbn in Hst'. subst st'.
  split; [assumption|]. destruct Hcl as [[Hcl _] | Hcl]; auto.
Qed.

Lemma claim_id_eta body : {| claim_id := claim_id body |} = body.
Proof. now destruct body. Qed.

Lemma edges_have_claims_mono ops o st :
  Spec.edges_have_claims ops st -> Spec.edges_have_claims (ops ++ [o])%list st.
Proof.
  intros H e He. destruct (H e He) as (cid & c & Hc & Hce & Hst).
  exists cid, c. split; [assumption|]. split; [assumption|].
  destruct Hst as [|[? ?]]; [now left | right]. split; [assumption|].
  apply elem_of_app. now left.
Qed.

(** An operation keeps the invariant. *)
Lemma edges_have_claims_step ops st o :
  Spec.edges_have_claims ops st ->
  Spec.edges_have_claims (ops ++ [o])%list (step uuid st o).
Proof.
  intros Hinv. apply (edges_have_claims_mono _ o) in Hinv.
  destruct o as [p | body | body].
  - destruct (propose_effect p st) as [(Hc & He & _) | (c & Hfresh & Hc & Hs & Hp & Ho & Hk & Hed)].
    + intros e. rewrite He, Hc. apply Hinv.
    + assert (Hold : forall e, e ∈ edges st ->
                exists cid c0, claims (step uuid st (Propose p)) !! cid = Some c0
                  /\ Spec.claim_of_edge e c0
                  /\ (c_status c0 = Some "approved"
                      \/ c_status c0 = Some "rejected"
                         /\ Reject {| claim_id := cid |} ∈ (ops ++ [Propose p])%list)).
      { intros e He. destruct (Hinv e He) as (cid & c0 & Hc0 & Hrest).
        exists cid, c0. split; [|assumption].
        rewrite Hc, lookup_insert_ne; [assumption|]. intros <-. congruence. }
      intros e He. destruct Hed as [[Hed _] | (Hed & Hst & Hent)]; rewrite Hed in He.
      * now apply Hold.
      * apply elem_of_app in He as [He | He]; [now apply Hold|].
        apply list_elem_of_singleton in He as ->.
        exists (c_id c), c. rewrite Hc, lookup_insert_eq.
        split; [reflexivity|]. split; [|now left].
        unfold Spec.claim_of_edge. cbn. rewrite Hk. auto.
  - destruct (approve_effect body st) as [(Hc & He & _) | (c & Hfound & Hc & Hed)].
    + intros e. rewrite He, Hc. apply Hinv.
    + assert (Hold : forall e, e ∈ edges st ->
                exists cid c0, claims (step uuid st (Approve body)) !! cid = Some c0
                  /\ Spec.claim_of_edge e c0
                  /\ (c_status c0 = Some "approved"
                      \/ c_status c0 = Some "rejected"
                         /\ Reject {| claim_id := cid |} ∈ (ops ++ [Approve body])%list)).
      { intros e He. destruct (Hinv e He) as (cid & c0 & Hc0 & Hce & Hst).
        destruct (decide (cid = claim_id body)) as [-> | Hne].
        - exists (claim_id body), (approved c). rewrite Hc, lookup_insert_eq.
          split; [reflexivity|]. rewrite Hfound in Hc0. injection Hc0 as <-.
          split; [exact Hce | now left].
        - exists cid, c0. rewrite Hc, lookup_insert_ne by congruence. auto. }
      intros e He. destruct Hed as [Hed | (Hed & Hent)]; rewrite Hed in He.
      * now apply Hold.
      * apply elem_of_app in He as [He | He]; [now apply Hold|].
        apply list_elem_of_singleton in He as ->.
        exists (claim_id body), (approved c). rewrite Hc, lookup_insert_eq.
        split; [reflexivity|]. split; [|now left].
        unfold Spec.claim_of_edge. cbn. auto.
  - destruct (reject_effect body st) as [He [Hc | (c & Hfound & Hc)]].
    + intros e. rewrite He, Hc. apply Hinv.
    + intros e. rewrite He. intros Hin.
      destruct (Hinv e Hin) as (cid & c0 & Hc0 & Hce & Hst).
      destruct (decide (cid = claim_id body)) as [-> | Hne].
      * exists (claim_id body), (rejected c). rewrite Hc, lookup_insert_eq.
        split; [reflexivity|]. rewrite Hfound in Hc0. injection Hc0 as <-.
        split; [exact Hce|]. right. split; [reflexivity|].
        rewrite claim_id_eta. apply elem_of_app. right. apply list_elem_of_here.
      * exists cid, c0. rewrite Hc, lookup_insert_ne by congruence. auto.
Qed.

(** The edges an operation adds are for claims it leaves approved. *)
Lemma step_new_edges st o :
  exists new,
    edges (step uuid st o) = (edges st ++ new)%list
    /\ forall e, e ∈ new ->
         exists cid c, claims (step uuid st o) !! cid = Some c
                       /\ Spec.claim_of_edge e c
                       /\ c_status c = Some "approved".
Proof.
  destruct o as [p | body | body].
  - destruct (propose_effect p st)
      as [(_ & He & _) | (c & _ & Hc & Hs & Hp & Ho & Hk & [[He _] | (He & Hst & Hent)])].
    + exists []. rewrite He, app_nil_r. split; [reflexivity|]. intros e H; inversion H.
    + exists []. rewrite He, app_nil_r. split; [reflexivity|]. intros e H; inversion H.
    + eexists. split; [exact He|]. intros e ->%list_elem_of_singleton.
      exists (c_id c), c. rewrite Hc, lookup_insert_eq. split; [reflexivity|].
      split; [|assumption]. unfold Spec.claim_of_edge. cbn. rewrite Hk. auto.
  - destruct (approve_effect body st)
      as [(_ & He & _) | (c & _ & Hc & [He | (He & Hent)])].
    + exists []. rewrite He, app_nil_r. split; [reflexivity|]. intros e H; inversion H.
    + exists []. rewrite He, app_nil_r. split; [reflexivity|]. intros e H; inversion H.
    + eexists. split; [exact He|]. intros e ->%list_elem_of_singleton.
      exists (claim_id body), (approved c). rewrite Hc, lookup_insert_eq.
      split; [reflexivity|]. split; [|reflexivity]. unfold Spec.claim_of_edge. cbn. auto.
  - destruct (reject_effect body st) as [He _].
    exists []. rewrite He, app_nil_r. split; [reflexivity|]. intros e H; inversion H.
Qed.

Lemma run_snoc ops o st : run uuid (ops ++ [o])%list st = step uuid (run uuid ops st) o.
Proof. unfold run. now rewrite fold_left_app. Qed.

(** C5, as amended. In every state reached by propose, approve and reject
    operations, every edge has a claim of the same subject, predicate and
    object, of kind entity, which is approved unless one of the operations
    rejected it; without rejections every edge has an approved claim. An
    operation only adds edges, and the edges it adds are for claims that are
    approved when it ends. *)
Theorem ledger_edges_have_claims (ops : list op) :
  let st := run uuid ops started in
  Spec.edges_have_claims ops st
  /\ ((forall body, Reject body ∉ ops) -> Spec.edges_have_approved_claims st)
  /\ forall o, exists new,
       edges (step uuid st o) = (edges st ++ new)%list
       /\ forall e, e ∈ new ->
            exists cid c, claims (step uuid st o) !! cid = Some c
                          /\ Spec.claim_of_edge e c
                          /\ c_status c = Some "approved".
Proof.
  assert (Hinv : Spec.edges_have_claims ops (run uuid ops started)).
  { induction ops as [|o ops IH] using rev_ind.
    - intros e He. inversion He.
    - rewrite run_snoc. now apply edges_have_claims_step. }
  cbn zeta. split; [exact Hinv|]. split; [|apply step_new_edges].
  intros Hno e He. destruct (Hinv e He) as (cid & c & Hc & Hce & [Hst | [_ Hrej]]).
  - eauto.
  - now apply Hno in Hrej.
Qed.
End Ledger.

Lemma reject_keeps_the_edge :
  ~ Spec.edges_have_approved_claims
      (KgApi.run Examples.uuid
         [KgApi.Propose (Examples.proposal "pending");
          KgApi.Approve {| KgApi.claim_id := "id-0" |};
          KgApi.Reject {| KgApi.claim_id := "id-0" |}] KgApi.started).
Proof.
  set (st := KgApi.run _ _ _).
  assert (He : KgApi.edges st = [Examples.demo_edge]) by (vm_compute; reflexivity).
  assert (exists c, KgApi.claims st = {[ "id-0" := c ]} /\ KgApi.c_status c = Some "rejected")
    as (c0 & Hc & Hst).
  { eexists. split; [vm_compute; reflexivity | reflexivity]. }
  intros H. destruct (H Examples.demo_edge) as (cid & c & Hl & _ & Hap).
  - rewrite He. apply list_elem_of_here.
  - rewrite Hc in Hl. apply lookup_singleton_Some in Hl as [_ <-]. congruence.
Qed.

(** C6, evaluated. Approving the claim of the end-to-end example after it was
    proposed as approved leaves two edges Run:demo -USES-> Model:v2, and so
    does one auto-merged proposal through the gateway, whose follow-up
    approve is sent although the ledger stored the claim as approved. *)
Theorem approve_duplicates_edge :
  Spec.edge_count
    (KgApi.run Examples.uuid
       [KgApi.Propose (Examples.proposal "approved");
        KgApi.Approve {| KgApi.claim_id := "id-0" |}] KgApi.started)
    "Run:demo" "USES" "Model:v2" = 2
  /\ Spec.edge_count
       (Gateway.world
          (snd (Gateway.propose_claim Examples.deployed Gateway.AUTO_TRUST_default
                  Gateway.MIN_QUAL_default Examples.demo_claim
                  (Examples.fresh Examples.deployed KgApi.started))))
       "Run:demo" "USES" "Model:v2" = 2.
Proof. split; vm_compute; reflexivity. Qed.

(** ** The safety filter of the [cypher] tool *)
Section CypherFilter.
Import Gateway.

Lemma app_String c p post : String c p ++ post = String c (p ++ post).
Proof. reflexivity. Qed.

Lemma startswith_spec p s :
  startswith p s = true <-> exists post, s = p ++ post.
Proof.
  unfold startswith. revert s. induction p as [|c p IH]; intros s.
  - destruct s; cbn; split; eauto.
  - destruct s as [|c' s]; cbn.
    + split; [discriminate | intros [post H]; rewrite app_String in H; discriminate].
    + destruct (ascii_dec c c') as [<- | Hne].
      * rewrite IH. split; intros [post H]; exists post; rewrite app_String in *; congruence.
      * split; [discriminate | intros [post H]; rewrite app_String in H; congruence].
Qed.

Lemma contains_spec b s : contains b s = true <-> Spec.occurs_in b s.
Proof.
  unfold Spec.occurs_in. induction s as [|c s IH]; cbn [contains].
  - rewrite orb_false_r, startswith_spec. split.
    + intros [post H]. exists "", post. exact H.
    + intros (pre & post & H). destruct pre; [eauto | discriminate].
  - rewrite orb_true_iff, startswith_spec, IH. split.
    + intros [[post H] | (pre & post & H)].
      * exists "", post. exact H.
      * exists (String c pre), post. rewrite app_String. now rewrite H.
    + intros (pre & post & H). destruct pre as [|c' pre].
      * left. eauto.
      * right. rewrite app_String in H. injection H as _ H. eauto.
Qed.

Lemma cypher_safe_spec q :
  _cypher_safe q = true <-> forall b, b ∈ bad -> ~ Spec.occurs_in b q.
Proof.
  unfold _cypher_safe. rewrite negb_true_iff, <- not_true_iff_false, existsb_exists.
  split.
  - intros H b Hb Hocc. apply H. exists b. split; [now apply list_elem_of_In|].
    now apply contains_spec.
  - intros H (b & Hb & Hc). apply (H b); [now apply list_elem_of_In | now apply contains_spec].
Qed.

Lemma any_in_string bs q :
  any_in bs (JStr q) = Return (existsb (fun b => contains b q) bs).
Proof.
  induction bs as [|b bs IH]; [reflexivity|]. cbn.
  destruct (contains b q); [reflexivity | exact IH].
Qed.

Variable env : Env.

(** The outcome of dispatching a [cypher] call whose query is a text. *)
Lemma dispatch_cypher req args q (st : state env) :
  dict_get "tool" JNull req = JStr "cypher" ->
  dict_get "args" (JObj []) req = JObj args ->
  dict_get "query" (JStr "") args = JStr q ->
  _dispatch_tool env req st
  = if _cypher_safe q
    then _kg_post env "/cypher" (Body_json (JObj args)) st
    else (Raise (HTTPException 400
                   ("Rejected unsafe/unknown Cypher: " ++ take 120 q)), st).
Proof.
  intros Ht Ha Hq. unfold _dispatch_tool. rewrite Ht, Ha.
  change (json_eq_str (JStr "cypher") "cypher") with true.
  change (json_eq_str (JStr "cypher") "neighbors") with false.
  change (json_eq_str (JStr "cypher") "propose_claim") with false.
  cbv iota. unfold bind at 1. unfold bind at 1. cbn [attr_get]. rewrite Hq.
  unfold lift at 1. unfold bind at 1. rewrite any_in_string. unfold lift at 1.
  unfold _cypher_safe. destruct (existsb _ bad); cbn [negb]; reflexivity.
Qed.

(** One turn of the loop, once the model has answered [text]. *)
Lemma query_loop_step n messages trace text w' (st : state env) :
  llm_reply env messages (world st) = (Return text, w') ->
  query_loop env (S n) messages trace st
  = let st1 := Build_state env w' (calls st ++ [LlmChat messages]) in
    let trace1 := (trace ++ [Assistant text])%list in
    let obj := _extract_json env text in
    if dict_has "final" obj then
      (a <- final_answer env obj ;;
       ret {| query_ok := true; answer := a; trace := trace1; data := None |}) st1
    else
      (result <- _dispatch_tool env obj ;;
       query_loop env n
         (messages ++ [("assistant", text); ("tool", json_dumps env result)])%list
         (trace1 ++ [ToolResult result])%list) st1.
Proof.
  intros Hllm. cbn [query_loop]. unfold bind at 1, _call_llm. rewrite Hllm.
  cbv zeta. now destruct (dict_has "final" (_extract_json env text)).
Qed.

(** C7. A [cypher] tool call whose query text contains one of the denylisted
    tokens is rejected with status 400 and nothing is posted to the KG-API:
    the state, and so the list of calls, is left as it was. Inside the agent
    loop the run ends with that error after the call to the model. *)
Theorem unsafe_cypher_is_rejected req args q b (st : state env) :
  dict_get "tool" JNull req = JStr "cypher" ->
  dict_get "args" (JObj []) req = JObj args ->
  dict_get "query" (JStr "") args = JStr q ->
  b ∈ bad -> Spec.occurs_in b q ->
  let rejected :=
    HTTPException 400 ("Rejected unsafe/unknown Cypher: " ++ take 120 q) in
  _dispatch_tool env req st = (Raise rejected, st)
  /\ forall n messages trace text w',
       llm_reply env messages (world st) = (Return text, w') ->
       _extract_json env text = req ->
       dict_has "final" req = false ->
       query_loop env (S n) messages trace st
       = (Raise rejected, Build_state env w' (calls st ++ [LlmChat messages])).
Proof.
  intros Ht Ha Hq Hb Hocc rejected.
  assert (Hunsafe : _cypher_safe q = false).
  { apply not_true_iff_false. rewrite cypher_safe_spec. intros H. now apply (H b). }
  assert (Hd : forall st0 : state env,
             _dispatch_tool env req st0 = (Raise rejected, st0)).
  { intros st0. rewrite (dispatch_cypher req args q st0 Ht Ha Hq), Hunsafe. reflexivity. }
  split; [apply Hd|].
  intros n messages trace text w' Hllm Hreq Hfinal.
  rewrite (query_loop_step _ _ _ _ _ _ Hllm). cbv zeta. rewrite Hreq, Hfinal.
  unfold bind at 1. now rewrite Hd.
Qed.

(** C10. The filter passes a query exactly when none of the six tokens
    [name:], [HAS_KNOWLEDGE], [CREATE ], [MERGE ], [DELETE ], [SET ] occurs
    in it, character for character; a query that passes is posted to
    [/cypher]. So write keywords in lower case, or without the space after
    them, pass. *)
Theorem cypher_filter_is_exact (q : string) :
  bad = ["name:"; "HAS_KNOWLEDGE"; "CREATE "; "MERGE "; "DELETE "; "SET "]
  /\ (_cypher_safe q = true <-> forall b, b ∈ bad -> ~ Spec.occurs_in b q)
  /\ (_cypher_safe q = true ->
      forall req args (st : state env),
        dict_get "tool" JNull req = JStr "cypher" ->
        dict_get "args" (JObj []) req = JObj args ->
        dict_get "query" (JStr "") args = JStr q ->
        _dispatch_tool env req st
        = _kg_post env "/cypher" (Body_json (JObj args)) st
        /\ calls (snd (_dispatch_tool env req st))
           = (calls st ++ [KgPost "/cypher" (Body_json (JObj args))])%list)
  /\ _cypher_safe "match (n) detach delete n" = true
  /\ _cypher_safe "MATCH (n) DETACH DELETE" = true
  /\ _cypher_safe "MATCH (n) SET" = true
  /\ _cypher_safe "MATCH (n) DETACH DELETE n" = false.
Proof.
  split; [reflexivity|]. split; [apply cypher_safe_spec|].
  split; [|repeat split; reflexivity].
  intros Hsafe req args st Ht Ha Hq.
  rewrite (dispatch_cypher req args q st Ht Ha Hq), Hsafe.
  split; [reflexivity | apply kg_post_calls].
Qed.
End CypherFilter.

Lemma unsafe_cypher_is_rejected_witness :
  let env := Examples.scripted Examples.delete_call_text
               [(Examples.delete_call_text, Examples.delete_call)]
               Examples.no_records in
  let st := Examples.fresh env tt in
  fst (Gateway._dispatch_tool env Examples.delete_call st)
  = Raise (HTTPException 400
             "Rejected unsafe/unknown Cypher: MATCH (n) DETACH DELETE n")
  /\ Gateway.calls (snd (Gateway.query env
                           {| Gateway.question := "clean up"; Gateway.max_steps := 4 |}
                           st))
     = [Gateway.LlmChat [("system", "You are a tool-using assistant.");
                         ("user", "clean up")]].
Proof.
  intros env st.
  destruct (unsafe_cypher_is_rejected env Examples.delete_call
              [("query", JStr "MATCH (n) DETACH DELETE n")]
              "MATCH (n) DETACH DELETE n" "DELETE " st) as [H1 H2].
  - reflexivity.
  - reflexivity.
  - reflexivity.
  - unfold Gateway.bad. set_solver.
  - exists "MATCH (n) DETACH ", "n". reflexivity.
  - split; [now rewrite H1|].
    change (Gateway.query env _ st)
      with (Gateway.query_loop env 4 [("system", "You are a tool-using assistant.");
                                      ("user", "clean up")] [] st).
    erewrite H2; [reflexivity | reflexivity | vm_compute; reflexivity | reflexivity].
Defined.

(** ** The agent loop *)

(** *** The search for a JSON object *)
Section BraceSearch.
Import Gateway.

Lemma occurs_in_tail b c s : Spec.occurs_in b s -> Spec.occurs_in b (String c s).
Proof.
  intros (pre & post & ->). exists (String c pre), post. now rewrite app_String.
Qed.

Lemma occurs_in_char_cons a c s :
  Spec.occurs_in (String a "") (String c s) <-> a = c \/ Spec.occurs_in (String a "") s.
Proof.
  split.
  - intros (pre & post & H). destruct pre as [|c' pre].
    + left. change ("" ++ String a "" ++ post) with (String a post) in H. congruence.
    + right. rewrite app_String in H. injection H as _ ->. now exists pre, post.
  - intros [-> | H]; [now exists "", s | now apply occurs_in_tail].
Qed.

Lemma occurs_in_empty a : ~ Spec.occurs_in (String a "") "".
Proof. intros (pre & post & H). destruct pre; discriminate. Qed.

Lemma upto_last_close_None s :
  upto_last_close s = None <-> ~ Spec.occurs_in "}" s.
Proof.
  induction s as [|c s IH]; cbn [upto_last_close].
  - split; [intros _; apply occurs_in_empty | reflexivity].
  - rewrite occurs_in_char_cons.
    destruct (upto_last_close s) as [r|].
    + split; [discriminate|]. intros H. destruct IH as [_ IH].
      discriminate IH. intros Hocc. apply H. now right.
    + destruct IH as [IH _]. specialize (IH eq_refl).
      destruct (Ascii.eqb_spec c "}") as [-> | Hne].
      * split; [discriminate|]. intros H. exfalso. apply H. now left.
      * split; [|reflexivity]. intros _ [Heq | H]; [congruence | contradiction].
Qed.

Lemma upto_last_close_Some s r :
  upto_last_close s = Some r
  <-> exists mid post, r = mid ++ "}" /\ s = mid ++ "}" ++ post
                       /\ ~ Spec.occurs_in "}" post.
Proof.
  revert r. induction s as [|c s IH]; intros r; cbn [upto_last_close].
  - split; [discriminate|]. intros (mid & post & _ & H & _). destruct mid; discriminate.
  - split.
    + destruct (upto_last_close s) as [r'|] eqn:E.
      * intros [= <-]. destruct (IH r') as [(mid & post & -> & -> & Hn) _]; [reflexivity|].
        exists (String c mid), post. rewrite !app_String. auto.
      * destruct (Ascii.eqb_spec c "}") as [-> | Hne]; [|discriminate].
        intros [= <-]. exists "", s. apply upto_last_close_None in E. auto.
    + intros (mid & post & -> & H & Hn). destruct mid as [|c' mid].
      * change ("" ++ "}" ++ post) with (String "}" post) in H. injection H as -> ->.
        apply upto_last_close_None in Hn. rewrite Hn. reflexivity.
      * rewrite app_String in H. injection H as -> ->.
        assert (E : upto_last_close (mid ++ "}" ++ post) = Some (mid ++ "}"))
          by (apply IH; eauto).
        rewrite E. now rewrite app_String.
Qed.

(** [search_object] finds the span from the first opening brace to the last
    closing brace, and finds nothing only when there is none. *)
Lemma search_object_Some s m :
  search_object s = Some m <-> Spec.brace_span s m.
Proof.
  unfold Spec.brace_span. revert m. induction s as [|c s IH]; intros m; cbn [search_object].
  - split; [discriminate|]. intros (pre & mid & post & H & _). destruct pre; discriminate.
  - destruct (Ascii.eqb_spec c "{") as [-> | Hne].
    + split.
      * destruct (upto_last_close s) as [r|] eqn:E; [|discriminate].
        intros [= <-]. apply upto_last_close_Some in E as (mid & post & -> & -> & Hn).
        exists "", mid, post. split; [reflexivity|]. split; [reflexivity|].
        split; [apply occurs_in_empty | assumption].
      * intros (pre & mid & post & H & -> & Hpre & Hpost).
        destruct pre as [|c' pre].
        -- change ("" ++ "{" ++ mid ++ "}" ++ post) with (String "{" (mid ++ "}" ++ post)) in H.
           injection H as ->.
           assert (E : upto_last_close (mid ++ "}" ++ post) = Some (mid ++ "}"))
             by (apply upto_last_close_Some; eauto).
           rewrite E. reflexivity.
        -- rewrite app_String in H. injection H as <- _. exfalso. apply Hpre.
           apply occurs_in_char_cons. now left.
    + rewrite IH. split.
      * intros (pre & mid & post & -> & -> & Hpre & Hpost).
        exists (String c pre), mid, post. rewrite app_String.
        split; [reflexivity|]. split; [reflexivity|]. split; [|assumption].
        rewrite occurs_in_char_cons. intros [H | H]; [congruence | contradiction].
      * intros (pre & mid & post & H & -> & Hpre & Hpost).
        destruct pre as [|c' pre].
        -- change ("" ++ "{" ++ mid ++ "}" ++ post) with (String "{" (mid ++ "}" ++ post)) in H.
           congruence.
        -- rewrite app_String in H. injection H as -> ->.
           exists pre, mid, post. split; [reflexivity|]. split; [reflexivity|].
           split; [|assumption]. intros H. apply Hpre. now apply occurs_in_tail.
Qed.

End BraceSearch.

(** ** The wrapper tokens *)
Section Wrappers.
Import Gateway Spec.



Lemma app_nil_r_s s : (s ++ "")%string = s.
Proof. induction s as [|c s IH]; [reflexivity|]. rewrite app_String. now rewrite IH. Qed.























End Wrappers.

Section AgentLoop.
Import Gateway.
Variable env : Env.





(** *** The step budget *)



Lemma call_llm_calls messages (st : state env) :
  calls (snd (_call_llm env messages st)) = (calls st ++ [LlmChat messages])%list.
Proof. unfold _call_llm. now destruct (llm_reply env messages (world st)). Qed.

Lemma final_answer_state obj (st : state env) :
  snd (final_answer env obj st) = st.
Proof.
  unfold final_answer, bind, lift.
  destruct (subscript (JObj obj) "final"); [|reflexivity].
  now destruct (attr_get _ _ _).
Qed.



End AgentLoop.




(** * Further properties *)

Section Driver.
Import KgApi.
Variable uuid : nat -> string.
Variable other_cypher : string -> dict -> Tx (list dict).

Lemma state_eta st :
  {| driver := driver st; pg_conn := pg_conn st; entities := entities st;
     claims := claims st; evidences := evidences st; supports := supports st;
     edges := edges st; pg_evidence := pg_evidence st; drawn := drawn st |} = st.
Proof. now destruct st. Qed.

Lemma rollback_nothing st :
  set_drawn (drawn st) (set_pg_evidence (fun _ => pg_evidence st) st) = st.
Proof. now destruct st. Qed.

(** X1. Without a Neo4j driver every endpoint that touches the graph answers
    with status 500 and changes nothing; [/neighbors] checks its depth
    first, so a bad depth is still a 400. *)
Theorem endpoints_need_the_driver st :
  driver st = false ->
  let down := (Raise (HTTPException 500 "Neo4j driver not initialized"), st) in
  (forall p, propose_claim uuid p st = down)
  /\ (forall b, approve b st = down)
  /\ (forall b, reject b st = down)
  /\ (forall body, cypher other_cypher body st = down)
  /\ (forall l, gaps other_cypher l st = down)
  /\ (forall body, neighbors other_cypher body st
        = if bool_decide (depth body = 1%Z \/ depth body = 2%Z) then down
          else (Raise (HTTPException 400 "depth must be 1 or 2"), st)).
Proof.
  intros Hd down. unfold propose_claim, approve, reject, gaps, neighbors, cypher.
  rewrite Hd. cbn [negb]. repeat split; try reflexivity.
  intros body. case_bool_decide; cbn [negb]; [|reflexivity].
  now rewrite Hd.
Qed.

(** X2. For a claim id the graph does not hold, [/approve] answers 404 and
    [/reject] answers [ok]; neither changes anything. *)
Theorem unknown_claim_id b st :
  driver st = true ->
  claims st !! claim_id b = None ->
  approve b st = (Raise (HTTPException 404 "Claim not found"), st)
  /\ reject b st = (Return (JObj [("ok", JBool true)]), st).
Proof.
  intros Hd Hc. unfold approve, reject. rewrite Hd. cbn [negb].
  unfold tx_bind, execute_write, set_status, tx_do, tx_ret. rewrite Hc.
  split.
  - now rewrite rollback_nothing.
  - unfold set_claims. rewrite Hc. now rewrite state_eta.
Qed.
End Driver.

Section LedgerInvariants.
Import KgApi.
Variable uuid : nat -> string.

(** *** Nothing is taken away *)

Lemma same_claim_refl c : Invariants.same_claim c c.
Proof. unfold Invariants.same_claim. auto 10. Qed.

Lemma same_claim_trans c1 c2 c3 :
  Invariants.same_claim c1 c2 -> Invariants.same_claim c2 c3 -> Invariants.same_claim c1 c3.
Proof. unfold Invariants.same_claim. intuition congruence. Qed.

Lemma grows_refl st : Invariants.grows st st.
Proof.
  unfold Invariants.grows. repeat (split; [reflexivity|]).
  intros cid c Hc. eauto using same_claim_refl.
Qed.

Lemma grows_trans st1 st2 st3 :
  Invariants.grows st1 st2 -> Invariants.grows st2 st3 -> Invariants.grows st1 st3.
Proof.
  intros (Hd & Hp & He & Hv & Hs & Hg & Hr & Hn & Hc)
    (Hd' & Hp' & He' & Hv' & Hs' & Hg' & Hr' & Hn' & Hc').
  unfold Invariants.grows.
  split; [congruence|]. split; [congruence|].
  split; [set_solver|]. split; [etransitivity; eassumption|].
  split; [etransitivity; eassumption|]. split; [etransitivity; eassumption|].
  split; [etransitivity; eassumption|]. split; [lia|].
  intros cid c H. destruct (Hc cid c H) as (c' & H' & Hs1).
  destruct (Hc' cid c' H') as (c'' & H'' & Hs2). eauto using same_claim_trans.
Qed.

Lemma tx_bind_inv {A B} (m : Tx A) (k : A -> Tx B) st r st' :
  tx_bind m k st = (r, st') ->
  (exists e, m st = (Raise e, st') /\ r = Raise e)
  \/ exists a st1, m st = (Return a, st1) /\ k a st1 = (r, st').
Proof.
  unfold tx_bind. destruct (m st) as [[a|e] st1]; [eauto|].
  intros [= <- <-]. eauto.
Qed.

Lemma keeps_bind {A B} (m : Tx A) (k : A -> Tx B) :
  Invariants.keeps m -> (forall a, Invariants.keeps (k a)) -> Invariants.keeps (tx_bind m k).
Proof.
  intros Hm Hk st r st' H.
  apply tx_bind_inv in H as [(e & H & _) | (a & st1 & H1 & H2)]; [eauto|].
  eapply grows_trans; [eapply Hm | eapply Hk]; eassumption.
Qed.

Lemma keeps_ret {A} (a : A) : Invariants.keeps (tx_ret a).
Proof. intros st r st' [= <- <-]. apply grows_refl. Qed.

Lemma keeps_raise {A} e : Invariants.keeps (@tx_raise A e).
Proof. intros st r st' [= <- <-]. apply grows_refl. Qed.

Lemma keeps_ensure_entity e : Invariants.keeps (_ensure_entity e).
Proof.
  intros st r st' [= <- <-]. pose proof (grows_refl st) as H.
  unfold Invariants.grows in *. cbn. intuition set_solver.
Qed.

Lemma keeps_uuid : Invariants.keeps (apoc_create_uuid uuid).
Proof.
  intros st r st' [= <- <-]. pose proof (grows_refl st) as H.
  unfold Invariants.grows in *. cbn. intuition lia.
Qed.

Lemma grows_insert_claim st cid c :
  (forall c0, claims st !! cid = Some c0 -> Invariants.same_claim c0 c) ->
  Invariants.grows st (set_claims (insert cid c) st).
Proof.
  intros Hc. pose proof (grows_refl st) as (Hd & Hp & He & Hv & Hs & Hg & Hr & Hn & _).
  unfold Invariants.grows. cbn. repeat (split; [assumption|]).
  intros cid' c' H. destruct (decide (cid' = cid)) as [-> | Hne].
  - rewrite lookup_insert_eq. eauto.
  - rewrite lookup_insert_ne by congruence. eauto using same_claim_refl.
Qed.

Lemma keeps_create_claim p : Invariants.keeps (create_claim uuid p).
Proof.
  unfold create_claim. apply keeps_bind; [apply keeps_uuid|].
  intros cid st r st'. destruct (claims st !! cid) eqn:E; intros [= <- <-].
  - apply grows_refl.
  - apply grows_insert_claim. congruence.
Qed.

Lemma keeps_create_evidence cid e : Invariants.keeps (create_evidence uuid cid e).
Proof.
  unfold create_evidence. apply keeps_bind; [apply keeps_uuid|].
  intros eid st r st'. destruct (evidences st !! eid) eqn:E; intros [= <- <-];
    [apply grows_refl|].
  pose proof (grows_refl st) as (Hd & Hp & He & Hv & Hs & Hg & Hr & Hn & Hc).
  unfold Invariants.grows.
  destruct (claims st !! cid); cbn; repeat (split; [try assumption|]);
    try assumption; try (now apply insert_subseteq); now apply prefix_app_r.
Qed.

Lemma keeps_write_evidence_pg e : Invariants.keeps (_write_evidence_pg e).
Proof.
  intros st r st'. unfold _write_evidence_pg.
  destruct (pg_conn st); intros [= <- <-]; [|apply grows_refl].
  pose proof (grows_refl st) as (Hd & Hp & He & Hv & Hs & Hg & Hr & Hn & Hc).
  unfold Invariants.grows. cbn. repeat (split; [try assumption|]); try assumption.
  now apply prefix_app_r.
Qed.

Lemma keeps_link_evidence cid es : Invariants.keeps (link_evidence uuid cid es).
Proof.
  induction es as [|e es IH]; cbn [link_evidence]; [apply keeps_ret|].
  apply keeps_bind; [apply keeps_create_evidence|]. intros _.
  apply keeps_bind; [apply keeps_write_evidence_pg|]. intros _. exact IH.
Qed.

Lemma same_claim_approved c : Invariants.same_claim c (approved c).
Proof. unfold Invariants.same_claim. cbn. auto 10. Qed.

Lemma same_claim_rejected c : Invariants.same_claim c (rejected c).
Proof. unfold Invariants.same_claim. cbn. auto 10. Qed.

Lemma keeps_materialize cid s p o : Invariants.keeps (materialize cid s p o).
Proof.
  intros st r st'. unfold materialize.
  destruct (claims st !! cid) as [c|] eqn:Hc; [|intros [= <- <-]; apply grows_refl].
  destruct (_ && _); intros [= <- <-]; [|apply grows_refl].
  eapply grows_trans; [|apply grows_insert_claim].
  - pose proof (grows_refl st) as (Hd & Hp & He & Hv & Hs & Hg & Hr & Hn & H).
    unfold Invariants.grows. cbn. repeat (split; [try assumption|]); try assumption.
    now apply prefix_app_r.
  - cbn. intros c0 H0. rewrite Hc in H0. injection H0 as <-. apply same_claim_approved.
Qed.

Lemma keeps_set_status cid f :
  (forall c, Invariants.same_claim c (f c)) -> Invariants.keeps (set_status cid f).
Proof.
  intros Hf st r st' [= <- <-].
  pose proof (grows_refl st) as (Hd & Hp & He & Hv & Hs & Hg & Hr & Hn & H).
  unfold Invariants.grows. cbn. repeat (split; [assumption|]).
  intros cid' c' H'. destruct (claims st !! cid) as [c|] eqn:Hc; [|eauto].
  destruct (decide (cid' = cid)) as [-> | Hne].
  - rewrite lookup_insert_eq. rewrite Hc in H'. injection H' as <-. eauto.
  - rewrite lookup_insert_ne by congruence. eauto using same_claim_refl.
Qed.

Lemma keeps_execute_write {A} (tx : Tx A) : Invariants.keeps tx -> Invariants.keeps (execute_write tx).
Proof.
  intros Htx st r st'. unfold execute_write.
  destruct (tx st) as [[a|e] st1] eqn:E; intros [= <- <-]; [eauto|].
  apply Htx in E as (Hd & Hp & He & Hv & Hs & Hg & Hr & Hn & Hc).
  pose proof (grows_refl st) as (Hd' & Hp' & He' & Hv' & Hs' & Hg' & Hr' & Hn' & Hc').
  unfold Invariants.grows. cbn. auto 12.
Qed.

Lemma keeps_if {A} (b : bool) (m1 m2 : Tx A) :
  Invariants.keeps m1 -> Invariants.keeps m2 -> Invariants.keeps (if b then m1 else m2).
Proof. now destruct b. Qed.

Lemma keeps_propose_claim p : Invariants.keeps (propose_claim uuid p).
Proof.
  intros st r st'. unfold propose_claim.
  destruct (driver st); cbn [negb]; [|intros [= <- <-]; apply grows_refl].
  revert st r st'. apply keeps_bind; [|intros; apply keeps_ret].
  apply keeps_execute_write.
  apply keeps_bind; [apply keeps_ensure_entity|]. intros _.
  apply keeps_bind; [apply keeps_if; [apply keeps_ensure_entity | apply keeps_ret]|].
  intros _. apply keeps_bind; [apply keeps_create_claim|]. intros c.
  apply keeps_bind; [apply keeps_link_evidence|]. intros _.
  apply keeps_bind; [|intros; apply keeps_ret].
  apply keeps_if; [apply keeps_materialize | apply keeps_ret].
Qed.

Lemma keeps_approve b : Invariants.keeps (approve b).
Proof.
  intros st r st'. unfold approve.
  destruct (driver st); cbn [negb]; [|intros [= <- <-]; apply grows_refl].
  revert st r st'. apply keeps_bind; [|intros; apply keeps_ret].
  apply keeps_execute_write. intros st r st'.
  destruct (claims st !! claim_id b) as [c|]; [|intros [= <- <-]; apply grows_refl].
  destruct (String.eqb _ _); [apply keeps_materialize|].
  apply keeps_set_status, same_claim_approved.
Qed.

Lemma keeps_reject b : Invariants.keeps (reject b).
Proof.
  intros st r st'. unfold reject.
  destruct (driver st); cbn [negb]; [|intros [= <- <-]; apply grows_refl].
  revert st r st'. apply keeps_bind; [|intros; apply keeps_ret].
  apply keeps_set_status, same_claim_rejected.
Qed.

Lemma step_grows st o : Invariants.grows st (step uuid st o).
Proof.
  unfold step. destruct (handle uuid o st) as [r st'] eqn:H. cbn.
  destruct o; cbn [handle] in H;
    [eapply keeps_propose_claim | eapply keeps_approve | eapply keeps_reject];
    eassumption.
Qed.

(** X3. No operation of the ledger takes anything away. *)
Theorem ledger_is_append_only (ops : list op) st :
  Invariants.grows st (run uuid ops st).
Proof.
  induction ops as [|o ops IH] using rev_ind.
  - apply grows_refl.
  - rewrite run_snoc. eapply grows_trans; [exact IH | apply step_grows].
Qed.

(** *** The entities of the claims *)

Lemma execute_write_inv {A} (tx : Tx A) st a st' :
  execute_write tx st = (Return a, st') -> tx st = (Return a, st').
Proof.
  unfold execute_write. destruct (tx st) as [[a'|e] st1]; [auto | discriminate].
Qed.

Lemma grows_entities st st' e : Invariants.grows st st' -> e ∈ entities st -> e ∈ entities st'.
Proof. intros (_ & _ & He & _). set_solver. Qed.

(** A proposal that is stored has its subject, and its object when it is an
    entity, in the graph. *)
Lemma propose_entities p st j st' :
  propose_claim uuid p st = (Return j, st') ->
  subject_id p ∈ entities st'
  /\ (object_kind p = "entity" -> object_value p ∈ entities st').
Proof.
  unfold propose_claim. destruct (driver st); cbn [negb]; [|discriminate].
  intros H. apply tx_bind_inv in H as [(e & _ & [=]) | (c & st0 & H & [= _ <-])].
  apply execute_write_inv in H.
  apply tx_bind_inv in H as [(e & _ & [=]) | ([] & st1 & [= <-] & H)].
  apply tx_bind_inv in H as [(e & _ & [=]) | ([] & st2 & H2 & H)].
  assert (Hrest : Invariants.grows st2 st0).
  { revert H. generalize (Return (A:=ClaimNode) c). revert st2 st0 H2.
    intros st2 st0 _. revert st2. intros st2 r. revert st2 r st0.
    apply keeps_bind; [apply keeps_create_claim|]. intros c'.
    apply keeps_bind; [apply keeps_link_evidence|]. intros _.
    apply keeps_bind; [|intros; apply keeps_ret].
    apply keeps_if; [apply keeps_materialize | apply keeps_ret]. }
  split.
  - apply (grows_entities _ _ _ Hrest).
    destruct (String.eqb (object_kind p) "entity").
    + injection H2 as <-. cbn. set_solver.
    + injection H2 as <-. cbn. set_solver.
  - intros Hk. apply (grows_entities _ _ _ Hrest).
    rewrite Hk in H2. change (String.eqb "entity" "entity") with true in H2.
    injection H2 as <-. cbn. set_solver.
Qed.

Lemma step_propose p st :
  step uuid st (Propose p) = snd (propose_claim uuid p st).
Proof. reflexivity. Qed.

Lemma well_formed_step st o :
  Invariants.well_formed st -> Invariants.well_formed (step uuid st o).
Proof.
  intros [Hd Hwf]. pose proof (step_grows st o) as Hg.
  split; [destruct Hg as (-> & _); exact Hd|].
  assert (Hold : forall cid c, claims st !! cid = Some c ->
            c_id c = cid
            /\ c_subject_id c ∈ entities (step uuid st o)
            /\ (c_object_kind c = "entity" -> c_object_value c ∈ entities (step uuid st o))).
  { intros cid c Hc. destruct (Hwf cid c Hc) as (Hid & Hs & Ho).
    split; [assumption|]. split; [eapply grows_entities; eassumption|].
    intros Hk. eapply grows_entities; eauto. }
  destruct o as [p | b | b].
  - destruct (propose_claim uuid p st) as [r st'] eqn:Hrun.
    pose proof Hrun as Heff. apply propose_claim_effect in Heff
      as [[_ (Hc & _ & _)] | (c0 & c & -> & _ & Hfresh & Hc & Hs & Hp & Ho & Hk & _)];
      rewrite step_propose, Hrun in *; cbn [snd] in *.
    + intros cid c. rewrite Hc. apply Hold.
    + apply propose_entities in Hrun as [Hsub Hobj].
      intros cid c'. rewrite Hc. destruct (decide (cid = c_id c)) as [-> | Hne].
      * rewrite lookup_insert_eq. intros [= <-]. rewrite Hs, Ho, Hk. auto.
      * rewrite lookup_insert_ne by congruence. apply Hold.
  - destruct (approve_effect uuid b st) as [(Hc & _) | (c & Hfound & Hc & _)];
      intros cid c'; rewrite Hc; [apply Hold|].
    destruct (decide (cid = claim_id b)) as [-> | Hne].
    + rewrite lookup_insert_eq. intros [= <-]. apply (Hold _ _ Hfound).
    + rewrite lookup_insert_ne by congruence. apply Hold.
  - destruct (reject_effect uuid b st) as [_ [Hc | (c & Hfound & Hc)]];
      intros cid c'; rewrite Hc; [apply Hold|].
    destruct (decide (cid = claim_id b)) as [-> | Hne].
    + rewrite lookup_insert_eq. intros [= <-]. apply (Hold _ _ Hfound).
    + rewrite lookup_insert_ne by congruence. apply Hold.
Qed.

Lemma run_well_formed (ops : list op) : Invariants.well_formed (run uuid ops started).
Proof.
  induction ops as [|o ops IH] using rev_ind.
  - split; [reflexivity|]. intros cid c H. cbn in H. now rewrite lookup_empty in H.
  - rewrite run_snoc. now apply well_formed_step.
Qed.

(** X4. In every state the ledger reaches, the claims are filed under their
    own ids and the entities they are about exist. *)
Theorem reachable_states_are_well_formed (ops : list op) :
  Invariants.well_formed (run uuid ops started).
Proof. apply run_well_formed. Qed.

(** X5. Approving a claim the ledger holds always succeeds and marks it; an
    entity claim gets one more edge, whatever its status was. *)
Theorem approve_marks_the_claim (ops : list op) b c :
  let st := run uuid ops started in
  claims st !! claim_id b = Some c ->
  exists st',
    approve b st = (Return (JObj [("ok", JBool true)]), st')
    /\ claims st' = <[claim_id b := approved c]> (claims st)
    /\ edges st'
       = (edges st ++ if String.eqb (c_object_kind c) "entity"
                      then [{| src := c_subject_id c; rel_type := c_predicate c;
                               dst := c_object_value c |}]
                      else [])%list.
Proof.
  intros st Hc. destruct (run_well_formed ops) as [Hd Hwf].
  fold st in Hd, Hwf. clearbody st. destruct (Hwf _ _ Hc) as (_ & Hs & Ho).
  unfold approve. rewrite Hd. cbn [negb].
  unfold tx_bind at 1, execute_write. rewrite Hc.
  destruct (String.eqb_spec (c_object_kind c) "entity") as [Hk | Hk].
  - unfold materialize. rewrite Hc, !bool_decide_eq_true_2 by auto.
    cbn. eauto.
  - unfold set_status, tx_do, set_claims. cbn. rewrite Hc, app_nil_r. eauto.
Qed.

(** X6. Rejecting twice is rejecting once. *)
Theorem reject_is_idempotent st b :
  step uuid (step uuid st (Reject b)) (Reject b) = step uuid st (Reject b).
Proof.
  unfold step, handle, reject. destruct (driver st) eqn:Hd; cbn [negb].
  - unfold tx_bind, set_status, tx_do, tx_ret. cbn. rewrite Hd. cbn.
    unfold set_claims. cbn. f_equal.
    destruct (claims st !! claim_id b) as [c|] eqn:Hc.
    + rewrite lookup_insert_eq, insert_insert_eq. reflexivity.
    + rewrite Hc. reflexivity.
  - cbn. rewrite Hd. reflexivity.
Qed.

End LedgerInvariants.

Lemma endpoints_need_the_driver_witness :
  KgApi.approve {| KgApi.claim_id := "id-0" |} Scenarios.not_started
  = (Raise (HTTPException 500 "Neo4j driver not initialized"), Scenarios.not_started)
  /\ KgApi.neighbors Examples.no_cypher
       {| KgApi.id := "Run:demo"; KgApi.depth := 3; KgApi.limit := 50 |}
       Scenarios.not_started
     = (Raise (HTTPException 400 "depth must be 1 or 2"), Scenarios.not_started).
Proof.
  destruct (endpoints_need_the_driver Examples.uuid Examples.no_cypher
              Scenarios.not_started eq_refl) as (_ & H & _ & _ & _ & Hn).
  split; [apply H | apply Hn].
Defined.

Lemma unknown_claim_id_witness :
  fst (KgApi.approve {| KgApi.claim_id := "id-7" |} KgApi.started)
  = Raise (HTTPException 404 "Claim not found")
  /\ fst (KgApi.reject {| KgApi.claim_id := "id-7" |} KgApi.started)
     = Return (JObj [("ok", JBool true)]).
Proof.
  destruct (unknown_claim_id {| KgApi.claim_id := "id-7" |} KgApi.started
              eq_refl eq_refl) as [H1 H2].
  rewrite H1, H2. split; reflexivity.
Defined.

Lemma approve_marks_the_claim_witness :
  let st := KgApi.run Examples.uuid
              [KgApi.Propose (Examples.proposal "pending")] KgApi.started in
  exists st',
    KgApi.approve {| KgApi.claim_id := Examples.uuid 0 |} st
    = (Return (JObj [("ok", JBool true)]), st')
    /\ KgApi.edges st = []
    /\ KgApi.edges st' = [Examples.demo_edge].
Proof.
  intros st.
  edestruct (approve_marks_the_claim Examples.uuid
               [KgApi.Propose (Examples.proposal "pending")]
               {| KgApi.claim_id := Examples.uuid 0 |}) as (st' & H1 & _ & H3);
    [vm_compute; reflexivity|].
  exists st'. split; [exact H1|]. split; [vm_compute; reflexivity|].
  rewrite H3. vm_compute. reflexivity.
Defined.

Section Evidence.
Import KgApi.
Variable uuid : nat -> string.

(** The rows and nodes [link_evidence] leaves: one row per item it got to,
    and when it got through, one node and one link per item, under the ids
    drawn in order. *)
Lemma link_evidence_trace cid es : forall st r st',
  link_evidence uuid cid es st = (r, st') ->
  exists k,
    pg_evidence st' = (pg_evidence st ++ if pg_conn st then firstn k es else [])%list
    /\ match r with
       | Raise _ => k < length es
       | Return _ =>
           k = length es
           /\ drawn st' = drawn st + length es
           /\ (is_Some (claims st !! cid) ->
               supports st'
               = (supports st
                  ++ imap (fun i _ => (cid, uuid (drawn st + i))) es)%list)
           /\ forall i e, es !! i = Some e ->
                evidences st' !! uuid (drawn st + i)
                = Some {| ev_id := uuid (drawn st + i); ev_props := e |}
       end.
Proof.
  induction es as [|e es IH]; intros st r st' H.
  - injection H as <- <-. exists 0. cbn.
    split; [destruct (pg_conn st); now rewrite app_nil_r|]. split; [reflexivity|].
    split; [lia|]. split; [now rewrite app_nil_r|]. intros i e' Hi. inversion Hi.
  - cbn [link_evidence] in H.
    apply tx_bind_inv in H as [(err & H & ->) | ([] & st1 & H1 & H)].
    { exists 0. cbn. split; [|lia].
      unfold create_evidence, tx_bind, apoc_create_uuid in H. cbn in H.
      destruct (evidences st !! uuid (drawn st)); [|discriminate].
      injection H as _ <-. cbn. destruct (pg_conn st); now rewrite app_nil_r. }
    apply tx_bind_inv in H as [(err & H & ->) | ([] & st2 & H2 & H)].
    { unfold _write_evidence_pg in H. destruct (pg_conn st1); discriminate. }
    unfold create_evidence, tx_bind, apoc_create_uuid in H1. cbn in H1.
    destruct (evidences st !! uuid (drawn st)) eqn:Hfree; [discriminate|].
    injection H1 as <-.
    pose proof (keeps_link_evidence uuid cid es _ _ _ H) as Hg.
    pose proof (link_evidence_graph uuid cid es _ _ _ H) as (Hcl & _).
    apply IH in H as (k & Hpg & Hr).
    assert (Hpg2 : pg_conn st2 = pg_conn st /\ drawn st2 = S (drawn st)
              /\ claims st2 = claims st
              /\ pg_evidence st2
                 = (pg_evidence st ++ if pg_conn st then [e] else [])%list
              /\ supports st2
                 = (supports st ++ match claims st !! cid with
                                   | Some _ => [(cid, uuid (drawn st))]
                                   | None => []
                                   end)%list
              /\ evidences st2 !! uuid (drawn st)
                 = Some {| ev_id := uuid (drawn st); ev_props := e |}).
    { unfold _write_evidence_pg in H2.
      destruct (claims st !! cid) eqn:Hc; cbn in H2;
        destruct (pg_conn st) eqn:Hp; injection H2 as <-; cbn;
        rewrite ?Hp, ?app_nil_r, ?lookup_insert_eq; auto 10. }
    destruct Hpg2 as (Hp2 & Hd2 & Hc2 & Hr2 & Hs2 & Hv2).
    exists (S k). rewrite Hpg, Hp2, Hr2. split.
    { destruct (pg_conn st); cbn; rewrite <- ?app_assoc, ?app_nil_r; reflexivity. }
    destruct r as [[]|err]; [|cbn; lia].
    destruct Hr as (-> & Hd & Hs & Hv). split; [reflexivity|].
    split; [rewrite Hd, Hd2; cbn; lia|]. split.
    + intros Hsome. rewrite Hs by now rewrite Hc2. rewrite Hs2.
      destruct Hsome as [c Hc]. rewrite Hc. cbn [imap].
      rewrite <- app_assoc. cbn. rewrite Nat.add_0_r. do 2 f_equal.
      apply imap_ext. intros i x _. cbn. rewrite Hd2. do 2 f_equal. lia.
    + intros [|i] e' Hi; cbn in Hi.
      * injection Hi as <-. rewrite Nat.add_0_r.
        destruct Hg as (_ & _ & _ & Hsub & _).
        eapply lookup_weaken; eassumption.
      * specialize (Hv i e' Hi). rewrite Hd2 in Hv.
        replace (drawn st + S i) with (S (drawn st) + i) by lia. exact Hv.
Qed.

(** The transaction of [propose_claim]. *)
Lemma propose_tx p st r st' :
  driver st = true ->
  propose_claim uuid p st = (r, st') ->
  let st1 := set_entities
               (fun es => (if String.eqb (object_kind p) "entity"
                           then {[ object_value p ]} else ∅)
                          ∪ {[ subject_id p ]} ∪ es) st in
  exists rc st2,
    create_claim uuid p st1 = (rc, st2)
    /\ match rc with
       | Raise e =>
           r = Raise e
           /\ st' = set_drawn (drawn st2) (set_pg_evidence (fun _ => pg_evidence st2) st)
       | Return c =>
           exists rl st3,
             link_evidence uuid (c_id c) (evidence p) st2 = (rl, st3)
             /\ match rl with
                | Raise e =>
                    r = Raise e
                    /\ st' = set_drawn (drawn st3)
                               (set_pg_evidence (fun _ => pg_evidence st3) st)
                | Return _ =>
                    r = Return (JObj [("ok", JBool true);
                                      ("claim", _serialize_neo4j c)])
                    /\ Invariants.grows st3 st'
                    /\ supports st' = supports st3
                    /\ evidences st' = evidences st3
                    /\ pg_evidence st' = pg_evidence st3
                    /\ drawn st' = drawn st3
                end
       end.
Proof.
  intros Hd H st1. unfold propose_claim in H. rewrite Hd in H. cbn [negb] in H.
  unfold tx_bind at 1, execute_write in H.
  match type of H with context [tx_bind ?m ?k st] =>
    destruct (tx_bind m k st) as [rt stf] eqn:Htx end.
  apply tx_bind_inv in Htx as [(e & [=] & _) | ([] & st0 & [= <-] & Htx)].
  apply tx_bind_inv in Htx as [(e & Htx & _) | ([] & st0 & H0 & Htx)].
  { destruct (String.eqb _ _); discriminate. }
  assert (st0 = st1) as ->.
  { subst st1. destruct (String.eqb (object_kind p) "entity");
      injection H0 as <-; unfold set_entities; cbn; f_equal;
      [apply (assoc_L (∪)) | now rewrite (left_id_L ∅ (∪))]. }
  clear H0.
  apply tx_bind_inv in Htx as [(e & Htx & ->) | (c & st2 & Hc & Htx)].
  { exists (Raise e), stf. split; [assumption|]. now injection H as <- <-. }
  exists (Return c), st2. split; [assumption|].
  apply tx_bind_inv in Htx as [(e & Htx & ->) | ([] & st3 & Hl & Htx)].
  { exists (Raise e), stf. split; [assumption|]. now injection H as <- <-. }
  exists (Return tt), st3. split; [assumption|].
  apply tx_bind_inv in Htx as [(e & Htx & ->) | ([] & st4 & Hm & Htx)].
  { destruct (_ && _); [|discriminate].
    unfold materialize in Htx. destruct (claims st3 !! c_id c); [|discriminate].
    destruct (_ && _); discriminate. }
  injection Htx as <- <-. cbn in H. injection H as <- <-.
  split; [reflexivity|].
  destruct (_ && _).
  - split; [eapply keeps_materialize; eassumption|].
    unfold materialize in Hm. destruct (claims st3 !! c_id c); [|now injection Hm as <-].
    destruct (_ && _); injection Hm as <-; auto.
  - injection Hm as <-. split; [apply grows_refl | auto].
Qed.

(** X7. A proposal that is stored leaves one Evidence node and one SUPPORTS
    link per evidence item, under the ids drawn after the claim's, and one
    Postgres row per item when Postgres is connected. *)
Theorem propose_records_evidence p st j st' :
  propose_claim uuid p st = (Return j, st') ->
  let cid := uuid (drawn st) in
  is_Some (claims st' !! cid)
  /\ drawn st' = drawn st + 1 + length (evidence p)
  /\ pg_evidence st'
     = (pg_evidence st ++ if pg_conn st then evidence p else [])%list
  /\ supports st'
     = (supports st
        ++ imap (fun i _ => (cid, uuid (drawn st + 1 + i))) (evidence p))%list
  /\ forall i e, evidence p !! i = Some e ->
       evidences st' !! uuid (drawn st + 1 + i)
       = Some {| ev_id := uuid (drawn st + 1 + i); ev_props := e |}.
Proof.
  intros H cid.
  assert (Hd : driver st = true).
  { unfold propose_claim in H. destruct (driver st); [reflexivity | discriminate]. }
  destruct (propose_tx p st _ _ Hd H) as (rc & st2 & Hc & Hrc).
  destruct rc as [c|e]; [|now destruct Hrc].
  destruct Hrc as (rl & st3 & Hl & Hrl). destruct rl as [[]|e]; [|now destruct Hrl].
  destruct Hrl as (_ & Hg & Hs & Hv & Hr & Hn).
  unfold create_claim, tx_bind, apoc_create_uuid in Hc. cbn in Hc.
  destruct (claims st !! uuid (drawn st)) eqn:Hfree; [discriminate|].
  injection Hc as <- <-. cbn [c_id] in Hl. fold cid in Hl.
  pose proof (link_evidence_graph uuid _ _ _ _ _ Hl) as (Hcl & _).
  apply link_evidence_trace in Hl as (k & Hpg & -> & Hdr & Hsup & Hev).
  cbn in Hpg, Hdr, Hsup, Hev, Hcl. rewrite firstn_all in Hpg.
  split.
  { destruct Hg as (_ & _ & _ & _ & _ & _ & _ & _ & Hg).
    destruct (Hg cid _ ltac:(rewrite Hcl; apply lookup_insert_eq)) as (c' & -> & _).
    eauto. }
  split; [lia|]. split; [congruence|]. split.
  - rewrite Hs, Hsup by (rewrite lookup_insert_eq; eauto). f_equal.
    apply imap_ext. intros i x _. cbn. do 2 f_equal. lia.
  - intros i e Hi. rewrite Hv. specialize (Hev i e Hi).
    replace (drawn st + 1 + i) with (S (drawn st + i)) by lia. exact Hev.
Qed.

(** X8. A proposal that fails leaves the graph as it was, but the Postgres
    rows written before the failure stay: the rows of the first items of
    the evidence, as many as were reached. *)
Theorem failed_proposal_is_rolled_back p st e st' :
  propose_claim uuid p st = (Raise e, st') ->
  driver st' = driver st /\ pg_conn st' = pg_conn st
  /\ entities st' = entities st /\ claims st' = claims st
  /\ evidences st' = evidences st /\ supports st' = supports st
  /\ edges st' = edges st
  /\ exists k,
       k <= length (evidence p)
       /\ pg_evidence st'
          = (pg_evidence st ++ if pg_conn st then firstn k (evidence p) else [])%list.
Proof.
  intros H. destruct (driver st) eqn:Hd.
  - destruct (propose_tx p st _ _ Hd H) as (rc & st2 & Hc & Hrc).
    unfold create_claim, tx_bind, apoc_create_uuid in Hc. cbn in Hc.
    destruct (claims st !! uuid (drawn st)) eqn:Hfree; injection Hc as <- <-.
    + destruct Hrc as (_ & ->). cbn. repeat (split; [auto|]).
      exists 0. split; [lia|]. destruct (pg_conn st); now rewrite app_nil_r.
    + destruct Hrc as (rl & st3 & Hl & Hrl).
      destruct rl as [[]|e']; [now destruct Hrl|]. destruct Hrl as (_ & ->).
      apply link_evidence_trace in Hl as (k & Hpg & Hk). cbn in Hpg |- *.
      repeat (split; [auto|]). exists k. split; [lia | exact Hpg].
  - unfold propose_claim in H. rewrite Hd in H. injection H as _ <-.
    rewrite Hd. repeat (split; [auto|]).
    exists 0. split; [lia|]. destruct (pg_conn st); now rewrite app_nil_r.
Qed.

End Evidence.

Lemma propose_records_evidence_witness :
  let st' := snd (KgApi.propose_claim Examples.uuid Scenarios.two_logs KgApi.started) in
  KgApi.drawn st' = 3
  /\ KgApi.pg_evidence st' = [Examples.log_evidence 0.95; Examples.log_evidence 0.5]
  /\ KgApi.supports st' = [("id-0", "id-1"); ("id-0", "id-2")].
Proof.
  intros st'.
  destruct (KgApi.propose_claim Examples.uuid Scenarios.two_logs KgApi.started)
    as [r st0] eqn:H.
  assert (exists j, r = Return j) as [j ->].
  { apply (f_equal fst) in H. vm_compute in H. eexists. symmetry. exact H. }
  destruct (propose_records_evidence Examples.uuid Scenarios.two_logs KgApi.started j st0 H)
    as (_ & H1 & H2 & H3 & _).
  subst st'. cbn [snd]. auto.
Defined.

Lemma failed_proposal_is_rolled_back_witness :
  let st' := snd (KgApi.propose_claim Scenarios.stuck_uuid Scenarios.two_logs
                    KgApi.started) in
  KgApi.claims st' = ∅ /\ KgApi.evidences st' = ∅ /\ KgApi.edges st' = []
  /\ KgApi.pg_evidence st' = [Examples.log_evidence 0.95].
Proof.
  intros st'.
  destruct (KgApi.propose_claim Scenarios.stuck_uuid Scenarios.two_logs KgApi.started)
    as [r st0] eqn:H.
  assert (r = Raise Neo4jError) as ->.
  { apply (f_equal fst) in H. vm_compute in H. now symmetry. }
  destruct (failed_proposal_is_rolled_back Scenarios.stuck_uuid Scenarios.two_logs
              KgApi.started _ st0 H)
    as (_ & _ & _ & H1 & H2 & _ & H3 & _).
  subst st'. cbn [snd]. repeat (split; [assumption|]).
  apply (f_equal (fun x => KgApi.pg_evidence (snd x))) in H.
  cbn [snd] in H. rewrite <- H. vm_compute. reflexivity.
Defined.

Section Deployed.
Import Gateway.
Variable uuid : nat -> string.
Variable other_cypher : string -> dict -> KgApi.Tx (list dict).
Variable dumps : json -> string.
Variables AUTO_TRUST MIN_QUAL : float.

Local Notation "'env'" := (Deployment.env uuid other_cypher dumps).

(** The conflict check reads the graph and leaves it as it is. *)
Lemma conflict_check_reads_only claim st cs :
  exists conflict,
    _has_conflicts env claim (Build_state env st cs)
    = (Return conflict,
       Build_state env st (cs ++ [KgPost "/cypher" (conflict_body claim)])).
Proof.
  assert (Hw : snd (Deployment.kg_api uuid other_cypher dumps "/cypher"
                      (conflict_body claim) st) = st).
  { unfold Deployment.kg_api. change (String.eqb "/cypher" "/cypher") with true.
    cbv iota. unfold conflict_body, Deployment.as_cypher_body.
    change (dict_lookup "query" _) with (Some (JStr conflict_query)).
    change (dict_lookup "params" _)
      with (Some (JObj [("sid", JStr (subject_id claim));
                        ("pred", JStr (predicate claim))])).
    unfold Deployment.serve, KgApi.cypher. destruct (KgApi.driver st); [|reflexivity].
    unfold KgApi.tx_bind, KgApi.session_run. cbn [KgApi.query KgApi.params negb].
    rewrite String.eqb_refl. reflexivity. }
  unfold _has_conflicts, try_except, bind, _kg_post. cbn [world calls kg_reply Deployment.env].
  destruct (Deployment.kg_api uuid other_cypher dumps "/cypher" (conflict_body claim) st)
    as [rep w]. cbn in Hw. subst w.
  destruct rep as [|code text [j|]].
  - eexists. reflexivity.
  - destruct (400 <=? code)%Z; [eexists; reflexivity|].
    match goal with |- context [conflicts_in ?e ?c ?r ?s] =>
      pose proof (conflicts_in_state e c r s) as Hs;
      destruct (conflicts_in e c r s) as [[b|err] s1] end;
      cbn in Hs; subst; eexists; reflexivity.
  - destruct (400 <=? code)%Z; eexists; reflexivity.
Qed.

(** X9. A proposal the gate sends to review is stored by one pending
    proposal to the ledger and nothing else: no edge is added. *)
Theorem review_never_materializes claim st :
  let run := propose_claim env AUTO_TRUST MIN_QUAL claim (Deployment.arriving uuid other_cypher dumps st) in
  exists status,
    Spec.posts_to "/propose_claim" (calls (snd run)) = [Body_claim claim status]
    /\ (forall out, fst run = Return out ->
          decision out = "T2-review" -> status = "pending")
    /\ (status = "pending" ->
        world (snd run)
        = KgApi.step uuid st
            (KgApi.Propose {| KgApi.claim := claim; KgApi.status := Some "pending" |})
        /\ KgApi.edges (world (snd run)) = KgApi.edges st
        /\ Spec.posts_to "/approve" (calls (snd run)) = []).
Proof.
  intros run.
  assert (Hrun : propose_claim env AUTO_TRUST MIN_QUAL claim
                   (Deployment.arriving uuid other_cypher dumps st) = run)
    by reflexivity.
  clearbody run.
  destruct (gate_run env AUTO_TRUST MIN_QUAL claim (Deployment.arriving uuid other_cypher dumps st))
    as (conflict & st1 & status & tail & Hconf & Hst & Hcalls & Htail & Hout).
  rewrite Hrun in Hcalls. exists status. split; [|split].
  - rewrite Hcalls. destruct Htail as [-> | (_ & cid & ->)]; reflexivity.
  - intros out Hfst Hdec. destruct run as [r stf]. cbn in Hfst. subst r.
    destruct (Hout out stf Hrun) as (_ & _ & _ & [[Hd _] | [_ Hs]]); [|assumption].
    rewrite Hd in Hdec. discriminate.
  - intros ->. destruct Hst as [[[=] _] | [_ Hnot]].
    destruct Htail as [-> | ([=] & _)].
    assert (Hw : world (snd run)
                 = KgApi.step uuid st
                     (KgApi.Propose {| KgApi.claim := claim;
                                       KgApi.status := Some "pending" |})).
    { destruct (conflict_check_reads_only claim st []) as [conflict' Hc'].
      unfold Deployment.arriving in Hconf. rewrite Hc' in Hconf.
      injection Hconf as <- <-.
      subst run. unfold propose_claim. unfold bind at 1.
      unfold Deployment.arriving. rewrite Hc'.
      rewrite <- auto_merge_spec in Hnot. apply not_true_is_false in Hnot.
      rewrite Hnot. unfold bind at 1. unfold _kg_post at 1.
      cbn [world calls kg_reply Deployment.env].
      unfold Deployment.kg_api at 1.
      change (String.eqb "/propose_claim" "/cypher") with false.
      change (String.eqb "/propose_claim" "/propose_claim") with true. cbv iota.
      unfold Deployment.as_claim_proposal, Deployment.serve, KgApi.step, KgApi.handle.
      destruct (KgApi.propose_claim uuid _ st) as [r st'].
      cbn [snd]. destruct r as [j|e]; cbn [Deployment.respond].
      * change (400 <=? 200)%Z with false. cbv iota. reflexivity.
      * destruct e; cbn; try reflexivity.
        destruct (400 <=? status_code)%Z; reflexivity. }
    split; [exact Hw|]. split; [|now rewrite Hcalls].
    rewrite Hw. unfold KgApi.step, KgApi.handle.
    destruct (KgApi.propose_claim uuid _ st) as [r st'] eqn:Hp. cbn [snd].
    apply propose_claim_effect in Hp
      as [[_ (_ & He & _)] | (c0 & c & _ & _ & _ & _ & _ & _ & _ & _ & _ & He)];
      [assumption|].
    rewrite He. cbn. apply app_nil_r.
Qed.

(** X10. The [/cypher] endpoint of the gateway hands every statement to the
    graph store as it is; the filter of the [cypher] tool is not applied. *)
Theorem gateway_cypher_is_unfiltered (body : GatewayCypher.CypherBody) st rows st' :
  KgApi.driver st = true ->
  KgApi.session_run other_cypher (GatewayCypher.query body) (GatewayCypher.params body) st
  = (Return rows, st') ->
  GatewayCypher.cypher env body (Deployment.arriving uuid other_cypher dumps st)
  = (Return (JObj [("records", JArr (JObj <$> rows))]),
     Build_state env st' [KgPost "/cypher" (Body_json (GatewayCypher.model_dump body))]).
Proof.
  intros Hd Hrun. unfold GatewayCypher.cypher, _kg_post.
  cbn [world calls kg_reply Deployment.env Deployment.arriving].
  unfold Deployment.kg_api. change (String.eqb "/cypher" "/cypher") with true.
  cbv iota. unfold GatewayCypher.model_dump, Deployment.as_cypher_body.
  change (dict_lookup "query" _) with (Some (JStr (GatewayCypher.query body))).
  change (dict_lookup "params" _) with (Some (JObj (GatewayCypher.params body))).
  unfold Deployment.serve, KgApi.cypher. rewrite Hd. cbn [negb].
  unfold KgApi.tx_bind. cbn [KgApi.query KgApi.params]. rewrite Hrun.
  reflexivity.
Qed.

End Deployed.

Lemma gateway_cypher_is_unfiltered_witness :
  let body := {| GatewayCypher.query := Scenarios.wipe_query; GatewayCypher.params := [] |} in
  let st := KgApi.run Examples.uuid
              [KgApi.Propose (Examples.proposal "approved")] KgApi.started in
  let env := Deployment.env Examples.uuid Scenarios.wiping Examples.dumps in
  Gateway._cypher_safe (GatewayCypher.query body) = false
  /\ KgApi.edges st = [Examples.demo_edge]
  /\ exists st',
       GatewayCypher.cypher env body
         (Deployment.arriving Examples.uuid Scenarios.wiping Examples.dumps st)
       = (Return (JObj [("records", JArr [])]), st')
       /\ KgApi.edges (Gateway.world st') = [] /\ KgApi.claims (Gateway.world st') = ∅.
Proof.
  intros body st env. split; [reflexivity|]. split; [vm_compute; reflexivity|].
  eexists. split.
  - apply (gateway_cypher_is_unfiltered Examples.uuid Scenarios.wiping Examples.dumps
             body st []); [vm_compute; reflexivity | reflexivity].
  - split; reflexivity.
Defined.

Section NotANumber.
Local Open Scope float_scope.
Import Gateway.

Lemma mul_nan_r x y : Prim2SF y = S754_nan -> Prim2SF (x * y) = S754_nan.
Proof.
  intros H. rewrite mul_spec, H. unfold SF64mul, SFmul.
  now destruct (Prim2SF x).
Qed.

Lemma add_nan_r x y : Prim2SF y = S754_nan -> Prim2SF (x + y) = S754_nan.
Proof.
  intros H. rewrite add_spec, H. unfold SF64add, SFadd.
  now destruct (Prim2SF x).
Qed.

Lemma add_nan_l x y : Prim2SF x = S754_nan -> Prim2SF (x + y) = S754_nan.
Proof. intros H. rewrite add_spec, H. reflexivity. Qed.

(** X11. A model confidence that is not a number gives the highest trust
    score, whatever the evidence. *)
Theorem nan_confidence_gets_full_trust (claim : ClaimIn) x :
  model_conf claim = Some x -> (x =? x) = false -> _trust_score claim = 1.
Proof.
  intros Hc Hx. unfold _trust_score. apply clamp_nan.
  apply add_nan_l, add_nan_r, mul_nan_r. rewrite Hc. cbn [or_zero].
  unfold truthy. destruct (x =? 0) eqn:H0.
  - exfalso. rewrite eqb_cmp in H0, Hx. unfold cmp in *.
    rewrite (nan_Prim2SF x) in H0; [discriminate|].
    rewrite eqb_cmp. exact Hx.
  - now apply nan_Prim2SF.
Qed.
End NotANumber.

Lemma nan_confidence_gets_full_trust_witness :
  Gateway._trust_score Scenarios.nan_claim = 1%float.
Proof.
  apply (nan_confidence_gets_full_trust Scenarios.nan_claim nan); reflexivity.
Defined.

Section GateErrors.
Import Gateway.
Variable env : Env.
Variables AUTO_TRUST MIN_QUAL : float.

(** X12. The gate fails exactly when the write to the ledger fails, and with
    the same error; a failure of the approve call that follows an auto-merge
    is ignored. *)
Theorem gate_fails_with_the_ledger (claim : ClaimIn) (st : state env) :
  exists conflict st1 status,
    _has_conflicts env claim st = (Return conflict, st1)
    /\ (status = "approved" \/ status = "pending")
    /\ match _kg_post env "/propose_claim" (Body_claim claim status) st1 with
       | (Raise e, st2) =>
           propose_claim env AUTO_TRUST MIN_QUAL claim st = (Raise e, st2)
       | (Return created, st2) =>
           exists out st3,
             propose_claim env AUTO_TRUST MIN_QUAL claim st = (Return out, st3)
             /\ kg out = created /\ gate_ok out = true
       end.
Proof.
  destruct (has_conflicts_returns env claim st) as (conflict & st1 & Hconf & _).
  exists conflict, st1.
  set (am := bool_decide (predicate claim ∈ AUTO_MERGE_PREDICATES)
             && String.eqb (object_kind claim) "entity"
             && ge (_trust_score claim) AUTO_TRUST
             && (if nonempty (evidence claim)
                 then forallb (fun e => ge (score e) MIN_QUAL) (evidence claim)
                 else false)
             && negb conflict).
  exists (if am then "approved" else "pending").
  split; [assumption|]. split; [destruct am; auto|].
  destruct (_kg_post env "/propose_claim" _ st1) as [[created|e] st2] eqn:Hpost.
  - destruct (approve_follow_up env created st2) as (tail & st3 & Hf & _).
    exists {| gate_ok := true;
              decision := if am then "T1-auto-merge" else "T2-review";
              trust := _trust_score claim;
              min_quality_ok :=
                if nonempty (evidence claim)
                then forallb (fun e => ge (score e) MIN_QUAL) (evidence claim)
                else false;
              no_conflict := negb conflict;
              kg := created |}, (if am then st3 else st2).
    split; [|split; reflexivity].
    unfold propose_claim. unfold bind at 1. rewrite Hconf. fold am.
    unfold bind at 1. rewrite Hpost. unfold bind at 1.
    destruct am.
    + change (String.eqb "approved" "approved") with true. cbv iota.
      rewrite Hf. reflexivity.
    + reflexivity.
  - unfold propose_claim. unfold bind at 1. rewrite Hconf. fold am.
    unfold bind at 1. now rewrite Hpost.
Qed.
End GateErrors.

Section FastPaths.
Import Gateway.
Variable env : Env.

(** X13. A question the add-claim pattern matches is turned into one POST to
    the ledger's [/propose_claim]: no conflict query, no model call, and no
    status in the body. *)
Theorem add_claim_fast_path (body : QueryIn) subj pred obj qual (st : state env) :
  _ADD_RE env (question body) = Some (subj, pred, obj, qual) ->
  match py_float env qual with
  | None => query env body st = (Raise ValueError, st)
  | Some quality =>
      let args := Routes.add_claim_args subj pred obj quality
                    (time_time env (world st)) in
      let routed := [("tool", JStr "propose_claim"); ("args", JObj args)] in
      dict_has "status" args = false
      /\ calls (snd (query env body st))
         = (calls st ++ [KgPost "/propose_claim" (Body_json (JObj args))])%list
      /\ query env body st
         = match _kg_post env "/propose_claim" (Body_json (JObj args)) st with
           | (Return result, st') =>
               (Return {| query_ok := true; answer := JStr "";
                          trace := [Assistant (json_dumps env (JObj routed));
                                    ToolResult result];
                          data := None |}, st')
           | (Raise e, st') => (Raise e, st')
           end
  end.
Proof.
  intros Hre. destruct (py_float env qual) as [quality|] eqn:Hq.
  - cbv zeta.
    set (args := Routes.add_claim_args subj pred obj quality (time_time env (world st))).
    assert (Hrun : query env body st
                   = match _kg_post env "/propose_claim" (Body_json (JObj args)) st with
                     | (Return result, st') =>
                         (Return {| query_ok := true; answer := JStr "";
                                    trace := [Assistant (json_dumps env
                                                (JObj [("tool", JStr "propose_claim");
                                                       ("args", JObj args)]));
                                              ToolResult result];
                                    data := None |}, st')
                     | (Raise e, st') => (Raise e, st')
                     end).
    { unfold query. unfold bind at 1. unfold _maybe_route_add_claim.
      rewrite Hre, Hq. unfold bind at 1.
      subst args. unfold Routes.add_claim_args.
      match goal with |- context [_dispatch_tool env ?r st] =>
        change (_dispatch_tool env r st)
          with (_kg_post env "/propose_claim"
                  (Body_json (dict_get "args" (JObj []) r)) st) end.
      cbn [dict_get dict_lookup String.eqb Ascii.eqb Bool.eqb].
      now destruct (_kg_post env "/propose_claim" _ st) as [[r|e] st']. }
    split; [reflexivity|]. split; [|exact Hrun].
    rewrite Hrun. pose proof (kg_post_calls env "/propose_claim" (Body_json (JObj args)) st) as Hc.
    now destruct (_kg_post env "/propose_claim" _ st) as [[r|e] st'].
  - unfold query. unfold bind at 1. unfold _maybe_route_add_claim.
    now rewrite Hre, Hq.
Qed.

(** X14. The depth of a routed neighbors request is 1 or 2, so the KG-API
    does not refuse it for its depth: it runs its query for the entity with
    the limit 50. *)
Theorem routed_neighbors_depth q routed (st st' : state env) :
  _maybe_route_neighbors env q st = (Return (Some routed), st') ->
  exists ent depth,
    routed = [("tool", JStr "neighbors");
              ("args", JObj (Routes.neighbors_args ent depth))]
    /\ (depth = 1 \/ depth = 2)%Z
    /\ exists nb,
         Deployment.as_neighbors_body (Body_json (JObj (Routes.neighbors_args ent depth)))
         = Some nb
         /\ forall other_cypher kst,
            exists text,
              KgApi.neighbors other_cypher nb kst
              = KgApi.cypher other_cypher
                  {| KgApi.query := text;
                     KgApi.params := [("id", JStr ent); ("limit", JInt 50)] |} kst.
Proof.
  unfold _maybe_route_neighbors. destruct (_NEI_RE env q) as [[ent d]|]; [|discriminate].
  destruct (py_int env d) as [n|]; [|discriminate].
  intros [= <- <-]. exists ent, (Z.max 1 (Z.min 2 n)).
  split; [reflexivity|]. split; [lia|].
  eexists. split; [reflexivity|]. intros other_cypher kst.
  unfold KgApi.neighbors. cbn [KgApi.depth KgApi.id KgApi.limit].
  rewrite bool_decide_eq_true_2 by lia. cbn [negb].
  eexists. reflexivity.
Qed.

(** X15. On the neighbors fast path the gateway makes one POST to
    [/neighbors] and, when that succeeds, one call to the model, whatever
    [max_steps] is; a model that does not finish gets the empty answer and
    the tool result as data. *)
Theorem neighbors_fast_path (body : QueryIn) ent d n (st : state env) :
  _ADD_RE env (question body) = None ->
  _NEI_RE env (question body) = Some (ent, d) ->
  py_int env d = Some n ->
  let args := Routes.neighbors_args ent (Z.max 1 (Z.min 2 n)) in
  let routed := [("tool", JStr "neighbors"); ("args", JObj args)] in
  match _kg_post env "/neighbors" (Body_json (JObj args)) st with
  | (Raise e, st1) => query env body st = (Raise e, st1)
  | (Return result, st1) =>
      let messages :=
        [("system", SYSTEM_PROMPT env); ("user", question body);
         ("assistant", json_dumps env (JObj routed));
         ("tool", json_dumps env result)] in
      calls (snd (query env body st))
      = (calls st ++ [KgPost "/neighbors" (Body_json (JObj args));
                      LlmChat messages])%list
      /\ forall text w',
           llm_reply env messages (world st1) = (Return text, w') ->
           dict_has "final" (_extract_json env text) = false ->
           fst (query env body st)
           = Return {| query_ok := true; answer := JStr "";
                       trace := [Assistant (json_dumps env (JObj routed));
                                 ToolResult result; Assistant text];
                       data := Some result |}
  end.
Proof.
  intros Hadd Hnei Hint args routed.
  assert (Hq : query env body st
               = (result <- _dispatch_tool env routed ;;
                  let trace := [Assistant (json_dumps env (JObj routed));
                                ToolResult result] in
                  let messages :=
                    [("system", SYSTEM_PROMPT env); ("user", question body);
                     ("assistant", json_dumps env (JObj routed));
                     ("tool", json_dumps env result)] in
                  assistant_text <- _call_llm env messages ;;
                  let trace := (trace ++ [Assistant assistant_text])%list in
                  let obj := _extract_json env assistant_text in
                  if dict_has "final" obj then
                    a <- final_answer env obj ;;
                    ret {| query_ok := true; answer := a; trace := trace;
                           data := None |}
                  else
                    ret {| query_ok := true; answer := JStr ""; trace := trace;
                           data := Some result |}) st).
  { unfold query. unfold bind at 1. unfold _maybe_route_add_claim. rewrite Hadd.
    unfold ret at 1. unfold bind at 1. unfold _maybe_route_neighbors.
    rewrite Hnei, Hint. reflexivity. }
  assert (Hd : _dispatch_tool env routed st
               = _kg_post env "/neighbors" (Body_json (JObj args)) st).
  { unfold _dispatch_tool. reflexivity. }
  pose proof (kg_post_calls env "/neighbors" (Body_json (JObj args)) st) as Hc.
  destruct (_kg_post env "/neighbors" (Body_json (JObj args)) st) as [[result|e] st1]
    eqn:Hpost.
  2:{ rewrite Hq. unfold bind at 1. now rewrite Hd. }
  cbn in Hc. cbv zeta.
  set (messages := [("system", SYSTEM_PROMPT env); ("user", question body);
                    ("assistant", json_dumps env (JObj routed));
                    ("tool", json_dumps env result)]).
  assert (Hq' : query env body st
                = (assistant_text <- _call_llm env messages ;;
                   let trace := [Assistant (json_dumps env (JObj routed));
                                 ToolResult result; Assistant assistant_text] in
                   let obj := _extract_json env assistant_text in
                   if dict_has "final" obj then
                     a <- final_answer env obj ;;
                     ret {| query_ok := true; answer := a; trace := trace;
                            data := None |}
                   else
                     ret {| query_ok := true; answer := JStr ""; trace := trace;
                            data := Some result |}) st1).
  { rewrite Hq. unfold bind at 1. rewrite Hd. reflexivity. }
  rewrite Hq'. clear Hq Hq'. split.
  - unfold bind at 1.
    pose proof (call_llm_calls env messages st1) as Hl.
    destruct (_call_llm env messages st1) as [[text|e] st2]; cbn in Hl.
    + cbv zeta. destruct (dict_has "final" (_extract_json env text)).
      * unfold bind at 1. pose proof (final_answer_state env (_extract_json env text) st2) as Hf.
        destruct (final_answer env _ st2) as [[a|e] st3]; cbn in Hf; subst st3; cbn;
          rewrite Hl, Hc, <- app_assoc; reflexivity.
      * cbn. rewrite Hl, Hc, <- app_assoc. reflexivity.
    + cbn. rewrite Hl, Hc, <- app_assoc. reflexivity.
  - intros text w' Hllm Hfinal. unfold bind at 1. unfold _call_llm.
    rewrite Hllm. cbv zeta. rewrite Hfinal. reflexivity.
Qed.

(** X16. The value under ["final"] has to be an object: its ["answer"] is the
    answer, the empty string when there is none; any other value ends the
    request with an [AttributeError]. *)
Theorem final_must_be_an_object text v n messages trace (st : state env) w' :
  llm_reply env messages (world st) = (Return text, w') ->
  dict_lookup "final" (_extract_json env text) = Some v ->
  query_loop env (S n) messages trace st
  = (match v with
     | JObj d =>
         Return {| query_ok := true; answer := dict_get "answer" (JStr "") d;
                   trace := (trace ++ [Assistant text])%list; data := None |}
     | _ => Raise AttributeError
     end,
     Build_state env w' (calls st ++ [LlmChat messages])).
Proof.
  intros Hllm Hv. rewrite (query_loop_step env n messages trace text w' st Hllm).
  cbv zeta. unfold dict_has. rewrite Hv.
  unfold bind at 1. unfold final_answer. unfold bind at 1. unfold lift at 1.
  cbn [subscript]. rewrite Hv. destruct v; reflexivity.
Qed.

(** X17. [_extract_json] reads the text from the first opening brace to the
    last closing brace: when that text is JSON the result is its value, and
    otherwise the whole text becomes a final answer. *)
Theorem extract_json_reads_the_brace_span text m :
  let s := sub_end_tool_result (sub_tool_result text) in
  Spec.brace_span s m ->
  _extract_json env text
  = match json_loads env m with
    | Some d => d
    | None => [("final", JObj [("answer", JStr (strip s))])]
    end
  /\ forall m', Spec.brace_span s m' -> m' = m.
Proof.
  intros s Hm. apply search_object_Some in Hm. split.
  - unfold _extract_json. fold s. now rewrite Hm.
  - intros m' Hm'. apply search_object_Some in Hm'. congruence.
Qed.

End FastPaths.

Lemma add_claim_fast_path_witness :
  let env := Scenarios.adding Examples.no_records in
  Gateway.calls
    (snd (Gateway.query env {| Gateway.question := "Add a claim: ...";
                               Gateway.max_steps := 4 |}
            (Examples.fresh env tt)))
  = [Gateway.KgPost "/propose_claim"
       (Gateway.Body_json
          (JObj (Routes.add_claim_args "Run:demo" "uses" "Model:v2" 0.95
                   1690000000)))]
  /\ dict_lookup "predicate"
       (Routes.add_claim_args "Run:demo" "uses" "Model:v2" 0.95 1690000000)
     = Some (JStr "USES").
Proof.
  intros env.
  pose proof (add_claim_fast_path env
                {| Gateway.question := "Add a claim: ..."; Gateway.max_steps := 4 |}
                "Run:demo" "uses" "Model:v2" "0.95" (Examples.fresh env tt) eq_refl)
    as H.
  cbn [Gateway.py_float env Scenarios.adding] in H. destruct H as (_ & H & _).
  split; [exact H | reflexivity].
Defined.

Lemma routed_neighbors_depth_witness :
  let env := Scenarios.asking Examples.no_records in
  exists ent depth,
    fst (Gateway._maybe_route_neighbors env "neighbors of `Run:demo` depth 7"
           (Examples.fresh env tt))
    = Return (Some [("tool", JStr "neighbors");
                    ("args", JObj (Routes.neighbors_args ent depth))])
    /\ (depth = 1 \/ depth = 2)%Z.
Proof.
  intros env.
  destruct (routed_neighbors_depth env "neighbors of `Run:demo` depth 7" _
              (Examples.fresh env tt) (Examples.fresh env tt) eq_refl)
    as (ent & depth & H & Hd & _).
  exists ent, depth. split; [|exact Hd].
  cbn. now rewrite <- H.
Defined.

Lemma neighbors_fast_path_witness :
  let env := Scenarios.asking Examples.no_records in
  Gateway.calls
    (snd (Gateway.query env {| Gateway.question := "neighbors of `Run:demo` depth 7";
                               Gateway.max_steps := 9 |}
            (Examples.fresh env tt)))
  = [Gateway.KgPost "/neighbors"
       (Gateway.Body_json (JObj (Routes.neighbors_args "Run:demo" 2)));
     Gateway.LlmChat
       [("system", ""); ("user", "neighbors of `Run:demo` depth 7");
        ("assistant", "<json>"); ("tool", "<json>")]].
Proof.
  intros env.
  pose proof (neighbors_fast_path env
                {| Gateway.question := "neighbors of `Run:demo` depth 7";
                   Gateway.max_steps := 9 |}
                "Run:demo" "7" 7 (Examples.fresh env tt) eq_refl eq_refl eq_refl) as H.
  cbv zeta in H. destruct H as [H _]. exact H.
Defined.

Lemma final_must_be_an_object_witness :
  let env := Examples.scripted Scenarios.bare_final_text
               [(Scenarios.bare_final_text, Scenarios.bare_final)]
               Examples.no_records in
  fst (Gateway.query env {| Gateway.question := "hello"; Gateway.max_steps := 4 |}
         (Examples.fresh env tt))
  = Raise AttributeError.
Proof.
  intros env.
  change (Gateway.query env _ (Examples.fresh env tt))
    with (Gateway.query_loop env 4 [("system", "You are a tool-using assistant.");
                                    ("user", "hello")] [] (Examples.fresh env tt)).
  rewrite (final_must_be_an_object env Scenarios.bare_final_text (JStr "done") 3
             _ [] (Examples.fresh env tt) tt eq_refl); [reflexivity|].
  vm_compute. reflexivity.
Defined.

Lemma extract_json_reads_the_brace_span_witness :
  let env := Examples.scripted "" [] Examples.no_records in
  Gateway._extract_json env "{a} and {b}"
  = [("final", JObj [("answer", JStr "{a} and {b}")])].
Proof.
  intros env.
  destruct (extract_json_reads_the_brace_span env "{a} and {b}" "{a} and {b}") as [H _].
  - exists "", "a} and {b", "". repeat split.
    + intros (pre & post & H). destruct pre; discriminate.
    + intros (pre & post & H). destruct pre; discriminate.
  - exact H.
Defined.

Section Keys.
Import Gateway.
Variable env : Env.

(** X18. With a key configured, a request whose [X-API-Key] header is missing
    or different is refused with status 401 before the handler runs, so no
    call leaves the gateway; with the right key, or with no key configured,
    the handler runs as if there were no check. *)
Theorem key_guards_the_handler {A} key header (handler : M env A) (st : state env) :
  (Auth.require_key key header = Return tt <-> key = "" \/ header = Some key)
  /\ (key = "" \/ header = Some key ->
      Auth.depends_require_key key header handler st = handler st)
  /\ (key <> "" -> header <> Some key ->
      Auth.depends_require_key key header handler st
      = (Raise (HTTPException 401 "invalid api key"), st)).
Proof.
  assert (Hd : Auth.differs key header = false <-> header = Some key).
  { destruct header as [k|]; cbn; [|split; discriminate].
    rewrite negb_false_iff, String.eqb_eq. split; congruence. }
  assert (Hr : Auth.require_key key header = Return tt <-> key = "" \/ header = Some key).
  { unfold Auth.require_key. destruct (String.eqb_spec key "") as [-> | Hk]; cbn [negb andb].
    - split; auto.
    - destruct (Auth.differs key header).
      + split; [discriminate|]. intros [? | H]; [contradiction|].
        apply Hd in H. discriminate.
      + split; [|reflexivity]. intros _. right. now apply Hd. }
  split; [exact Hr|]. split.
  - intros H. apply Hr in H. unfold Auth.depends_require_key, bind, lift.
    now rewrite H.
  - intros Hk Hh. unfold Auth.depends_require_key, bind, lift, Auth.require_key.
    apply String.eqb_neq in Hk. rewrite Hk. cbn [negb andb].
    destruct (Auth.differs key header); [reflexivity|].
    exfalso. apply Hh. now apply Hd.
Qed.

(** X19. The command line tool and a gateway that read the same
    [GATEWAY_API_KEY] agree: every request the tool sends with [_h()] passes
    [require_key]; a tool without a key is refused by a gateway with one. *)
Theorem kgctl_headers_pass key :
  Auth.require_key key (Kgctl.x_api_key (Kgctl._h key)) = Return tt
  /\ (key <> "" ->
      Auth.require_key key (Kgctl.x_api_key (Kgctl._h ""))
      = Raise (HTTPException 401 "invalid api key")).
Proof.
  split.
  - unfold Kgctl._h, Auth.require_key.
    destruct (String.eqb_spec key "") as [-> | Hk]; [reflexivity|].
    cbn. now rewrite String.eqb_refl.
  - intros Hk. unfold Auth.require_key. apply String.eqb_neq in Hk. now rewrite Hk.
Qed.

(** X20. [/health] of the gateway never fails and always says [ok]: when the
    KG-API cannot be reached or answers with an error, the error is reported
    under ["kg_api"]. *)
Theorem health_is_always_ok kg_get_reply str (st : state env) :
  exists kg st',
    Health.health env kg_get_reply str st
    = (Return (JObj [("ok", JBool true); ("kg_api", kg)]), st')
    /\ calls st' = calls st
    /\ match fst (kg_get_reply "/health" (world st)) with
       | ConnectError => kg = JObj [("error", JStr (str TransportError))]
       | Response code text body =>
           if (400 <=? code)%Z
           then kg = JObj [("error", JStr (str (HTTPException code text)))]
           else match body with
                | Some j => kg = j
                | None => kg = JObj [("error", JStr (str JSONDecodeError))]
                end
       end.
Proof.
  unfold Health.health, Health._kg_get.
  destruct (kg_get_reply "/health" (world st)) as [rep w]. cbn [fst].
  destruct rep as [|code text [j|]].
  - eexists _, _. split; [reflexivity|]. split; reflexivity.
  - destruct (400 <=? code)%Z; eexists _, _; (split; [reflexivity|]); split; reflexivity.
  - destruct (400 <=? code)%Z; eexists _, _; (split; [reflexivity|]); split; reflexivity.
Qed.

End Keys.

Section Review.
Import Gateway.
Variable env : Env.
Variables AUTO_TRUST MIN_QUAL : float.

(** X21. A claim without evidence, with an object that is not an entity, or
    with a predicate outside the auto-merge set is sent to review whatever
    the thresholds are and whatever the KG-API answers. *)
Theorem review_is_forced (claim : ClaimIn) (st : state env) :
  evidence claim = [] \/ object_kind claim <> "entity"
  \/ predicate claim ∉ AUTO_MERGE_PREDICATES ->
  calls (snd (propose_claim env AUTO_TRUST MIN_QUAL claim st))
  = (calls st ++ [KgPost "/cypher" (conflict_body claim);
                  KgPost "/propose_claim" (Body_claim claim "pending")])%list
  /\ forall out st',
       propose_claim env AUTO_TRUST MIN_QUAL claim st = (Return out, st') ->
       decision out = "T2-review".
Proof.
  intros H.
  destruct (gate_run env AUTO_TRUST MIN_QUAL claim st)
    as (conflict & st1 & status & tail & _ & Hst & Hcalls & Htail & Hout).
  assert (Hnot : ~ Spec.auto_merge AUTO_TRUST MIN_QUAL claim (_trust_score claim) conflict).
  { intros (Hp & Hk & _ & [Hev _] & _). destruct H as [H | [H | H]]; contradiction. }
  destruct Hst as [[_ Ham] | [-> _]]; [contradiction|].
  destruct Htail as [-> | ([=] & _)].
  split; [exact Hcalls|]. intros out st' Hrun.
  destruct (Hout out st' Hrun) as (_ & _ & _ & [[_ [=]] | [Hd _]]). exact Hd.
Qed.
End Review.

Lemma review_is_forced_witness :
  let env := Examples.scripted "" [] Examples.no_records in
  Gateway.calls
    (snd (Gateway.propose_claim env 0 0 Examples.literal_claim (Examples.fresh env tt)))
  = [Gateway.KgPost "/cypher" (Gateway.conflict_body Examples.literal_claim);
     Gateway.KgPost "/propose_claim" (Gateway.Body_claim Examples.literal_claim "pending")].
Proof.
  intros env.
  destruct (review_is_forced env 0 0 Examples.literal_claim (Examples.fresh env tt))
    as [H _]; [now left | exact H].
Defined.

Section SchedulerScan.
Import Scheduler.
Variable env : Env.

Lemma props_have_no_id node : dict_lookup "id" (props_of node) = None.
Proof.
  unfold props_of. induction node as [|[k v] node IH]; [reflexivity|].
  cbn [List.filter fst]. destruct (String.eqb_spec k "id") as [-> | Hk].
  - rewrite orb_true_r. exact IH.
  - destruct (_ || _); cbn [negb]; [exact IH|]. cbn [dict_lookup].
    assert (H : String.eqb "id" k = false) by (apply String.eqb_neq; congruence).
    rewrite H. exact IH.
Qed.

Lemma entity_id_is_node_id node : entity_id_of node = dict_get "id" JNull node.
Proof.
  unfold entity_id_of, dict_get at 1. now rewrite props_have_no_id.
Qed.

Lemma now_calls (st : state env) :
  exists t st', now env st = (Return t, st') /\ calls st' = calls st.
Proof.
  unfold now. destruct (time_time env (world st)) as [t w]. eauto.
Qed.

(** A placeholder proposal makes one POST, with no evidence and a literal
    object. *)
Lemma propose_placeholder_calls entity_id (st : state env) :
  exists t1 t2,
    calls (snd (_propose_placeholder env entity_id st))
    = (calls st ++ [PostClaim (payload env entity_id t1 t2)])%list.
Proof.
  unfold _propose_placeholder. unfold bind at 1.
  destruct (now_calls st) as (t1 & st1 & -> & H1). unfold bind at 1.
  destruct (now_calls st1) as (t2 & st2 & -> & H2).
  exists t1, t2. destruct (gateway_reply env _ (world st2)) as [[] w]; cbn;
    now rewrite H2, H1.
Qed.

Lemma propose_placeholder_returns entity_id (st : state env) :
  Gaps.gateway_up env ->
  exists t1 t2 st',
    _propose_placeholder env entity_id st = (Return tt, st')
    /\ calls st' = (calls st ++ [PostClaim (payload env entity_id t1 t2)])%list.
Proof.
  intros Hup. unfold _propose_placeholder. unfold bind at 1.
  destruct (now_calls st) as (t1 & st1 & -> & H1). unfold bind at 1.
  destruct (now_calls st1) as (t2 & st2 & -> & H2).
  exists t1, t2. specialize (Hup (payload env entity_id t1 t2) (world st2)).
  destruct (gateway_reply env _ (world st2)) as [d w]. cbn in Hup. subst d.
  eexists. split; [reflexivity|]. cbn. now rewrite H2, H1.
Qed.

Lemma visit_gap rec (st : state env) :
  Gaps.gateway_up env -> Gaps.gap_record rec ->
  exists ps st',
    visit env rec st = (Return tt, st')
    /\ calls st' = (calls st ++ (PostClaim <$> ps))%list
    /\ Gaps.placeholders env ps (option_list (Gaps.gap_id rec)).
Proof.
  intros Hup (r & -> & He). unfold visit. unfold bind at 1. unfold lift at 1.
  cbn [attr_get]. unfold dict_get at 1. unfold Gaps.gap_id.
  assert (Hnode : exists node,
            or_else (match dict_lookup "e" r with Some v => v | None => JNull end)
              (JObj []) = JObj node
            /\ match dict_lookup "e" r with
               | Some (JObj n) => n = node
               | _ => node = []
               end).
  { destruct (dict_lookup "e" r) as [v|]; [|exists []; auto].
    destruct v; unfold or_else; try (rewrite He; exists []; auto).
    destruct fields; eexists; split; reflexivity. }
  destruct Hnode as (node & -> & Hn).
  rewrite entity_id_is_node_id.
  assert (Hids : match dict_lookup "e" r with
                 | Some (JObj n) =>
                     match dict_lookup "id" n with
                     | Some i => if json_truthy i then Some i else None
                     | None => None
                     end
                 | _ => None
                 end
                 = if json_truthy (dict_get "id" JNull node)
                   then Some (dict_get "id" JNull node) else None).
  { unfold dict_get. destruct (dict_lookup "e" r) as [[]|]; subst; try reflexivity.
    destruct (dict_lookup "id" node); reflexivity. }
  rewrite Hids. clear Hids Hn He.
  destruct (json_truthy (dict_get "id" JNull node)).
  - destruct (propose_placeholder_returns (dict_get "id" JNull node) st Hup)
      as (t1 & t2 & st' & -> & Hc).
    exists [payload env (dict_get "id" JNull node) t1 t2], st'.
    split; [reflexivity|]. split; [exact Hc|].
    cbn. repeat constructor. eauto.
  - exists [], st. split; [reflexivity|]. split; [now rewrite app_nil_r|].
    cbn. constructor.
Qed.

Lemma gap_ids_cons rec recs :
  Gaps.gap_ids (rec :: recs)
  = (option_list (Gaps.gap_id rec) ++ Gaps.gap_ids recs)%list.
Proof. unfold Gaps.gap_ids. cbn. now destruct (Gaps.gap_id rec). Qed.

Lemma visit_all_gaps recs : forall (st : state env),
  Gaps.gateway_up env -> Forall Gaps.gap_record recs ->
  exists ps st',
    visit_all env recs st = (Return tt, st')
    /\ calls st' = (calls st ++ (PostClaim <$> ps))%list
    /\ Gaps.placeholders env ps (Gaps.gap_ids recs).
Proof.
  induction recs as [|rec recs IH]; intros st Hup Hrecs.
  - exists [], st. split; [reflexivity|]. split; [now rewrite app_nil_r|]. constructor.
  - apply Forall_cons in Hrecs as [Hrec Hrecs]. cbn [visit_all]. unfold bind at 1.
    destruct (visit_gap rec st Hup Hrec) as (ps1 & st1 & -> & Hc1 & Hp1).
    destruct (IH st1 Hup Hrecs) as (ps2 & st2 & -> & Hc2 & Hp2).
    exists (ps1 ++ ps2)%list, st2. split; [reflexivity|].
    split; [now rewrite Hc2, Hc1, fmap_app, app_assoc|].
    rewrite gap_ids_cons. now apply Forall2_app.
Qed.

(** X22. When the KG-API reports gaps and the gateway answers, one turn of
    the scheduler asks for the gaps once and then posts one placeholder
    claim, in order, for every reported node that has an id. *)
Theorem scan_proposes_for_each_gap code text d w recs (st : state env) :
  gaps_reply env (world st) = (Gateway.Response code text (Some (JObj d)), w) ->
  is_error env code = false ->
  dict_get "records" (JArr []) d = JArr recs ->
  Forall Gaps.gap_record recs ->
  Gaps.gateway_up env ->
  exists ps,
    calls (snd (scan env st)) = (calls st ++ GetGaps 20 :: (PostClaim <$> ps))%list
    /\ Gaps.placeholders env ps (Gaps.gap_ids recs)
    /\ fst (scan env st) = Return tt.
Proof.
  intros Hrep Herr Hd Hrecs Hup.
  assert (Hscan : exists ps st',
            scan env st = (Return tt, st')
            /\ calls st' = (calls st ++ GetGaps 20 :: (PostClaim <$> ps))%list
            /\ Gaps.placeholders env ps (Gaps.gap_ids recs)).
  { unfold scan. unfold bind at 1.
    unfold _fetch_gaps. rewrite Hrep, Herr. unfold bind at 1. unfold lift at 1.
    cbn [attr_get]. rewrite Hd. unfold bind at 1. unfold lift at 1. cbn [iter].
    match goal with |- context [visit_all env recs ?s] =>
      destruct (visit_all_gaps recs s Hup Hrecs) as (ps & st' & -> & Hc & Hp) end.
    exists ps, st'. split; [reflexivity|]. split; [|exact Hp].
    cbn in Hc. now rewrite Hc, <- app_assoc. }
  destruct Hscan as (ps & st' & -> & Hc & Hp). exists ps. auto.
Qed.

(** X23. A turn of the scheduler never fails: whatever goes wrong is
    swallowed, and when the gaps cannot be fetched nothing is posted. *)
Theorem scan_swallows_errors (st : state env) :
  fst (scan env st) = Return tt
  /\ (is_raise (fst (_fetch_gaps env st)) = true ->
      calls (snd (scan env st)) = (calls st ++ [GetGaps 20])%list).
Proof.
  unfold scan. split.
  - now destruct (bind _ _ st) as [[]].
  - unfold bind at 1.
    assert (Hc : calls (snd (_fetch_gaps env st)) = (calls st ++ [GetGaps 20])%list).
    { unfold _fetch_gaps. destruct (gaps_reply env (world st)) as [[|code text [j|]] w];
        cbn; try destruct (is_error env code); reflexivity. }
    destruct (_fetch_gaps env st) as [[data|e] st1]; cbn in Hc |- *; [discriminate|].
    intros _. exact Hc.
Qed.

End SchedulerScan.

Lemma scan_proposes_for_each_gap_witness :
  let env := Scenarios.reporting [Scenarios.entity_node "Run:demo"; JObj [];
                                  Scenarios.entity_node "Model:v2"] in
  exists ps,
    Scheduler.calls (snd (Scheduler.scan env (Scheduler.Build_state env tt [])))
    = Scheduler.GetGaps 20 :: (Scheduler.PostClaim <$> ps)
    /\ length ps = 2.
Proof.
  intros env.
  destruct (scan_proposes_for_each_gap env 200 "<json>"
              [("records", JArr [Scenarios.entity_node "Run:demo"; JObj [];
                                 Scenarios.entity_node "Model:v2"])] tt
              [Scenarios.entity_node "Run:demo"; JObj []; Scenarios.entity_node "Model:v2"]
              (Scheduler.Build_state env tt []))
    as (ps & Hc & Hp & _).
  - reflexivity.
  - reflexivity.
  - reflexivity.
  - repeat constructor; eexists; (split; [reflexivity|]); exact I.
  - intros p w. reflexivity.
  - exists ps. split; [exact Hc|]. apply Forall2_length in Hp. exact Hp.
Defined.

Section Serializer.
Import Neo4j.

Lemma json_nested_ind (P : json -> Prop) :
  P JNull -> (forall b, P (JBool b)) -> (forall n, P (JInt n)) ->
  (forall x, P (JFloat x)) -> (forall s, P (JStr s)) ->
  (forall l, Forall P l -> P (JArr l)) ->
  (forall d, Forall (fun kv => P (snd kv)) d -> P (JObj d)) ->
  forall j, P j.
Proof.
  intros Hnull Hbool Hint Hfloat Hstr Harr Hobj.
  fix IH 1.
  intros [ |b|n|x|s|l|d];
    [exact Hnull | apply Hbool | apply Hint | apply Hfloat | apply Hstr | |].
  - apply Harr. induction l as [|j l IHl]; constructor; [apply IH | exact IHl].
  - apply Hobj. induction d as [|[k j] d IHd]; constructor; [apply IH | exact IHd].
Qed.

Lemma serialize_plain j : _serialize_neo4j (plain j) = j.
Proof.
  induction j as [ | | | | |l IH|d IH] using json_nested_ind; try reflexivity.
  - cbn. f_equal. induction IH as [|j l Hj _ IHl]; [reflexivity|].
    cbn. now rewrite Hj, IHl.
  - cbn. f_equal. induction IH as [|[k j] d Hj _ IHd]; [reflexivity|].
    cbn in *. now rewrite Hj, IHd.
Qed.

(** X24. Rows without nodes, relationships and paths come out of
    [_neo4j_records_to_json] as they went in. *)
Theorem plain_rows_are_unchanged (rows : list dict) :
  _neo4j_records_to_json
    (List.map (List.map (fun kv => (fst kv, plain (snd kv)))) rows)
  = JObj <$> rows.
Proof.
  unfold _neo4j_records_to_json. induction rows as [|row rows IH]; [reflexivity|].
  cbn. rewrite IH. do 2 f_equal.
  induction row as [|[k j] row IHr]; [reflexivity|].
  cbn. now rewrite serialize_plain, IHr.
Qed.

Lemma lookup_dict_set k k' v d :
  dict_lookup k (dict_set k' v d)
  = if String.eqb k k' then Some v else dict_lookup k d.
Proof.
  induction d as [|[k0 v0] d IH]; cbn.
  - reflexivity.
  - destruct (String.eqb_spec k' k0) as [-> | Hne]; cbn.
    + now destruct (String.eqb k k0).
    + destruct (String.eqb_spec k k0) as [-> | Hne'].
      * apply String.eqb_neq in Hne. rewrite String.eqb_sym in Hne. now rewrite Hne.
      * exact IH.
Qed.

Lemma lookup_unpack k d : forall base,
  NoDup (fst <$> d) ->
  dict_lookup k (unpack base d)
  = match dict_lookup k d with Some v => Some v | None => dict_lookup k base end.
Proof.
  unfold unpack. induction d as [|[k0 v0] d IH]; intros base Hnd; [reflexivity|].
  cbn [fold_left fst snd]. apply NoDup_cons in Hnd as [Hk0 Hnd].
  rewrite IH by assumption. cbn [dict_lookup].
  rewrite lookup_dict_set.
  destruct (String.eqb_spec k k0) as [-> | Hne]; [|reflexivity].
  assert (Hnone : dict_lookup k0 d = None).
  { clear -Hk0. induction d as [|[k1 v1] d IH]; [reflexivity|]. cbn in *.
    apply not_elem_of_cons in Hk0 as [Hne Hk0].
    apply String.eqb_neq in Hne. rewrite Hne. auto. }
  now rewrite Hnone.
Qed.

(** X25. In a serialized node every property is found under its own name; a
    property named [id] takes the place of the element id, which is what
    makes the ["id"] of a created claim the id the other endpoints look the
    claim up by. *)
Theorem node_properties_win (n : Node) k :
  NoDup (fst <$> node_properties n) ->
  exists fields,
    _serialize_neo4j (VNode n) = JObj fields
    /\ dict_lookup k fields
       = match dict_lookup k (node_properties n) with
         | Some v => Some v
         | None =>
             dict_lookup k [("_type", JStr "node");
                            ("labels", JArr (JStr <$> labels n));
                            ("id", JStr (element_id n))]
         end.
Proof.
  intros Hnd. eexists. split; [reflexivity|]. now apply lookup_unpack.
Qed.

End Serializer.

Lemma node_properties_win_witness :
  let n := {| Neo4j.labels := ["Claim"]; Neo4j.element_id := "4:abc:17";
              Neo4j.node_properties := [("id", JStr "id-0"); ("status", JStr "pending")] |} in
  exists fields,
    Neo4j._serialize_neo4j (Neo4j.VNode n) = JObj fields
    /\ dict_lookup "id" fields = Some (JStr "id-0").
Proof.
  intros n. destruct (node_properties_win n "id") as (fields & H1 & H2).
  - apply (bool_decide_unpack _). vm_compute. exact I.
  - exists fields. split; [exact H1 | exact H2].
Defined.

Section AutoMerge.
Import Gateway.
Variable uuid : nat -> string.
Variable other_cypher : string -> dict -> KgApi.Tx (list dict).
Variable dumps : json -> string.
Variables AUTO_TRUST MIN_QUAL : float.

Local Notation "'env'" := (Deployment.env uuid other_cypher dumps).

Lemma link_evidence_raises cid es : forall st e st',
  KgApi.link_evidence uuid cid es st = (Raise e, st') -> e = Neo4jError.
Proof.
  induction es as [|ev es IH]; intros st e st' H; [discriminate|].
  cbn [KgApi.link_evidence] in H.
  apply tx_bind_inv in H as [(err & H & [= <-]) | ([] & st1 & _ & H)].
  { unfold KgApi.create_evidence, KgApi.tx_bind, KgApi.apoc_create_uuid in H.
    cbn in H. destruct (KgApi.evidences st !! _); [|discriminate].
    now injection H as <- _. }
  apply tx_bind_inv in H as [(err & H & _) | ([] & st2 & _ & H)]; [|eauto].
  unfold KgApi._write_evidence_pg in H. destruct (KgApi.pg_conn st1); discriminate.
Qed.

(** What [/propose_claim] of the KG-API fails with. *)
Lemma propose_claim_raises p st e st' :
  KgApi.propose_claim uuid p st = (Raise e, st') ->
  e = Neo4jError \/ e = HTTPException 500 "Neo4j driver not initialized".
Proof.
  intros H. destruct (KgApi.driver st) eqn:Hd.
  - left. destruct (propose_tx uuid p st _ _ Hd H) as (rc & st2 & Hc & Hrc).
    destruct rc as [c|e'].
    + destruct Hrc as (rl & st3 & Hl & Hrl). destruct rl as [[]|e'].
      * now destruct Hrl.
      * destruct Hrl as [[= ->] _]. eapply link_evidence_raises; eassumption.
    + destruct Hrc as [[= ->] _].
      unfold KgApi.create_claim, KgApi.tx_bind, KgApi.apoc_create_uuid in Hc.
      cbn in Hc. destruct (KgApi.claims st !! _); [|discriminate].
      now injection Hc as <- _.
  - right. unfold KgApi.propose_claim in H. rewrite Hd in H. now injection H as <- _.
Qed.

(** The POST of a proposal to the ledger: what comes back is the answer of
    a proposal that was stored. *)
Lemma post_proposal claim status st cs :
  let p := {| KgApi.claim := claim; KgApi.status := Some status |} in
  let cs' := (cs ++ [KgPost "/propose_claim" (Body_claim claim status)])%list in
  match _kg_post env "/propose_claim" (Body_claim claim status) (Build_state env st cs) with
  | (Return j, st1) =>
      KgApi.propose_claim uuid p st = (Return j, world st1) /\ calls st1 = cs'
  | (Raise _, st1) =>
      is_raise (fst (KgApi.propose_claim uuid p st)) = true
      /\ world st1 = snd (KgApi.propose_claim uuid p st) /\ calls st1 = cs'
  end.
Proof.
  intros p cs'. unfold _kg_post. cbn [world calls kg_reply Deployment.env].
  unfold Deployment.kg_api.
  change (String.eqb "/propose_claim" "/cypher") with false.
  change (String.eqb "/propose_claim" "/propose_claim") with true. cbv iota.
  unfold Deployment.as_claim_proposal, Deployment.serve. fold p.
  destruct (KgApi.propose_claim uuid p st) as [[j|e] st1] eqn:Hp; cbn [Deployment.respond].
  - change (400 <=? 200)%Z with false. cbv iota. auto.
  - apply propose_claim_raises in Hp as [-> | ->]; cbn; auto.
Qed.

(** The POST of an approval to the ledger. *)
Lemma post_approve cid st cs :
  let b := Body_json (JObj [("claim_id", JStr cid)]) in
  exists r,
    _kg_post env "/approve" b (Build_state env st cs)
    = (r, Build_state env (KgApi.step uuid st (KgApi.Approve {| KgApi.claim_id := cid |}))
            (cs ++ [KgPost "/approve" b])).
Proof.
  intros b. unfold _kg_post. cbn [world calls kg_reply Deployment.env].
  unfold Deployment.kg_api.
  change (String.eqb "/approve" "/cypher") with false.
  change (String.eqb "/approve" "/propose_claim") with false.
  change (String.eqb "/approve" "/approve") with true. cbv iota.
  unfold b, Deployment.as_claim_id, Deployment.serve, KgApi.step, KgApi.handle.
  change (dict_lookup "claim_id" _) with (Some (JStr cid)). cbv iota.
  destruct (KgApi.approve _ st) as [r st1]. cbn [snd].
  destruct (Deployment.respond dumps r) as [|code text [j|]];
    try destruct (400 <=? code)%Z; eexists; reflexivity.
Qed.

(** X26. Whenever the gate answers with an auto-merge, the edge of the claim
    has been written to the graph twice: once by the ledger's own
    [/propose_claim], which stores the claim as approved, and once more by
    the follow-up [/approve]. *)
Theorem auto_merge_writes_the_edge_twice claim st out stf :
  propose_claim env AUTO_TRUST MIN_QUAL claim
    (Deployment.arriving uuid other_cypher dumps st) = (Return out, stf) ->
  decision out = "T1-auto-merge" ->
  let e := {| KgApi.src := subject_id claim; KgApi.rel_type := predicate claim;
              KgApi.dst := object_value claim |} in
  KgApi.edges (world stf) = (KgApi.edges st ++ [e; e])%list
  /\ exists cid,
       KgApi.claims st !! cid = None
       /\ is_Some (KgApi.claims (world stf) !! cid)
       /\ Spec.posts_to "/approve" (calls stf)
          = [Body_json (JObj [("claim_id", JStr cid)])].
Proof.
  intros Hrun Hdec e.
  destruct (conflict_check_reads_only uuid other_cypher dumps claim st []) as [conflict Hc].
  unfold propose_claim in Hrun. unfold bind at 1 in Hrun.
  unfold Deployment.arriving in Hrun. rewrite Hc in Hrun.
  set (mq := if nonempty (evidence claim) then _ else false) in *.
  set (am := _ && _ && _ && _ && _) in *.
  destruct am eqn:Eam; unfold bind at 1 in Hrun.
  2:{ destruct (_kg_post env "/propose_claim" _ _) as [[created|err] st1];
        [|discriminate].
      cbn in Hrun. unfold bind, ret in Hrun. injection Hrun as <- _.
      discriminate. }
  assert (Hk : object_kind claim = "entity").
  { subst am. rewrite !andb_true_iff in Eam. destruct Eam as [[[[_ Hk] _] _] _].
    now apply String.eqb_eq. }
  pose proof (post_proposal claim "approved" st
                ([] ++ [KgPost "/cypher" (conflict_body claim)])) as Hp.
  cbv zeta in Hp.
  destruct (_kg_post env "/propose_claim" _ _) as [[created|err] [w1 cs1]];
    [|discriminate].
  cbn [world calls] in Hp. destruct Hp as [Hp ->].
  assert (Hd : KgApi.driver st = true).
  { unfold KgApi.propose_claim in Hp. destruct (KgApi.driver st); [reflexivity | discriminate]. }
  pose proof (keeps_propose_claim uuid _ _ _ _ Hp) as (Hd1 & _).
  pose proof (propose_entities uuid _ _ _ _ Hp) as [Hsub Hobj].
  pose proof Hp as Heff.
  apply propose_claim_effect in Heff
    as [[Hr _] | (c0 & c & [= ->] & Hid & Hfresh & Hcl & Hs & Hpr & Ho & Hkc & _ & He)];
    [discriminate|].
  cbn [KgApi.claim KgApi.status] in *.
  change (String.eqb "approved" "approved") with true in Hrun. cbv iota in Hrun.
  unfold bind at 1 in Hrun. unfold try_except in Hrun.
  unfold bind at 1 in Hrun. unfold lift at 1 in Hrun.
  change (subscript (JObj [("ok", JBool true); ("claim", KgApi._serialize_neo4j c0)]) "claim")
    with (Return (KgApi._serialize_neo4j c0)) in Hrun.
  unfold bind at 1 in Hrun. unfold lift at 1 in Hrun.
  change (subscript (KgApi._serialize_neo4j c0) "id")
    with (Return (JStr (KgApi.c_id c0))) in Hrun.
  unfold bind at 1 in Hrun.
  destruct (post_approve (KgApi.c_id c0) w1
              (([] ++ [KgPost "/cypher" (conflict_body claim)])
               ++ [KgPost "/propose_claim" (Body_claim claim "approved")])) as [r Hpost].
  cbv zeta in Hpost. rewrite Hpost in Hrun. rewrite Hid in *.
  assert (Hedges : KgApi.edges (KgApi.step uuid w1 (KgApi.Approve {| KgApi.claim_id := KgApi.c_id c |}))
                   = (KgApi.edges st ++ [e; e])%list).
  { rewrite (approve_adds_an_edge uuid _ c w1).
    - rewrite He, Hk, Hs, Hpr, Ho. cbn. now rewrite <- app_assoc.
    - congruence.
    - cbn. rewrite Hcl. apply lookup_insert_eq.
    - congruence.
    - now rewrite Hs.
    - rewrite Ho. auto. }
  assert (Hthere : is_Some (KgApi.claims (KgApi.step uuid w1
                     (KgApi.Approve {| KgApi.claim_id := KgApi.c_id c |})) !! KgApi.c_id c)).
  { destruct (step_grows uuid w1 (KgApi.Approve {| KgApi.claim_id := KgApi.c_id c |}))
      as (_ & _ & _ & _ & _ & _ & _ & _ & Hg).
    destruct (Hg (KgApi.c_id c) c) as (c' & Hc' & _); [|eauto].
    rewrite Hcl. apply lookup_insert_eq. }
  destruct r as [j|err]; cbn in Hrun; unfold ret, bind in Hrun; cbn in Hrun;
    injection Hrun as <- <-; cbn [world calls];
    (split; [exact Hedges|]); exists (KgApi.c_id c); repeat split; assumption || reflexivity.
Qed.

End AutoMerge.

Lemma auto_merge_writes_the_edge_twice_witness :
  KgApi.edges
    (Gateway.world
       (snd (Gateway.propose_claim
               (Deployment.env Examples.uuid Examples.no_cypher Examples.dumps)
               Gateway.AUTO_TRUST_default Gateway.MIN_QUAL_default Examples.demo_claim
               (Deployment.arriving Examples.uuid Examples.no_cypher Examples.dumps
                  KgApi.started))))
  = [Examples.demo_edge; Examples.demo_edge].
Proof.
  destruct (Gateway.propose_claim _ _ _ _ _) as [r stf] eqn:H.
  assert (exists out, r = Return out /\ Gateway.decision out = "T1-auto-merge")
    as (out & -> & Hd).
  { apply (f_equal fst) in H. vm_compute in H. eexists.
    split; [symmetry; exact H | reflexivity]. }
  destruct (auto_merge_writes_the_edge_twice Examples.uuid Examples.no_cypher
              Examples.dumps _ _ _ _ _ _ H Hd) as [He _].
  exact He.
Defined.
